(** * mydb: the transactional storage core, embedded in Rocq

    A shallow embedding of the Go packages [utils], [file], [log],
    [buffer], [tx/concurrency] and [tx] of the repository, and the
    properties of its specification that were checked against it.

    Conventions of the embedding:
    - a Go [int] is a [Z] kept inside the range of the platform's word by
      [wrap_int]; fixed-width conversions are written out;
    - a [[]byte] is a [list byte]; sub-slices that alias their parent
      ([p.buffer[offset:]]) are modelled by writing back into the parent;
    - a Go function returning [(T, error)] returns an [outcome], which
      also records a run-time panic (index or slice out of range);
    - objects mutated through a pointer are passed in and returned. *)

From Stdlib Require Import ZArith List Lia Bool Sorted.
From Stdlib Require Import Strings.Byte.
From stdpp Require Import base option list gmap strings pretty.

Local Open Scope Z_scope.

(** ** The platform: [runtime.GOARCH] *)

Class Platform := { GOARCH : string }.

Definition goarch_386 : Platform := {| GOARCH := "386" |}.
Definition goarch_arm : Platform := {| GOARCH := "arm" |}.
Definition goarch_amd64 : Platform := {| GOARCH := "amd64" |}.
Definition goarch_arm64 : Platform := {| GOARCH := "arm64" |}.

(** The test [runtime.GOARCH == "386" || runtime.GOARCH == "arm"] that
    [utils.init], [Page.GetInt] and [Page.SetInt] all make. *)
Definition is_386_or_arm `{Platform} : bool :=
  bool_decide (GOARCH = "386") || bool_decide (GOARCH = "arm").

(** utils/int_type.go: [var IntSize = 8], set to 4 by [init] on 386 and arm. *)
Definition IntSize `{Platform} : Z := if is_386_or_arm then 4 else 8.

(** Width in bits of Go's [int]: 32 on 386 and arm, 64 on the other
    platforms considered here (amd64, arm64). *)
Definition int_bits `{Platform} : Z := if is_386_or_arm then 32 else 64.

(** Two's-complement wrap-around of a signed integer of [bits] bits. *)
Definition wrap_signed (bits z : Z) : Z :=
  (z + 2 ^ (bits - 1)) mod 2 ^ bits - 2 ^ (bits - 1).

Definition wrap_int `{Platform} (z : Z) : Z := wrap_signed int_bits z.
Definition wrap_int64 (z : Z) : Z := wrap_signed 64 z.
Definition wrap_int16 (z : Z) : Z := wrap_signed 16 z.

Definition MaxInt `{Platform} : Z := 2 ^ (int_bits - 1) - 1.
Definition MinInt `{Platform} : Z := - 2 ^ (int_bits - 1).

(** Go's [+] and [-] on [int]. *)
Definition int_add `{Platform} (x y : Z) : Z := wrap_int (x + y).
Definition int_sub `{Platform} (x y : Z) : Z := wrap_int (x - y).
Definition int_mul `{Platform} (x y : Z) : Z := wrap_int (x * y).

(** ** Results of Go calls *)

Inductive outcome (A : Type) : Type :=
| Ok (a : A)
| Error (msg : string)
| Panic.
Arguments Ok {A} a.
Arguments Error {A} msg.
Arguments Panic {A}.

Definition outcome_bind {A B} (f : A -> outcome B) (m : outcome A) : outcome B :=
  match m with
  | Ok a => f a
  | Error e => Error e
  | Panic => Panic
  end.

#[global] Instance outcome_mbind : MBind outcome := @outcome_bind.
#[global] Instance outcome_mret : MRet outcome := @Ok.

(** [fmt.Errorf(prefix + ": %v", err)] around a failing call. *)
Definition wrap_error {A} (prefix : string) (m : outcome A) : outcome A :=
  match m with
  | Error e => Error (prefix +:+ e)
  | _ => m
  end.

Definition is_Ok {A} (m : outcome A) : bool :=
  match m with Ok _ => true | _ => false end.
Definition is_Error {A} (m : outcome A) : bool :=
  match m with Error _ => true | _ => false end.

(** ** Bytes and [encoding/binary.BigEndian] *)

Definition Z_of_byte (b : byte) : Z := Z.of_N (Byte.to_N b).

(** The conversion [byte(v)]: the low eight bits. *)
Definition byte_of_Z (z : Z) : byte :=
  match Byte.of_N (Z.to_N (z mod 256)) with
  | Some b => b
  | None => Byte.x00
  end.

(** [PutUint16/32/64]: the [n] low bytes of [v], most significant first. *)
Fixpoint be_encode (n : nat) (v : Z) : list byte :=
  match n with
  | O => []
  | S n' => byte_of_Z (Z.shiftr v (8 * Z.of_nat n')) :: be_encode n' v
  end.

(** [Uint16/32/64]: the unsigned value of a big-endian byte string. *)
Definition be_decode (bs : list byte) : Z :=
  fold_left (fun acc b => 256 * acc + Z_of_byte b) bs 0.

(** ** Go slices *)

Definition len {A} (s : list A) : Z := Z.of_nat (length s).

(** [s[low:high]]; panics unless [0 <= low <= high <= cap(s)].  Every
    slice of the program comes from [make([]byte, n)], whose capacity is
    its length. *)
Definition slice {A} (s : list A) (low high : Z) : outcome (list A) :=
  if bool_decide (0 <= low /\ low <= high /\ high <= len s)
  then Ok (take (Z.to_nat (high - low)) (drop (Z.to_nat low) s))
  else Panic.

(** [s[low:]]. *)
Definition slice_from {A} (s : list A) (low : Z) : outcome (list A) :=
  slice s low (len s).

(** The effect on [s] of writing [src] through the alias [s[off:]]:
    the bytes of [s] from [off] on are replaced, the length is kept. *)
Definition overwrite {A} (s : list A) (off : nat) (src : list A) : list A :=
  take off s ++ src ++ drop (off + length src) s.

(** [make([]byte, n)]; panics on a negative length. *)
Definition make_bytes (n : Z) : outcome (list byte) :=
  if bool_decide (0 <= n) then Ok (replicate (Z.to_nat n) Byte.x00) else Panic.

(** [copy(dst, src)] where [dst = s[off:]]: copies
    [min(len(dst), len(src))] bytes. *)
Definition copy_at {A} (s : list A) (off : nat) (src : list A) : list A :=
  overwrite s off (take (length s - off) src).

(** [binary.BigEndian.UintN(b)] for N = 8n: panics when [b] is shorter
    than [n] bytes. *)
Definition Uint (n : nat) (b : list byte) : outcome Z :=
  if bool_decide (Z.of_nat n <= len b) then Ok (be_decode (take n b)) else Panic.

(** [binary.BigEndian.PutUintN(s[off:], v)], as its effect on [s]. *)
Definition PutUint (n : nat) (s : list byte) (off : Z) (v : Z) : outcome (list byte) :=
  dst ← slice_from s off;
  if bool_decide (Z.of_nat n <= len dst)
  then Ok (overwrite s (Z.to_nat off) (be_encode n v))
  else Panic.

(** ** package file *)

Module file.

(** *** Page *)

Record Page := mkPage { buffer : list byte }.

Definition NewPage (blockSize : Z) : outcome Page :=
  b ← make_bytes blockSize; Ok (mkPage b).

Definition NewPageFromBytes (bytes : list byte) : Page := mkPage bytes.

Definition Contents (p : Page) : list byte := buffer p.

Section PageAccessors.
Context `{Platform}.

Definition GetInt (p : Page) (offset : Z) : outcome Z :=
  s ← slice_from (buffer p) offset;
  if is_386_or_arm
  then v ← Uint 4 s; Ok (wrap_int v)
  else v ← Uint 8 s; Ok (wrap_int v).

Definition SetInt (p : Page) (offset : Z) (n : Z) : outcome Page :=
  if is_386_or_arm
  then b ← PutUint 4 (buffer p) offset (n mod 2 ^ 32); Ok (mkPage b)
  else b ← PutUint 8 (buffer p) offset (n mod 2 ^ 64); Ok (mkPage b).

Definition GetLong (p : Page) (offset : Z) : outcome Z :=
  s ← slice_from (buffer p) offset;
  v ← Uint 8 s; Ok (wrap_int64 v).

Definition SetLong (p : Page) (offset : Z) (n : Z) : outcome Page :=
  b ← PutUint 8 (buffer p) offset (n mod 2 ^ 64); Ok (mkPage b).

(** [make([]byte, length)] panics on a negative length, and the slice
    expression on bounds out of range; either way the call panics, and
    the new slice is built here once both are known to be fine. *)
Definition GetBytes (p : Page) (offset : Z) : outcome (list byte) :=
  length ← GetInt p offset;
  let start := int_add offset IntSize in
  let end_ := int_add start length in
  if bool_decide (length < 0) then Panic
  else
    src ← slice (buffer p) start end_;
    b ← make_bytes length;
    Ok (copy_at b 0 src).

Definition SetBytes (p : Page) (offset : Z) (b : list byte) : outcome Page :=
  let length := len b in
  p1 ← SetInt p offset length;
  let start := int_add offset IntSize in
  _ ← slice_from (buffer p1) start;
  Ok (mkPage (copy_at (buffer p1) (Z.to_nat start) b)).

(** [unicode/utf8.Valid], after the Go standard library: the accepted
    ranges of the second byte depend on the first (no overlong forms,
    no surrogates, nothing above U+10FFFF). *)
Definition cont (b : byte) : bool :=
  (128 <=? Z_of_byte b) && (Z_of_byte b <=? 191).

Fixpoint utf8_Valid (bs : list byte) : bool :=
  match bs with
  | [] => true
  | b0 :: r0 =>
    let c := Z_of_byte b0 in
    if c <? 128 then utf8_Valid r0
    else match r0 with
      | [] => false
      | b1 :: r1 =>
        let c1 := Z_of_byte b1 in
        if (194 <=? c) && (c <=? 223) then cont b1 && utf8_Valid r1
        else match r1 with
          | [] => false
          | b2 :: r2 =>
            if (c =? 224) then (160 <=? c1) && (c1 <=? 191) && cont b2 && utf8_Valid r2
            else if ((225 <=? c) && (c <=? 236)) || ((238 <=? c) && (c <=? 239))
                 then cont b1 && cont b2 && utf8_Valid r2
            else if (c =? 237) then (128 <=? c1) && (c1 <=? 159) && cont b2 && utf8_Valid r2
            else match r2 with
              | [] => false
              | b3 :: r3 =>
                if (c =? 240) then (144 <=? c1) && (c1 <=? 191) && cont b2 && cont b3 && utf8_Valid r3
                else if (241 <=? c) && (c <=? 243) then cont b1 && cont b2 && cont b3 && utf8_Valid r3
                else if (c =? 244) then (128 <=? c1) && (c1 <=? 143) && cont b2 && cont b3 && utf8_Valid r3
                else false
              end
          end
      end
  end.

(** A Go [string] is a byte string, as is a Rocq [string]. *)
Definition GetString (p : Page) (offset : Z) : outcome string :=
  b ← GetBytes p offset;
  if negb (utf8_Valid b) then Error "invalid UTF-8 encoding"
  else Ok (String.string_of_list_byte b).

Definition SetString (p : Page) (offset : Z) (s : string) : outcome Page :=
  if negb (utf8_Valid (String.list_byte_of_string s))
  then Error "string contains invalid UTF-8 characters"
  else SetBytes p offset (String.list_byte_of_string s).

Definition GetShort (p : Page) (offset : Z) : outcome Z :=
  s ← slice_from (buffer p) offset;
  v ← Uint 2 s; Ok (wrap_int16 v).

Definition SetShort (p : Page) (offset : Z) (n : Z) : outcome Page :=
  b ← PutUint 2 (buffer p) offset (n mod 2 ^ 16); Ok (mkPage b).

(** [p.buffer[offset]]: panics unless [0 <= offset < len]. *)
Definition index_byte (s : list byte) (offset : Z) : outcome byte :=
  if bool_decide (0 <= offset)
  then match s !! Z.to_nat offset with Some b => Ok b | None => Panic end
  else Panic.

Definition GetBool (p : Page) (offset : Z) : outcome bool :=
  b ← index_byte (buffer p) offset;
  Ok (negb (Z_of_byte b =? 0)).

Definition SetBool (p : Page) (offset : Z) (b : bool) : outcome Page :=
  _ ← index_byte (buffer p) offset;
  Ok (mkPage (<[Z.to_nat offset := if b then Byte.x01 else Byte.x00]> (buffer p))).

(** A [time.Time] is represented by its Unix time in seconds, which is
    all that [GetDate] and [SetDate] keep of it. *)
Definition GetDate (p : Page) (offset : Z) : outcome Z :=
  s ← slice_from (buffer p) offset;
  v ← Uint 8 s; Ok (wrap_int64 v).

Definition SetDate (p : Page) (offset : Z) (date : Z) : outcome Page :=
  b ← PutUint 8 (buffer p) offset (date mod 2 ^ 64); Ok (mkPage b).

(** [utf8.UTFMax] is 4. *)
Definition MaxLength (strlen : Z) : Z := int_add IntSize (int_mul strlen 4).

End PageAccessors.

(** *** BlockId *)

Record BlockId := mkBlockId { File : string; BlockNumber : Z }.

#[global] Instance BlockId_eq_dec : EqDecision BlockId.
Proof. solve_decision. Defined.

#[global] Instance BlockId_countable : Countable BlockId.
Proof.
  apply (inj_countable' (fun b => (File b, BlockNumber b))
                        (fun p => mkBlockId (fst p) (snd p))).
  intros []; reflexivity.
Defined.

Definition Equals (b other : BlockId) : bool :=
  bool_decide (File b = File other) && bool_decide (BlockNumber b = BlockNumber other).
Definition NewBlockId (filename : string) (blockNumber : Z) : BlockId :=
  mkBlockId filename blockNumber.
Definition Filename (b : BlockId) : string := File b.
Definition Number (b : BlockId) : Z := BlockNumber b.

(** *** The operating system's files

    A file is its contents.  The calls of [os.File] the manager makes are
    modelled on it; failures of the device itself are outside the model
    (a seek before the start of the file is the one error kept). *)

Inductive io_error := io_nil | io_EOF | io_ErrUnexpectedEOF.

#[global] Instance io_error_eq_dec : EqDecision io_error.
Proof. solve_decision. Defined.

(** [io.ReadFull(f, buf)] with the file positioned at [offset]: reads
    until [buf] is full; [EOF] if nothing could be read, [ErrUnexpectedEOF]
    if the file ended after some but not all bytes.  Returns the count,
    the error and [buf] afterwards. *)
Definition ReadFull (contents : list byte) (offset : Z) (buf : list byte)
  : Z * io_error * list byte :=
  let avail := drop (Z.to_nat offset) contents in
  let got := take (length buf) avail in
  let n := len got in
  (n,
   if bool_decide (n = len buf) then io_nil
   else if bool_decide (n = 0) then io_EOF else io_ErrUnexpectedEOF,
   got ++ drop (length got) buf).

(** [f.Write(buf)] with the file positioned at [offset]: a gap past the
    end of the file reads as zeros. *)
Definition write_at (contents : list byte) (offset : Z) (buf : list byte) : list byte :=
  let off := Z.to_nat offset in
  take off (contents ++ replicate (off - length contents) Byte.x00)
    ++ buf ++ drop (off + length buf) contents.

(** *** Manager *)

Record Manager := mkManager {
  disk : gmap string (list byte);  (* the files under dbDirectory *)
  blockSize : Z;
  isNew : bool;
  openFiles : gset string;
  blocksRead : Z;
  blocksWritten : Z;
}.

Definition file_contents (m : Manager) (filename : string) : list byte :=
  default [] (disk m !! filename).

Definition set_contents (m : Manager) (filename : string) (c : list byte) : Manager :=
  mkManager (<[filename := c]> (disk m)) (blockSize m) (isNew m)
            (openFiles m) (blocksRead m) (blocksWritten m).

(** [os.OpenFile(.., O_RDWR|O_CREATE|O_SYNC, ..)] creates a missing file
    empty; the handle is cached. *)
Definition getFile (m : Manager) (filename : string) : Manager :=
  if bool_decide (filename ∈ openFiles m) then m
  else mkManager (<[filename := file_contents m filename]> (disk m))
                 (blockSize m) (isNew m) ({[filename]} ∪ openFiles m)
                 (blocksRead m) (blocksWritten m).

Definition incr_blocksRead `{Platform} (m : Manager) : Manager :=
  mkManager (disk m) (blockSize m) (isNew m) (openFiles m)
            (int_add (blocksRead m) 1) (blocksWritten m).

Definition incr_blocksWritten `{Platform} (m : Manager) : Manager :=
  mkManager (disk m) (blockSize m) (isNew m) (openFiles m)
            (blocksRead m) (int_add (blocksWritten m) 1).

Section ManagerOps.
Context `{Platform}.

Definition Read (m : Manager) (block : BlockId) (page : Page)
  : outcome (Manager * Page) :=
  let m := getFile m (Filename block) in
  let offset := wrap_int64 (Number block * blockSize m) in
  if bool_decide (offset < 0) then Error "cannot seek to offset"
  else
    let buf := Contents page in
    let '(n, err, buf') := ReadFull (file_contents m (Filename block)) offset buf in
    let page' := mkPage buf' in
    (* Handle successful read *)
    if bool_decide (err = io_nil) && bool_decide (n = len buf)
    then Ok (incr_blocksRead m, page')
    (* Handle EOF case *)
    else if bool_decide (err = io_EOF) then
      if bool_decide (n = 0) then Ok (incr_blocksRead m, page')
      else Error "partial read at EOF"
    else if negb (bool_decide (err = io_nil)) then Error "cannot read data"
    else Error "short read".

Definition Write (m : Manager) (block : BlockId) (page : Page) : outcome Manager :=
  let m := getFile m (Filename block) in
  let offset := wrap_int64 (Number block * blockSize m) in
  if bool_decide (offset < 0) then Error "cannot seek to offset"
  else
    let buf := Contents page in
    let m := set_contents m (Filename block)
               (write_at (file_contents m (Filename block)) offset buf) in
    Ok (incr_blocksWritten m).

(** Returns the number of blocks of the file; the division panics on a
    zero block size. *)
Definition Length (m : Manager) (filename : string) : outcome (Z * Manager) :=
  let m := getFile m filename in
  let fileSizeInBytes := len (file_contents m filename) in
  if bool_decide (blockSize m = 0) then Panic
  else Ok (wrap_int (wrap_int64 (Z.quot fileSizeInBytes (blockSize m))), m).

Definition Append (m : Manager) (filename : string) : outcome (BlockId * Manager) :=
  '(newBlockNumber, m) ← Length m filename;
  let block := mkBlockId filename newBlockNumber in
  let m := getFile m filename in
  let offset := wrap_int64 (Number block * blockSize m) in
  if bool_decide (offset < 0) then Error "cannot seek to offset"
  else
    b ← make_bytes (blockSize m);
    let m := set_contents m filename
               (write_at (file_contents m filename) offset b) in
    Ok (block, incr_blocksWritten m).

Definition IsNew (m : Manager) : bool := isNew m.
Definition BlockSize (m : Manager) : Z := blockSize m.
Definition GetBlocksRead (m : Manager) : Z := blocksRead m.
Definition GetBlocksWritten (m : Manager) : Z := blocksWritten m.

End ManagerOps.

End file.

(** ** package log *)

Module log.

(** The manager's [*file.Manager] is shared with the buffers and the
    iterators: it is passed in and returned next to the manager. *)
Record Manager := mkManager {
  logFile : string;
  logPage : file.Page;
  currentBlock : file.BlockId;
  latestLSN : Z;
  lastSavedLSN : Z;
}.

Record Iterator := mkIterator {
  block : file.BlockId;
  page : file.Page;
  currentPosition : Z;
  boundary : Z;
}.

Section LogOps.
Context `{Platform}.

Definition appendNewBlock (fileManager : file.Manager) (logFile : string)
           (logPage : file.Page)
  : outcome (file.BlockId * file.Page * file.Manager) :=
  '(block, fileManager) ←
     wrap_error "failed to append new block: " (file.Append fileManager logFile);
  logPage ← file.SetInt logPage 0 (file.BlockSize fileManager);
  fileManager ←
     wrap_error "failed to write new block: " (file.Write fileManager block logPage);
  Ok (block, logPage, fileManager).

Definition NewManager (fileManager : file.Manager) (logFile : string)
  : outcome (Manager * file.Manager) :=
  (* Create a new empty page *)
  logPage ← file.NewPage (file.BlockSize fileManager);
  '(logSize, fileManager) ←
     wrap_error "failed to get log file lenght : " (file.Length fileManager logFile);
  '(currentBlock, logPage, fileManager) ←
     (if bool_decide (logSize = 0)
      then wrap_error "failed to append a new block: "
             (appendNewBlock fileManager logFile logPage)
      else
        let currentBlock := file.mkBlockId logFile (int_sub logSize 1) in
        '(fileManager, logPage) ←
           wrap_error "failed to read log page: "
             (file.Read fileManager currentBlock logPage);
        Ok (currentBlock, logPage, fileManager));
  Ok (mkManager logFile logPage currentBlock 0 0, fileManager).

(** flush writes the buffer to the log file. *)
Definition flush (m : Manager) (fileManager : file.Manager)
  : outcome (Manager * file.Manager) :=
  fileManager ←
     wrap_error "failed to write log page:"
       (file.Write fileManager (currentBlock m) (logPage m));
  Ok (mkManager (logFile m) (logPage m) (currentBlock m) (latestLSN m) (latestLSN m),
      fileManager).

Definition Flush (m : Manager) (fileManager : file.Manager) (lsn : Z)
  : outcome (Manager * file.Manager) :=
  if bool_decide (lsn >= lastSavedLSN m) then flush m fileManager
  else Ok (m, fileManager).

Definition Append (m : Manager) (fileManager : file.Manager) (logRecord : list byte)
  : outcome (Z * Manager * file.Manager) :=
  (* Get the current boundary *)
  b ← file.GetInt (logPage m) 0;
  let recordSize := len logRecord in
  let bytesNeeded := int_add recordSize 4 in
  '(b, m, fileManager) ←
     (if bool_decide (int_sub b bytesNeeded < 4) then
        '(m, fileManager) ← wrap_error "failed to flush log: " (flush m fileManager);
        '(newBlock, newPage, fileManager) ←
           wrap_error "failed to append new block: "
             (appendNewBlock fileManager (logFile m) (logPage m));
        let m := mkManager (logFile m) newPage newBlock (latestLSN m) (lastSavedLSN m) in
        b ← file.GetInt (logPage m) 0;
        Ok (b, m, fileManager)
      else Ok (b, m, fileManager));
  let recordPosition := int_sub b bytesNeeded in
  page1 ← file.SetBytes (logPage m) recordPosition logRecord;
  page2 ← file.SetInt page1 0 recordPosition;
  let lsn := int_add (latestLSN m) 1 in
  Ok (lsn,
      mkManager (logFile m) page2 (currentBlock m) lsn (lastSavedLSN m),
      fileManager).

(** *** Iterator *)

Definition moveToBlock (it : Iterator) (fileManager : file.Manager)
           (blk : file.BlockId) : outcome (Iterator * file.Manager) :=
  '(fileManager, newPage) ←
     wrap_error "failed to read block: " (file.Read fileManager blk (page it));
  b ← file.GetInt newPage 0;
  Ok (mkIterator (block it) newPage b b, fileManager).

Definition NewIterator (fileManager : file.Manager) (block : file.BlockId)
  : outcome (Iterator * file.Manager) :=
  newPage ← file.NewPage (file.BlockSize fileManager);
  let iterator := mkIterator block newPage 0 0 in
  wrap_error "failed to move to block: " (moveToBlock iterator fileManager block).

Definition HasNext (it : Iterator) (fileManager : file.Manager) : bool :=
  bool_decide (currentPosition it < file.BlockSize fileManager)
  || bool_decide (file.Number (block it) > 0).

Definition Next (it : Iterator) (fileManager : file.Manager)
  : outcome (list byte * Iterator * file.Manager) :=
  '(it, fileManager) ←
     (if bool_decide (currentPosition it = file.BlockSize fileManager) then
        if bool_decide (file.Number (block it) = 0)
        then Error "no more log records"
        else
          let prev := file.mkBlockId (file.Filename (block it))
                                     (int_sub (file.Number (block it)) 1) in
          let it := mkIterator prev (page it) (currentPosition it) (boundary it) in
          wrap_error "failed to move to block :" (moveToBlock it fileManager prev)
      else Ok (it, fileManager));
  record ← file.GetBytes (page it) (currentPosition it);
  let it := mkIterator (block it) (page it)
              (int_add (currentPosition it) (int_add 4 (len record)))
              (boundary it) in
  Ok (record, it, fileManager).

Definition Iterator_ (m : Manager) (fileManager : file.Manager)
  : outcome (Iterator * Manager * file.Manager) :=
  '(m, fileManager) ← wrap_error "failed to flush log: " (flush m fileManager);
  '(it, fileManager) ← NewIterator fileManager (currentBlock m);
  Ok (it, m, fileManager).

End LogOps.

End log.

(** ** package buffer *)

Module buffer.

(** A [*Buffer] is its index in the pool.  The buffer's [fileManager] and
    [logManager] are the shared ones, passed in and returned. *)
Record Buffer := mkBuffer {
  contents : file.Page;
  block : option file.BlockId;   (* nil until first assigned *)
  pins : Z;
  txnNum : Z;
  lsn : Z;
}.

Record Manager := mkManager {
  bufferPool : list Buffer;
  numAvailable : Z;
}.

Section BufferOps.
Context `{Platform}.

Definition NewBuffer (fileManager : file.Manager) : outcome Buffer :=
  page ← file.NewPage (file.BlockSize fileManager);
  Ok (mkBuffer page None 0 (-1) (-1)).

Definition Contents (b : Buffer) : file.Page := contents b.
Definition Block (b : Buffer) : option file.BlockId := block b.

Definition SetModified (b : Buffer) (txnNum lsn : Z) : Buffer :=
  let b := mkBuffer (contents b) (block b) (pins b) txnNum (buffer.lsn b) in
  (* if LSN is smaller then 0, it indicates that a log record was not
     generated for this update *)
  if bool_decide (lsn >= 0)
  then mkBuffer (contents b) (block b) (pins b) (buffer.txnNum b) lsn
  else b.

Definition isPinned (b : Buffer) : bool := bool_decide (pins b > 0).
Definition modifyingTxn (b : Buffer) : Z := txnNum b.

(** flush writes the buffer to its disk block if it is dirty: the log
    is flushed up to the buffer's LSN first. *)
Definition flush (b : Buffer) (logManager : log.Manager) (fileManager : file.Manager)
  : outcome (Buffer * log.Manager * file.Manager) :=
  if bool_decide (txnNum b >= 0) then
    '(logManager, fileManager) ←
       wrap_error "failed to flush log record for txn"
         (log.Flush logManager fileManager (lsn b));
    blk ← match block b with Some blk => Ok blk | None => Panic end;
    fileManager ←
       wrap_error "failed to write block :" (file.Write fileManager blk (contents b));
    Ok (mkBuffer (contents b) (block b) (pins b) (-1) (lsn b), logManager, fileManager)
  else Ok (b, logManager, fileManager).

Definition assignToBlock (b : Buffer) (blk : file.BlockId)
           (logManager : log.Manager) (fileManager : file.Manager)
  : outcome (Buffer * log.Manager * file.Manager) :=
  '(b, logManager, fileManager) ←
     wrap_error "failed to flush buffer for block" (flush b logManager fileManager);
  let b := mkBuffer (contents b) (Some blk) (pins b) (txnNum b) (lsn b) in
  '(fileManager, page) ←
     wrap_error "failed to read block to buffer"
       (file.Read fileManager blk (contents b));
  Ok (mkBuffer page (block b) 0 (txnNum b) (lsn b), logManager, fileManager).

Definition pin (b : Buffer) : Buffer :=
  mkBuffer (contents b) (block b) (int_add (pins b) 1) (txnNum b) (lsn b).
Definition unpin (b : Buffer) : Buffer :=
  mkBuffer (contents b) (block b) (int_sub (pins b) 1) (txnNum b) (lsn b).

(** *** Manager, with the naive replacement strategy (whose [pinBuffer]
    and [unpinBuffer] do nothing) *)

Fixpoint NewBuffers (fileManager : file.Manager) (n : nat) : outcome (list Buffer) :=
  match n with
  | O => Ok []
  | S n' => b ← NewBuffer fileManager; bs ← NewBuffers fileManager n'; Ok (b :: bs)
  end.

Definition NewManager (fileManager : file.Manager) (numBuffers : Z) : outcome Manager :=
  if bool_decide (numBuffers < 0) then Panic
  else pool ← NewBuffers fileManager (Z.to_nat numBuffers);
       Ok (mkManager pool numBuffers).

Definition Available (m : Manager) : Z := numAvailable m.

(** FlushAll flushes the dirty buffers modified by the specified
    transaction, in pool order, stopping at the first failure. *)
Fixpoint FlushAll_from (pool : list Buffer) (txnNum : Z)
         (logManager : log.Manager) (fileManager : file.Manager)
  : outcome (list Buffer * log.Manager * file.Manager) :=
  match pool with
  | [] => Ok ([], logManager, fileManager)
  | buff :: rest =>
    '(buff, logManager, fileManager) ←
       (if bool_decide (modifyingTxn buff = txnNum)
        then wrap_error "failed to flush buffer for txn"
               (flush buff logManager fileManager)
        else Ok (buff, logManager, fileManager));
    '(rest, logManager, fileManager) ← FlushAll_from rest txnNum logManager fileManager;
    Ok (buff :: rest, logManager, fileManager)
  end.

Definition FlushAll (m : Manager) (txnNum : Z)
           (logManager : log.Manager) (fileManager : file.Manager)
  : outcome (Manager * log.Manager * file.Manager) :=
  '(pool, logManager, fileManager) ←
     FlushAll_from (bufferPool m) txnNum logManager fileManager;
  Ok (mkManager pool (numAvailable m), logManager, fileManager).

(** Unpin: [buffer] points into the pool. *)
Definition Unpin (m : Manager) (buffer : nat) : Manager :=
  match bufferPool m !! buffer with
  | None => m
  | Some b =>
    let b := unpin b in
    let pool := <[buffer := b]> (bufferPool m) in
    if negb (isPinned b)
    then mkManager pool (int_add (numAvailable m) 1)
    else mkManager pool (numAvailable m)
  end.

(** findExistingBuffer searches for a buffer assigned to the block. *)
Fixpoint find_index {A} (P : A -> bool) (l : list A) : option nat :=
  match l with
  | [] => None
  | x :: r => if P x then Some O else S <$> find_index P r
  end.

Definition findExistingBuffer (m : Manager) (blk : file.BlockId) : option nat :=
  find_index (fun buffer =>
                match Block buffer with
                | Some b => file.Equals b blk
                | None => false
                end) (bufferPool m).

(** NaiveStrategy.chooseUnpinnedBuffer: the first unpinned buffer. *)
Definition chooseUnpinnedBuffer (m : Manager) : option nat :=
  find_index (fun buff => negb (isPinned buff)) (bufferPool m).

Definition tryToPin (m : Manager) (blk : file.BlockId)
           (logManager : log.Manager) (fileManager : file.Manager)
  : outcome (option nat * Manager * log.Manager * file.Manager) :=
  chosen ←
    match findExistingBuffer m blk with
    | Some i => Ok (Some (i, m, logManager, fileManager))
    | None =>
      match chooseUnpinnedBuffer m with
      | None => Ok None
      | Some i =>
        match bufferPool m !! i with
        | None => Ok None
        | Some b =>
          '(b, logManager, fileManager) ← assignToBlock b blk logManager fileManager;
          Ok (Some (i, mkManager (<[i := b]> (bufferPool m)) (numAvailable m),
                    logManager, fileManager))
        end
      end
    end;
  match chosen with
  | None => Ok (None, m, logManager, fileManager)
  | Some (i, m, logManager, fileManager) =>
    match bufferPool m !! i with
    | None => Ok (None, m, logManager, fileManager)
    | Some b =>
      let avail := if negb (isPinned b) then int_sub (numAvailable m) 1
                   else numAvailable m in
      Ok (Some i, mkManager (<[i := pin b]> (bufferPool m)) avail,
          logManager, fileManager)
    end
  end.

(** Pin, for a caller that is alone: nobody unpins a buffer while it
    waits, so a wait ends at the deadline with the abort error. *)
Definition Pin (m : Manager) (blk : file.BlockId)
           (logManager : log.Manager) (fileManager : file.Manager)
  : outcome (nat * Manager * log.Manager * file.Manager) :=
  '(buff, m, logManager, fileManager) ← tryToPin m blk logManager fileManager;
  match buff with
  | Some i => Ok (i, m, logManager, fileManager)
  | None => Error "buffer abort exception: could not pin block"
  end.

End BufferOps.

End buffer.

(** ** package tx/concurrency *)

Module concurrency.

Record LockTable := mkLockTable { locks : gmap file.BlockId Z }.

Definition NewLockTable : LockTable := mkLockTable ∅.

(** [lt.locks[*block]]: a missing key reads as the zero value. *)
Definition getLockVal (lt : LockTable) (blk : file.BlockId) : Z :=
  default 0 (locks lt !! blk).

(** hasXLock returns true if there is an exclusive lock on the block. *)
Definition hasXLock (lt : LockTable) (blk : file.BlockId) : bool :=
  bool_decide (getLockVal lt blk < 0).

(** hasOtherSLocks returns true if there is more than one shared lock. *)
Definition hasOtherSLocks (lt : LockTable) (blk : file.BlockId) : bool :=
  bool_decide (getLockVal lt blk > 1).

Section LockOps.
Context `{Platform}.

(** The waiting loops.  [wakeups] lists the table as the caller finds
    it each time [cond.Wait] returns before the deadline; when the list
    is used up, the next return is the deadline's broadcast and the
    call fails. *)
Fixpoint SLock (lt : LockTable) (blk : file.BlockId) (wakeups : list LockTable)
  : outcome LockTable :=
  (* If there's no exclusive lock, we can proceed *)
  if negb (hasXLock lt blk) then
    let val := getLockVal lt blk in
    Ok (mkLockTable (<[blk := int_add val 1]> (locks lt)))
  else
    match wakeups with
    | [] => Error "lock abort execption: could not acquire shared lock"
    | lt' :: rest => SLock lt' blk rest
    end.

Fixpoint XLock (lt : LockTable) (blk : file.BlockId) (wakeups : list LockTable)
  : outcome LockTable :=
  if negb (hasOtherSLocks lt blk) then
    Ok (mkLockTable (<[blk := -1]> (locks lt)))
  else
    match wakeups with
    | [] => Error "lock abort execption: could not acquire exlcusive lock"
    | lt' :: rest => XLock lt' blk rest
    end.

Definition Unlock (lt : LockTable) (blk : file.BlockId) : LockTable :=
  let val := getLockVal lt blk in
  if bool_decide (val > 1)
  then mkLockTable (<[blk := int_sub val 1]> (locks lt))
  else mkLockTable (delete blk (locks lt)).

(** *** The per-transaction manager.  Its calls are those of a
    transaction that is alone on the table: no wake-up before the
    deadline. *)

Record Manager := mkManager { held : gmap file.BlockId string }.

Definition NewManager : Manager := mkManager ∅.

Definition Manager_hasXLock (m : Manager) (blk : file.BlockId) : bool :=
  match held m !! blk with
  | Some lock => bool_decide (lock = "x")
  | None => false
  end.

Definition Manager_SLock (m : Manager) (lockTable : LockTable) (blk : file.BlockId)
  : outcome (Manager * LockTable) :=
  match held m !! blk with
  | None =>
    lockTable ← SLock lockTable blk [];
    Ok (mkManager (<[blk := "s"]> (held m)), lockTable)
  | Some _ => Ok (m, lockTable)
  end.

Definition Manager_XLock (m : Manager) (lockTable : LockTable) (blk : file.BlockId)
  : outcome (Manager * LockTable) :=
  if negb (Manager_hasXLock m blk) then
    '(m, lockTable) ← Manager_SLock m lockTable blk;
    lockTable ← XLock lockTable blk [];
    Ok (mkManager (<[blk := "x"]> (held m)), lockTable)
  else Ok (m, lockTable).

Definition Manager_Release (m : Manager) (lockTable : LockTable)
  : Manager * LockTable :=
  (mkManager ∅,
   foldr (fun blk lt => Unlock lt blk) lockTable (map fst (map_to_list (held m)))).

End LockOps.

End concurrency.

(** ** package tx *)

Module tx.

(** *** Log records *)

Inductive LogRecordType :=
| Checkpoint | Start | Commit | Rollback
| SetInt | SetString | SetBool | SetLong | SetShort | SetDate.

#[global] Instance LogRecordType_eq_dec : EqDecision LogRecordType.
Proof. solve_decision. Defined.

(** [int(t)]: the constants are declared with [iota]. *)
Definition code (t : LogRecordType) : Z :=
  match t with
  | Checkpoint => 0 | Start => 1 | Commit => 2 | Rollback => 3 | SetInt => 4
  | SetString => 5 | SetBool => 6 | SetLong => 7 | SetShort => 8 | SetDate => 9
  end.

Definition FromCode (c : Z) : outcome LogRecordType :=
  match c with
  | 0 => Ok Checkpoint | 1 => Ok Start | 2 => Ok Commit | 3 => Ok Rollback
  | 4 => Ok SetInt | 5 => Ok SetString | 6 => Ok SetBool | 7 => Ok SetLong
  | 8 => Ok SetShort | 9 => Ok SetDate
  | _ => Error "unknown LogRecordType code"
  end.

(** The implementations of the [LogRecord] interface, one constructor
    per struct. *)
Inductive LogRecord :=
| CheckpointRecord
| StartRecord (txNum : Z)
| CommitRecord (txNum : Z)
| RollbackRecord (txNum : Z)
| SetIntRecord (txNum offset value : Z) (block : file.BlockId)
| SetStringRecord (txNum offset : Z) (value : string) (block : file.BlockId)
| SetBoolRecord (txNum offset : Z) (value : bool) (block : file.BlockId)
| SetLongRecord (txNum offset value : Z) (block : file.BlockId)
| SetShortRecord (txNum offset value : Z) (block : file.BlockId)
| SetDateRecord (txNum offset value : Z) (block : file.BlockId).

Definition Op (r : LogRecord) : LogRecordType :=
  match r with
  | CheckpointRecord => Checkpoint
  | StartRecord _ => Start
  | CommitRecord _ => Commit
  | RollbackRecord _ => Rollback
  | SetIntRecord _ _ _ _ => SetInt
  | SetStringRecord _ _ _ _ => SetString
  | SetBoolRecord _ _ _ _ => SetBool
  | SetLongRecord _ _ _ _ => SetLong
  | SetShortRecord _ _ _ _ => SetShort
  | SetDateRecord _ _ _ _ => SetDate
  end.

(** CheckpointRecord does not have a transaction number, so it returns a
    dummy, negative one. *)
Definition TxNumber (r : LogRecord) : Z :=
  match r with
  | CheckpointRecord => -1
  | StartRecord t | CommitRecord t | RollbackRecord t => t
  | SetIntRecord t _ _ _ | SetStringRecord t _ _ _ | SetBoolRecord t _ _ _
  | SetLongRecord t _ _ _ | SetShortRecord t _ _ _ | SetDateRecord t _ _ _ => t
  end.

Definition strlen (s : string) : Z := Z.of_nat (String.length s).

Section Codec.
Context `{Platform}.

(** **** Decoding *)

Definition NewCheckpointRecord : outcome LogRecord := Ok CheckpointRecord.

Definition NewStartRecord (page : file.Page) : outcome LogRecord :=
  let operationPos := 0 in
  let txNumPos := int_add operationPos IntSize in
  txNum ← file.GetInt page txNumPos;
  Ok (StartRecord txNum).

Definition NewCommitRecord (page : file.Page) : outcome LogRecord :=
  let operationPos := 0 in
  let txNumPos := int_add operationPos IntSize in
  txNum ← file.GetInt page txNumPos;
  Ok (CommitRecord txNum).

Definition NewRollbackRecord (page : file.Page) : outcome LogRecord :=
  let operationPos := 0 in
  let txNumPos := int_mul operationPos IntSize in
  txNum ← file.GetInt page txNumPos;
  Ok (RollbackRecord txNum).

(** The part the six [NewSet..Record] functions have in common: the
    transaction number, the block, the offset, and where the value is. *)
Definition readUpdateHeader (page : file.Page)
  : outcome (Z * file.BlockId * Z * Z) :=
  let operationPos := 0 in
  let txNumPos := int_add operationPos IntSize in
  txNum ← file.GetInt page txNumPos;
  let fileNamePos := int_add txNumPos IntSize in
  fileName ← file.GetString page fileNamePos;
  let blockNumPos := int_add fileNamePos (file.MaxLength (strlen fileName)) in
  blockNum ← file.GetInt page blockNumPos;
  let block := file.mkBlockId fileName blockNum in
  let offsetPos := int_add blockNumPos IntSize in
  offset ← file.GetInt page offsetPos;
  let valuePos := int_add offsetPos IntSize in
  Ok (txNum, block, offset, valuePos).

Definition NewSetIntRecord (page : file.Page) : outcome LogRecord :=
  '(txNum, block, offset, valuePos) ← readUpdateHeader page;
  value ← file.GetInt page valuePos;
  Ok (SetIntRecord txNum offset value block).

Definition NewSetStringRecord (page : file.Page) : outcome LogRecord :=
  '(txNum, block, offset, valuePos) ← readUpdateHeader page;
  value ← file.GetString page valuePos;
  Ok (SetStringRecord txNum offset value block).

Definition NewSetBoolRecord (page : file.Page) : outcome LogRecord :=
  '(txNum, block, offset, valuePos) ← readUpdateHeader page;
  value ← file.GetBool page valuePos;
  Ok (SetBoolRecord txNum offset value block).

Definition NewSetLongRecord (page : file.Page) : outcome LogRecord :=
  '(txNum, block, offset, valuePos) ← readUpdateHeader page;
  value ← file.GetLong page valuePos;
  Ok (SetLongRecord txNum offset value block).

Definition NewSetShortRecord (page : file.Page) : outcome LogRecord :=
  '(txNum, block, offset, valuePos) ← readUpdateHeader page;
  value ← file.GetShort page valuePos;
  Ok (SetShortRecord txNum offset value block).

Definition NewSetDateRecord (page : file.Page) : outcome LogRecord :=
  '(txNum, block, offset, valuePos) ← readUpdateHeader page;
  value ← file.GetDate page valuePos;
  Ok (SetDateRecord txNum offset value block).

(** CreateLogRecord interprets the bytes to create the appropriate log
    record. *)
Definition CreateLogRecord (bytes : list byte) : outcome LogRecord :=
  let p := file.NewPageFromBytes bytes in
  c ← file.GetInt p 0;
  recordType ← FromCode c;
  match recordType with
  | Checkpoint => NewCheckpointRecord
  | Start => NewStartRecord p
  | Commit => NewCommitRecord p
  | Rollback => NewRollbackRecord p
  | SetInt => NewSetIntRecord p
  | SetString => NewSetStringRecord p
  | SetBool => NewSetBoolRecord p
  | SetLong => NewSetLongRecord p
  | SetShort => NewSetShortRecord p
  | SetDate => NewSetDateRecord p
  end.

(** **** Encoding.  Each [Write..ToLog] builds the record's bytes and
    appends them; the bytes are given a name of their own. *)

Definition CheckpointBytes : outcome (list byte) :=
  record ← make_bytes 4;
  let page := file.NewPageFromBytes record in
  page ← file.SetInt page 0 (code Checkpoint);
  Ok (file.Contents page).

Definition StartBytes (txNum : Z) : outcome (list byte) :=
  record ← make_bytes (int_mul 2 IntSize);
  let page := file.NewPageFromBytes record in
  page ← file.SetInt page 0 (code Start);
  page ← file.SetInt page 4 txNum;
  Ok (file.Contents page).

Definition CommitBytes (txNum : Z) : outcome (list byte) :=
  record ← make_bytes (int_mul 2 IntSize);
  let page := file.NewPageFromBytes record in
  page ← file.SetInt page 0 (code Commit);
  page ← file.SetInt page IntSize txNum;
  Ok (file.Contents page).

Definition RollbackBytes (txNum : Z) : outcome (list byte) :=
  record ← make_bytes (int_mul 2 IntSize);
  let page := file.NewPageFromBytes record in
  page ← file.SetInt page 0 (code Rollback);
  page ← file.SetInt page 4 txNum;
  Ok (file.Contents page).

(** The part the six [WriteSet..ToLog] functions have in common;
    [valueLen] is the room for the value. *)
Definition writeUpdateHeader (op : LogRecordType) (txNum : Z)
           (block : file.BlockId) (offset : Z) (valueLen : Z)
  : outcome (file.Page * Z) :=
  let operationPos := 0 in
  let txNumPos := int_add operationPos IntSize in
  let fileNamePos := int_add txNumPos IntSize in
  let fileName := file.Filename block in
  let blockNumPos := int_add fileNamePos (file.MaxLength (strlen fileName)) in
  let blockNum := file.Number block in
  let offsetPos := int_add blockNumPos IntSize in
  let valuePos := int_add offsetPos IntSize in
  let recordLen := int_add valuePos valueLen in
  recordBytes ← make_bytes recordLen;
  let page := file.NewPageFromBytes recordBytes in
  page ← file.SetInt page operationPos (code op);
  page ← file.SetInt page txNumPos txNum;
  page ← file.SetString page fileNamePos fileName;
  page ← file.SetInt page blockNumPos blockNum;
  page ← file.SetInt page offsetPos offset;
  Ok (page, valuePos).

Definition SetIntBytes (txNum : Z) (block : file.BlockId) (offset val : Z)
  : outcome (list byte) :=
  '(page, valuePos) ← writeUpdateHeader SetInt txNum block offset IntSize;
  page ← file.SetInt page valuePos val;
  Ok (file.Contents page).

Definition SetStringBytes (txNum : Z) (block : file.BlockId) (offset : Z)
           (value : string) : outcome (list byte) :=
  '(page, valuePos) ←
     writeUpdateHeader SetString txNum block offset (file.MaxLength (strlen value));
  page ← file.SetString page valuePos value;
  Ok (file.Contents page).

Definition SetBoolBytes (txNum : Z) (block : file.BlockId) (offset : Z)
           (val : bool) : outcome (list byte) :=
  '(page, valuePos) ← writeUpdateHeader SetBool txNum block offset 1;
  page ← file.SetBool page valuePos val;
  Ok (file.Contents page).

Definition SetLongBytes (txNum : Z) (block : file.BlockId) (offset val : Z)
  : outcome (list byte) :=
  '(page, valuePos) ← writeUpdateHeader SetLong txNum block offset 8;
  page ← file.SetLong page valuePos val;
  Ok (file.Contents page).

Definition SetShortBytes (txNum : Z) (block : file.BlockId) (offset val : Z)
  : outcome (list byte) :=
  '(page, valuePos) ← writeUpdateHeader SetShort txNum block offset 2;
  page ← file.SetShort page valuePos val;
  Ok (file.Contents page).

Definition SetDateBytes (txNum : Z) (block : file.BlockId) (offset val : Z)
  : outcome (list byte) :=
  '(page, valuePos) ← writeUpdateHeader SetDate txNum block offset 8;
  page ← file.SetDate page valuePos val;
  Ok (file.Contents page).

Definition append_record (logManager : log.Manager) (fileManager : file.Manager)
           (record : outcome (list byte))
  : outcome (Z * log.Manager * file.Manager) :=
  record ← record; log.Append logManager fileManager record.

Definition WriteCheckpointToLog logManager fileManager :=
  append_record logManager fileManager CheckpointBytes.
Definition WriteStartToLog logManager fileManager (txNum : Z) :=
  append_record logManager fileManager (StartBytes txNum).
Definition WriteCommitToLog logManager fileManager (txNum : Z) :=
  append_record logManager fileManager (CommitBytes txNum).
Definition WriteRollbackToLog logManager fileManager (txNum : Z) :=
  append_record logManager fileManager (RollbackBytes txNum).
Definition WriteSetIntToLog logManager fileManager txNum block offset val :=
  append_record logManager fileManager (SetIntBytes txNum block offset val).
Definition WriteSetStringToLog logManager fileManager txNum block offset val :=
  append_record logManager fileManager (SetStringBytes txNum block offset val).
Definition WriteSetBoolToLog logManager fileManager txNum block offset val :=
  append_record logManager fileManager (SetBoolBytes txNum block offset val).
Definition WriteSetLongToLog logManager fileManager txNum block offset val :=
  append_record logManager fileManager (SetLongBytes txNum block offset val).
Definition WriteSetShortToLog logManager fileManager txNum block offset val :=
  append_record logManager fileManager (SetShortBytes txNum block offset val).
Definition WriteSetDateToLog logManager fileManager txNum block offset val :=
  append_record logManager fileManager (SetDateBytes txNum block offset val).

End Codec.

(** *** BufferList: a transaction's pinned buffers, with reference counts *)

Record pinnedBuffer := mkPinned { buffer : nat; refCount : Z }.

Record BufferList := mkBufferList { buffers : gmap file.BlockId pinnedBuffer }.

Definition NewBufferList : BufferList := mkBufferList ∅.

Definition GetBuffer (bl : BufferList) (block : file.BlockId) : option nat :=
  match buffers bl !! block with
  | None => None
  | Some pinnedBuf => Some (buffer pinnedBuf)
  end.

(** *** The objects the transactions share *)

Record Db := mkDb {
  fileManager : file.Manager;
  logManager : log.Manager;
  bufferManager : buffer.Manager;
  lockTable : concurrency.LockTable;
  nextTxNum : Z;
}.

Record Transaction := mkTransaction {
  txNum : Z;
  myBuffers : BufferList;
  concurrencyManager : concurrency.Manager;
}.

Definition with_storage (db : Db) (lm : log.Manager) (fm : file.Manager) : Db :=
  mkDb fm lm (bufferManager db) (lockTable db) (nextTxNum db).
Definition with_buffers (db : Db) (bm : buffer.Manager) : Db :=
  mkDb (fileManager db) (logManager db) bm (lockTable db) (nextTxNum db).
Definition with_locks (db : Db) (lt : concurrency.LockTable) : Db :=
  mkDb (fileManager db) (logManager db) (bufferManager db) lt (nextTxNum db).
Definition with_myBuffers (tx : Transaction) (bl : BufferList) : Transaction :=
  mkTransaction (txNum tx) bl (concurrencyManager tx).
Definition with_concurrency (tx : Transaction) (cm : concurrency.Manager) : Transaction :=
  mkTransaction (txNum tx) (myBuffers tx) cm.

Section Transactions.
Context `{Platform}.

(** Pin pins the block.  If the block is already pinned by this
    transaction, simply increment the reference count. *)
Definition BufferList_Pin (bl : BufferList) (db : Db) (block : file.BlockId)
  : outcome (BufferList * Db) :=
  match buffers bl !! block with
  | Some pinnedBuf =>
    let pinnedBuf := mkPinned (buffer pinnedBuf) (int_add (refCount pinnedBuf) 1) in
    Ok (mkBufferList (<[block := pinnedBuf]> (buffers bl)), db)
  | None =>
    '(buff, bm, lm, fm) ←
       buffer.Pin (bufferManager db) block (logManager db) (fileManager db);
    Ok (mkBufferList (<[block := mkPinned buff 1]> (buffers bl)),
        with_buffers (with_storage db lm fm) bm)
  end.

(** Unpin decrements the refCount.  Only call bufferManager.Unpin when
    the last pin is released. *)
Definition BufferList_Unpin (bl : BufferList) (bufferManager : buffer.Manager)
           (block : file.BlockId) : BufferList * buffer.Manager :=
  match buffers bl !! block with
  | None =>
    (* This block isn't pinned or was already unpinned. *)
    (bl, bufferManager)
  | Some pinnedBuf =>
    let pinnedBuf := mkPinned (buffer pinnedBuf) (int_sub (refCount pinnedBuf) 1) in
    if bool_decide (refCount pinnedBuf <= 0) then
      (* Now fully unpin from buffer manager and remove from our map *)
      (mkBufferList (delete block (buffers bl)),
       buffer.Unpin bufferManager (buffer pinnedBuf))
    else (mkBufferList (<[block := pinnedBuf]> (buffers bl)), bufferManager)
  end.

(** UnpinAll: one [bufferManager.Unpin] per reference held. *)
Fixpoint Unpin_times (n : nat) (bufferManager : buffer.Manager) (buff : nat)
  : buffer.Manager :=
  match n with
  | O => bufferManager
  | S n' => Unpin_times n' (buffer.Unpin bufferManager buff) buff
  end.

Definition BufferList_UnpinAll (bl : BufferList) (bufferManager : buffer.Manager)
  : BufferList * buffer.Manager :=
  (mkBufferList ∅,
   foldr (fun pinnedBuf bm =>
            Unpin_times (Z.to_nat (refCount pinnedBuf)) bm (buffer pinnedBuf))
         bufferManager (map snd (map_to_list (buffers bl)))).

(** *** Transaction *)

Definition nextTxNumber (db : Db) : Z * Db :=
  let n := int_add (nextTxNum db) 1 in
  (n, mkDb (fileManager db) (logManager db) (bufferManager db) (lockTable db) n).

Definition NewTransaction (db : Db) : Transaction * Db :=
  let '(n, db) := nextTxNumber db in
  (mkTransaction n NewBufferList concurrency.NewManager, db).

Definition Pin (tx : Transaction) (db : Db) (block : file.BlockId)
  : outcome (Transaction * Db) :=
  '(bl, db) ← BufferList_Pin (myBuffers tx) db block;
  Ok (with_myBuffers tx bl, db).

Definition Unpin (tx : Transaction) (db : Db) (block : file.BlockId)
  : Transaction * Db :=
  let '(bl, bm) := BufferList_Unpin (myBuffers tx) (bufferManager db) block in
  (with_myBuffers tx bl, with_buffers db bm).

(** What the six [Set..] methods do before touching the page: take the
    exclusive lock and look the buffer up. *)
Definition lockAndFind (tx : Transaction) (db : Db) (block : file.BlockId)
  : outcome (Transaction * Db * nat * buffer.Buffer) :=
  '(cm, lt) ← concurrency.Manager_XLock (concurrencyManager tx) (lockTable db) block;
  let tx := with_concurrency tx cm in
  let db := with_locks db lt in
  match GetBuffer (myBuffers tx) block with
  | None => Error "buffer for block not found"
  | Some i =>
    match buffer.bufferPool (bufferManager db) !! i with
    | None => Panic
    | Some buff => Ok (tx, db, i, buff)
    end
  end.

(** What they do after: store the page and stamp the buffer. *)
Definition storeModified (tx : Transaction) (db : Db) (i : nat)
           (buff : buffer.Buffer) (page : file.Page) (lsn : Z) : Db :=
  let buff := buffer.mkBuffer page (buffer.block buff) (buffer.pins buff)
                              (buffer.txnNum buff) (buffer.lsn buff) in
  let buff := buffer.SetModified buff (txNum tx) lsn in
  with_buffers db (buffer.mkManager
                     (<[i := buff]> (buffer.bufferPool (bufferManager db)))
                     (buffer.numAvailable (bufferManager db))).

Definition block_of (buff : buffer.Buffer) : outcome file.BlockId :=
  match buffer.Block buff with Some b => Ok b | None => Panic end.

(** RecoveryManager.SetInt writes a SetInt record holding the value
    now in the buffer to the log and returns its lsn. *)
Definition RecoveryManager_SetInt (txNum : Z) (db : Db) (buff : buffer.Buffer)
           (offset newVal : Z) : outcome (Z * Db) :=
  oldVal ← file.GetInt (buffer.Contents buff) offset;
  block ← block_of buff;
  '(lsn, lm, fm) ← WriteSetIntToLog (logManager db) (fileManager db) txNum block offset oldVal;
  Ok (lsn, with_storage db lm fm).

Definition RecoveryManager_SetString (txNum : Z) (db : Db) (buff : buffer.Buffer)
           (offset : Z) (newVal : string) : outcome (Z * Db) :=
  oldVal ← file.GetString (buffer.Contents buff) offset;
  block ← block_of buff;
  '(lsn, lm, fm) ← WriteSetStringToLog (logManager db) (fileManager db) txNum block offset oldVal;
  Ok (lsn, with_storage db lm fm).

Definition RecoveryManager_SetBool (txNum : Z) (db : Db) (buff : buffer.Buffer)
           (offset : Z) (newVal : bool) : outcome (Z * Db) :=
  oldVal ← file.GetBool (buffer.Contents buff) offset;
  block ← block_of buff;
  '(lsn, lm, fm) ← WriteSetBoolToLog (logManager db) (fileManager db) txNum block offset oldVal;
  Ok (lsn, with_storage db lm fm).

Definition RecoveryManager_SetLong (txNum : Z) (db : Db) (buff : buffer.Buffer)
           (offset newVal : Z) : outcome (Z * Db) :=
  oldVal ← file.GetLong (buffer.Contents buff) offset;
  block ← block_of buff;
  '(lsn, lm, fm) ← WriteSetLongToLog (logManager db) (fileManager db) txNum block offset oldVal;
  Ok (lsn, with_storage db lm fm).

Definition RecoveryManager_SetShort (txNum : Z) (db : Db) (buff : buffer.Buffer)
           (offset newVal : Z) : outcome (Z * Db) :=
  oldVal ← file.GetShort (buffer.Contents buff) offset;
  block ← block_of buff;
  '(lsn, lm, fm) ← WriteSetShortToLog (logManager db) (fileManager db) txNum block offset oldVal;
  Ok (lsn, with_storage db lm fm).

Definition RecoveryManager_SetDate (txNum : Z) (db : Db) (buff : buffer.Buffer)
           (offset newVal : Z) : outcome (Z * Db) :=
  oldVal ← file.GetDate (buffer.Contents buff) offset;
  block ← block_of buff;
  '(lsn, lm, fm) ← WriteSetDateToLog (logManager db) (fileManager db) txNum block offset oldVal;
  Ok (lsn, with_storage db lm fm).

(** SetInt stores an integer at the specified offset of the specified
    block: exclusive lock, update record (unless [logIt] is false),
    then the page and the buffer's stamp. *)
Definition Transaction_SetInt (tx : Transaction) (db : Db) (block : file.BlockId)
           (offset val : Z) (logIt : bool) : outcome (Transaction * Db) :=
  '(tx, db, i, buff) ← lockAndFind tx db block;
  '(lsn, db) ← (if logIt then RecoveryManager_SetInt (txNum tx) db buff offset val
                else Ok (-1, db));
  page ← file.SetInt (buffer.Contents buff) offset val;
  Ok (tx, storeModified tx db i buff page lsn).

Definition Transaction_SetString (tx : Transaction) (db : Db) (block : file.BlockId)
           (offset : Z) (val : string) (logIt : bool) : outcome (Transaction * Db) :=
  '(tx, db, i, buff) ← lockAndFind tx db block;
  '(lsn, db) ← (if logIt then RecoveryManager_SetString (txNum tx) db buff offset val
                else Ok (-1, db));
  page ← file.SetString (buffer.Contents buff) offset val;
  Ok (tx, storeModified tx db i buff page lsn).

Definition Transaction_SetBool (tx : Transaction) (db : Db) (block : file.BlockId)
           (offset : Z) (val : bool) (logIt : bool) : outcome (Transaction * Db) :=
  '(tx, db, i, buff) ← lockAndFind tx db block;
  '(lsn, db) ← (if logIt then RecoveryManager_SetBool (txNum tx) db buff offset val
                else Ok (-1, db));
  page ← file.SetBool (buffer.Contents buff) offset val;
  Ok (tx, storeModified tx db i buff page lsn).

Definition Transaction_SetLong (tx : Transaction) (db : Db) (block : file.BlockId)
           (offset val : Z) (logIt : bool) : outcome (Transaction * Db) :=
  '(tx, db, i, buff) ← lockAndFind tx db block;
  '(lsn, db) ← (if logIt then RecoveryManager_SetLong (txNum tx) db buff offset val
                else Ok (-1, db));
  page ← file.SetLong (buffer.Contents buff) offset val;
  Ok (tx, storeModified tx db i buff page lsn).

Definition Transaction_SetShort (tx : Transaction) (db : Db) (block : file.BlockId)
           (offset val : Z) (logIt : bool) : outcome (Transaction * Db) :=
  '(tx, db, i, buff) ← lockAndFind tx db block;
  '(lsn, db) ← (if logIt then RecoveryManager_SetShort (txNum tx) db buff offset val
                else Ok (-1, db));
  page ← file.SetShort (buffer.Contents buff) offset val;
  Ok (tx, storeModified tx db i buff page lsn).

Definition Transaction_SetDate (tx : Transaction) (db : Db) (block : file.BlockId)
           (offset val : Z) (logIt : bool) : outcome (Transaction * Db) :=
  '(tx, db, i, buff) ← lockAndFind tx db block;
  '(lsn, db) ← (if logIt then RecoveryManager_SetDate (txNum tx) db buff offset val
                else Ok (-1, db));
  page ← file.SetDate (buffer.Contents buff) offset val;
  Ok (tx, storeModified tx db i buff page lsn).

(** What the six [Get..] methods do before reading the page: take the
    shared lock and look the buffer up. *)
Definition lockSharedAndFind (tx : Transaction) (db : Db) (block : file.BlockId)
  : outcome (Transaction * Db * buffer.Buffer) :=
  '(cm, lt) ← concurrency.Manager_SLock (concurrencyManager tx) (lockTable db) block;
  let tx := with_concurrency tx cm in
  let db := with_locks db lt in
  match GetBuffer (myBuffers tx) block with
  | None => Error "buffer for block not found"
  | Some i =>
    match buffer.bufferPool (bufferManager db) !! i with
    | None => Panic
    | Some buff => Ok (tx, db, buff)
    end
  end.

Definition Transaction_GetInt (tx : Transaction) (db : Db) (block : file.BlockId)
           (offset : Z) : outcome (Z * Transaction * Db) :=
  '(tx, db, buff) ← lockSharedAndFind tx db block;
  v ← file.GetInt (buffer.Contents buff) offset;
  Ok (v, tx, db).

Definition Transaction_GetString (tx : Transaction) (db : Db) (block : file.BlockId)
           (offset : Z) : outcome (string * Transaction * Db) :=
  '(tx, db, buff) ← lockSharedAndFind tx db block;
  v ← file.GetString (buffer.Contents buff) offset;
  Ok (v, tx, db).

Definition Transaction_GetBool (tx : Transaction) (db : Db) (block : file.BlockId)
           (offset : Z) : outcome (bool * Transaction * Db) :=
  '(tx, db, buff) ← lockSharedAndFind tx db block;
  v ← file.GetBool (buffer.Contents buff) offset;
  Ok (v, tx, db).

Definition Transaction_GetLong (tx : Transaction) (db : Db) (block : file.BlockId)
           (offset : Z) : outcome (Z * Transaction * Db) :=
  '(tx, db, buff) ← lockSharedAndFind tx db block;
  v ← file.GetLong (buffer.Contents buff) offset;
  Ok (v, tx, db).

Definition Transaction_GetShort (tx : Transaction) (db : Db) (block : file.BlockId)
           (offset : Z) : outcome (Z * Transaction * Db) :=
  '(tx, db, buff) ← lockSharedAndFind tx db block;
  v ← file.GetShort (buffer.Contents buff) offset;
  Ok (v, tx, db).

Definition Transaction_GetDate (tx : Transaction) (db : Db) (block : file.BlockId)
           (offset : Z) : outcome (Z * Transaction * Db) :=
  '(tx, db, buff) ← lockSharedAndFind tx db block;
  v ← file.GetDate (buffer.Contents buff) offset;
  Ok (v, tx, db).

Definition EndOfFile : Z := -1.

(** Size returns the number of blocks in the specified file, after a
    shared lock on the end-of-file marker. *)
Definition Transaction_Size (tx : Transaction) (db : Db) (filename : string)
  : outcome (Z * Transaction * Db) :=
  let dummyBlock := file.NewBlockId filename EndOfFile in
  '(cm, lt) ← concurrency.Manager_SLock (concurrencyManager tx) (lockTable db) dummyBlock;
  let tx := with_concurrency tx cm in
  let db := with_locks db lt in
  '(n, fm) ← file.Length (fileManager db) filename;
  Ok (n, tx, with_storage db (logManager db) fm).

(** Append appends a new block to the end of the specified file, after
    an exclusive lock on the end-of-file marker. *)
Definition Transaction_Append (tx : Transaction) (db : Db) (filename : string)
  : outcome (file.BlockId * Transaction * Db) :=
  let dummyBlock := file.NewBlockId filename EndOfFile in
  '(cm, lt) ← concurrency.Manager_XLock (concurrencyManager tx) (lockTable db) dummyBlock;
  let tx := with_concurrency tx cm in
  let db := with_locks db lt in
  '(block, fm) ← file.Append (fileManager db) filename;
  Ok (block, tx, with_storage db (logManager db) fm).

Definition Transaction_BlockSize (db : Db) : Z := file.BlockSize (fileManager db).
Definition Transaction_AvailableBuffers (db : Db) : Z :=
  buffer.Available (bufferManager db).
Definition TxNum (tx : Transaction) : Z := txNum tx.

End Transactions.

Section Recovery.
Context `{Platform}.

(** Undo.  The update records pin the block, restore the saved value
    without logging, and unpin (the deferred call); the other records
    do nothing. *)
Definition undoWith (tx : Transaction) (db : Db) (block : file.BlockId)
           (restore : Transaction -> Db -> outcome (Transaction * Db))
  : outcome (Transaction * Db) :=
  '(tx, db) ← Pin tx db block;
  '(tx, db) ← restore tx db;
  Ok (Unpin tx db block).

Definition Undo (r : LogRecord) (tx : Transaction) (db : Db)
  : outcome (Transaction * Db) :=
  match r with
  | CheckpointRecord | StartRecord _ | CommitRecord _ | RollbackRecord _ =>
    Ok (tx, db)
  | SetIntRecord _ offset value block =>
    undoWith tx db block
             (fun tx db => Transaction_SetInt tx db block offset value false)
  | SetStringRecord _ offset value block =>
    undoWith tx db block
             (fun tx db => Transaction_SetString tx db block offset value false)
  | SetBoolRecord _ offset value block =>
    undoWith tx db block
             (fun tx db => Transaction_SetBool tx db block offset value false)
  | SetLongRecord _ offset value block =>
    undoWith tx db block
             (fun tx db => Transaction_SetLong tx db block offset value false)
  | SetShortRecord _ offset value block =>
    undoWith tx db block
             (fun tx db => Transaction_SetShort tx db block offset value false)
  | SetDateRecord _ offset value block =>
    undoWith tx db block
             (fun tx db => Transaction_SetDate tx db block offset value false)
  end.

(** *** RecoveryManager

    The recovery manager belongs to its transaction; its methods take
    the transaction.  The log iterator is represented by what it
    delivers: the results of the successive calls of [Next] made while
    [HasNext] holds, each the bytes of a record or the error of a
    failed read ([iterator] is the result of [logManager.Iterator()]
    itself).  Device failures, which the file model leaves out, enter
    here. *)

Definition contains (slice : list Z) (element : Z) : bool :=
  existsb (fun v => bool_decide (v = element)) slice.

Fixpoint doRecover_loop (finishedTransactions : list Z)
         (iter : list (outcome (list byte))) (tx : Transaction) (db : Db)
  : outcome (Transaction * Db) :=
  match iter with
  | [] => Ok (tx, db)
  | next :: iter =>
    match next with
    | Error _ => Ok (tx, db)             (* [if err != nil { return nil }] *)
    | Panic => Panic
    | Ok bytes =>
      logRecord ← CreateLogRecord bytes;
      if bool_decide (Op logRecord = Checkpoint) then Ok (tx, db)
      else if bool_decide (Op logRecord = Commit)
              || bool_decide (Op logRecord = Rollback)
      then doRecover_loop (finishedTransactions ++ [TxNumber logRecord]) iter tx db
      else if negb (contains finishedTransactions (TxNumber logRecord))
      then '(tx, db) ← Undo logRecord tx db;
           doRecover_loop finishedTransactions iter tx db
      else doRecover_loop finishedTransactions iter tx db
    end
  end.

Definition doRecover (tx : Transaction) (db : Db)
           (iterator : outcome (list (outcome (list byte))))
  : outcome (Transaction * Db) :=
  iter ← iterator;
  doRecover_loop [] iter tx db.

Fixpoint doRollback_loop (iter : list (outcome (list byte)))
         (tx : Transaction) (db : Db) : outcome (Transaction * Db) :=
  match iter with
  | [] => Ok (tx, db)
  | next :: iter =>
    bytes ← next;                         (* [if err != nil { return err }] *)
    logRecord ← CreateLogRecord bytes;
    if bool_decide (TxNumber logRecord = txNum tx) then
      if bool_decide (Op logRecord = Start) then Ok (tx, db)
      else '(tx, db) ← Undo logRecord tx db;
           doRollback_loop iter tx db
    else doRollback_loop iter tx db
  end.

Definition doRollback (tx : Transaction) (db : Db)
           (iterator : outcome (list (outcome (list byte))))
  : outcome (Transaction * Db) :=
  iter ← iterator;
  doRollback_loop iter tx db.

Definition Db_FlushAll (db : Db) (txNum : Z) : outcome Db :=
  '(bm, lm, fm) ← buffer.FlushAll (bufferManager db) txNum (logManager db) (fileManager db);
  Ok (with_buffers (with_storage db lm fm) bm).

(** The tail of Commit, Rollback and Recover: append the record, then
    flush the log up to its LSN. *)
Definition writeAndFlush (db : Db)
           (write : log.Manager -> file.Manager -> outcome (Z * log.Manager * file.Manager))
  : outcome Db :=
  '(lsn, lm, fm) ← write (logManager db) (fileManager db);
  '(lm, fm) ← log.Flush lm fm lsn;
  Ok (with_storage db lm fm).

Definition RecoveryManager_Commit (tx : Transaction) (db : Db) : outcome Db :=
  db ← Db_FlushAll db (txNum tx);
  writeAndFlush db (fun lm fm => WriteCommitToLog lm fm (txNum tx)).

Definition RecoveryManager_Rollback (tx : Transaction) (db : Db)
           (iterator : outcome (list (outcome (list byte))))
  : outcome (Transaction * Db) :=
  '(tx, db) ← doRollback tx db iterator;
  db ← Db_FlushAll db (txNum tx);
  db ← writeAndFlush db (fun lm fm => WriteRollbackToLog lm fm (txNum tx));
  Ok (tx, db).

(** Recover recovers uncompleted transactions from the log, and then
    writes a quiescent checkpoint record to the log, and flushes it. *)
Definition RecoveryManager_Recover (tx : Transaction) (db : Db)
           (iterator : outcome (list (outcome (list byte))))
  : outcome (Transaction * Db) :=
  '(tx, db) ← doRecover tx db iterator;
  db ← Db_FlushAll db (txNum tx);
  db ← writeAndFlush db (fun lm fm => WriteCheckpointToLog lm fm);
  Ok (tx, db).

Definition Transaction_Recover (tx : Transaction) (db : Db)
           (iterator : outcome (list (outcome (list byte))))
  : outcome (Transaction * Db) :=
  db ← Db_FlushAll db (txNum tx);
  RecoveryManager_Recover tx db iterator.

(** The end of Commit and Rollback: release all the locks and unpin
    any pinned buffers. *)
Definition releaseAll (tx : Transaction) (db : Db) : Transaction * Db :=
  let '(cm, lt) := concurrency.Manager_Release (concurrencyManager tx) (lockTable db) in
  let '(bl, bm) := BufferList_UnpinAll (myBuffers tx) (bufferManager db) in
  (mkTransaction (txNum tx) bl cm, with_buffers (with_locks db lt) bm).

Definition Transaction_Commit (tx : Transaction) (db : Db)
  : outcome (Transaction * Db) :=
  db ← RecoveryManager_Commit tx db;
  Ok (releaseAll tx db).

Definition Transaction_Rollback (tx : Transaction) (db : Db)
           (iterator : outcome (list (outcome (list byte))))
  : outcome (Transaction * Db) :=
  '(tx, db) ← RecoveryManager_Rollback tx db iterator;
  Ok (releaseAll tx db).

(** *** The scan of doRecover over decoded records: a set of the
    transaction numbers read from the Commit and Rollback records met
    so far; each update record whose transaction number is not in the
    set is to be undone; the scan stops at a checkpoint or at the end
    of the log. *)

Definition is_update (r : LogRecord) : bool :=
  match Op r with
  | SetInt | SetString | SetBool | SetLong | SetShort | SetDate => true
  | Checkpoint | Start | Commit | Rollback => false
  end.

Fixpoint records_to_undo (finished : gset Z) (records : list LogRecord)
  : list LogRecord :=
  match records with
  | [] => []
  | r :: records =>
    match Op r with
    | Checkpoint => []
    | Commit | Rollback => records_to_undo ({[TxNumber r]} ∪ finished) records
    | _ =>
      if is_update r && negb (bool_decide (TxNumber r ∈ finished))
      then r :: records_to_undo finished records
      else records_to_undo finished records
    end
  end.

Fixpoint undo_each (rs : list LogRecord) (tx : Transaction) (db : Db)
  : outcome (Transaction * Db) :=
  match rs with
  | [] => Ok (tx, db)
  | r :: rs => '(tx, db) ← Undo r tx db; undo_each rs tx db
  end.

End Recovery.

End tx.

(** ** Concrete inputs used by the examples below *)

(** A file manager on a freshly created, empty directory. *)
Definition fresh_fileManager (blockSize : Z) : file.Manager :=
  file.mkManager ∅ blockSize true ∅ 0 0.

(** The first record of [TestLogMgr_AppendAndIteratorConsistency]. *)
Definition log_record_1 : list byte := String.list_byte_of_string "Log record 1".

(** A log manager on a new log file, after appending the records in order. *)
Fixpoint append_all `{Platform} (m : log.Manager) (fm : file.Manager)
         (records : list (list byte)) : outcome (log.Manager * file.Manager) :=
  match records with
  | [] => Ok (m, fm)
  | r :: records =>
    '(_, m, fm) ← log.Append m fm r;
    append_all m fm records
  end.

Definition new_log_with `{Platform} (blockSize : Z) (records : list (list byte))
  : outcome (log.Manager * file.Manager) :=
  '(m, fm) ← log.NewManager (fresh_fileManager blockSize) "testlog";
  append_all m fm records.

(** What an iterator delivers: [HasNext]/[Next] until [HasNext] is false
    or a call fails, for at most [fuel] calls.  The last component tells
    whether the iterator was exhausted. *)
Fixpoint drain `{Platform} (fuel : nat) (it : log.Iterator) (fm : file.Manager)
  : list (outcome (list byte)) * bool :=
  match fuel with
  | O => ([], negb (log.HasNext it fm))
  | S fuel =>
    if log.HasNext it fm then
      match log.Next it fm with
      | Ok (record, it, fm) =>
        let '(rest, done) := drain fuel it fm in (Ok record :: rest, done)
      | Error e => ([Error e], false)
      | Panic => ([Panic], false)
      end
    else ([], true)
  end.

(** [TestLogMgr_AppendAndIteratorConsistency]: on a new log with block
    size 4096, append "Log record 1" to "Log record 100", then read
    the log through an iterator. *)
Definition test_records : list (list byte) :=
  map (fun i : nat => String.list_byte_of_string ("Log record " +:+ pretty i))
      (seq 1 100).

Definition log_test `{Platform} : outcome (list (outcome (list byte)) * bool) :=
  '(m, fm) ← new_log_with 4096 test_records;
  '(it, _, fm) ← log.Iterator_ m fm;
  Ok (drain 101 it fm).

(** A database as the boot protocol builds it, with block size 400, a
    data file of one block and three buffers; the recovery transaction
    is the first transaction. *)
Definition empty_db : tx.Db :=
  tx.mkDb (fresh_fileManager 0)
          (log.mkManager "" (file.mkPage []) (file.mkBlockId "" 0) 0 0)
          (buffer.mkManager [] 0) concurrency.NewLockTable 0.

Definition boot `{Platform} : outcome (tx.Transaction * tx.Db) :=
  '(lm, fm) ← log.NewManager (fresh_fileManager 400) "logfile";
  '(_, fm) ← file.Append fm "data";
  bm ← buffer.NewManager fm 3;
  Ok (tx.NewTransaction (tx.mkDb fm lm bm concurrency.NewLockTable 0)).

Definition booted `{Platform} : tx.Transaction * tx.Db :=
  match boot with
  | Ok r => r
  | _ => (tx.mkTransaction 0 tx.NewBufferList concurrency.NewManager, empty_db)
  end.

Definition data0 : file.BlockId := file.mkBlockId "data" 0.

(** What an iterator delivers on a log that holds, oldest first: an
    update of transaction 4, a checkpoint, an update of transaction 3,
    the start of transaction 2, an update of transaction 1, the commit of
    transaction 1 and an update of transaction 2. *)
Definition demo_iter `{Platform} : list (outcome (list byte)) :=
  [ tx.SetIntBytes 2 data0 8 7; tx.CommitBytes 1; tx.SetIntBytes 1 data0 16 9;
    tx.StartBytes 2; tx.SetIntBytes 3 data0 24 11; tx.CheckpointBytes;
    tx.SetIntBytes 4 data0 0 5 ].

Definition demo_records : list tx.LogRecord :=
  [ tx.SetIntRecord 2 8 7 data0; tx.CommitRecord 1; tx.SetIntRecord 1 16 9 data0;
    tx.StartRecord 2; tx.SetIntRecord 3 24 11 data0; tx.CheckpointRecord;
    tx.SetIntRecord 4 0 5 data0 ].

(** What the log iterator of a database delivers at its first step. *)
Definition log_of `{Platform} (db : tx.Db)
  : outcome (list (outcome (list byte)) * bool) :=
  '(it, _, fm) ← log.Iterator_ (tx.logManager db) (tx.fileManager db);
  Ok (drain 1 it fm).

(** What an iterator delivers on a log that holds, oldest first: an
    update of transaction 3, which never finished, an update of
    transaction 5 and the Rollback record of transaction 5. *)
Definition rolled_back_iter `{Platform} : list (outcome (list byte)) :=
  [ tx.RollbackBytes 5; tx.SetIntBytes 5 data0 8 7; tx.SetIntBytes 3 data0 24 11 ].

(** ** Notions used in the statements *)

(** The [n] bytes of [s] from [off] on. *)
Definition window {A} (s : list A) (off n : nat) : list A := take n (drop off s).

(** The records an iterator delivers, when every read and every decoding
    succeeds. *)
Definition delivers `{Platform} (iter : list (outcome (list byte)))
           (records : list tx.LogRecord) : Prop :=
  Forall2 (fun next r => exists bytes, next = Ok bytes /\ tx.CreateLogRecord bytes = Ok r)
          iter records.

(** One successful call on the lock table.  The mutex serialises the
    calls; a call that waited succeeds on the table as it finds it at its
    last wake-up, which is the call with no wake-up left on that table
    (lemmas [SLock_granted_at] and [XLock_granted_at]). *)
Inductive granted `{Platform} : concurrency.LockTable -> concurrency.LockTable -> Prop :=
| granted_SLock lt blk lt' :
    concurrency.SLock lt blk [] = Ok lt' -> granted lt lt'
| granted_XLock lt blk lt' :
    concurrency.XLock lt blk [] = Ok lt' -> granted lt lt'
| granted_Unlock lt blk :
    granted lt (concurrency.Unlock lt blk).

(** The tables reachable from a new one by [n] successful calls. *)
Inductive reachable `{Platform} : nat -> concurrency.LockTable -> Prop :=
| reachable_new : reachable 0 concurrency.NewLockTable
| reachable_call n lt lt' : reachable n lt -> granted lt lt' -> reachable (S n) lt'.

(** An entry of the locks map as the specification wants it: absent,
    -1, or a positive number of shared holders. *)
Definition entry_ok (v : option Z) : Prop :=
  v = None \/ v = Some (-1) \/ exists n, v = Some n /\ 0 < n.

(** After [n] calls a counter is -1 or between 1 and [n]. *)
Definition counters_within (n : Z) (lt : concurrency.LockTable) : Prop :=
  forall blk v, concurrency.locks lt !! blk = Some v -> v = -1 \/ 1 <= v <= n.

(** The successive calls of [SetModified] on one frame, each with its
    transaction and LSN arguments, and the LSNs of those that were logged
    (an unlogged write passes a negative LSN). *)
Definition stamp_all `{Platform} (b : buffer.Buffer) (calls : list (Z * Z))
  : buffer.Buffer :=
  fold_left (fun b c => buffer.SetModified b c.1 c.2) calls b.

Definition logged_lsns (calls : list (Z * Z)) : list Z :=
  List.filter (fun l => bool_decide (l >= 0)) (map snd calls).

(** Two files for the file manager: one of a whole block, one that ends
    in the middle of its second block; and a page. *)
Definition fm_whole : file.Manager :=
  file.mkManager {["data" := replicate 400 Byte.x00]} 400 false ∅ 0 0.
Definition page_of_ones : file.Page := file.mkPage (replicate 400 Byte.x01).
Definition data1 : file.BlockId := file.mkBlockId "data" 1.

(** The records a log page holds from position [pos] to its end, newest
    first, in the layout with 4-byte lengths: a big-endian length, then
    the payload. *)
Fixpoint holds_records (s : list byte) (pos : Z) (rs : list (list byte)) : Prop :=
  match rs with
  | [] => pos = len s
  | r :: rs' =>
    0 <= pos /\ pos + 4 + len r <= len s
    /\ window s (Z.to_nat pos) 4 = be_encode 4 (len r)
    /\ window s (Z.to_nat (pos + 4)) (length r) = r
    /\ holds_records s (pos + 4 + len r) rs'
  end.

(** A log block: the boundary in its first bytes, and the records from
    the boundary to the end. *)
Definition log_block `{Platform} (B : Z) (s : list byte) (rs : list (list byte)) : Prop :=
  len s = B
  /\ exists b, file.GetInt (file.mkPage s) 0 = Ok b /\ 4 <= b /\ holds_records s b rs.

(** Block [j] of a file of blocks of [B] bytes. *)
Definition block_at (c : list byte) (B j : Z) : list byte :=
  window c (Z.to_nat (j * B)) (Z.to_nat B).

(** The blocks of the log file that are behind the current one: each
    holds its records, and at least one. *)
Definition disk_blocks `{Platform} (B : Z) (c : list byte)
           (blocks : list (list (list byte))) : Prop :=
  forall j rs, blocks !! j = Some rs ->
               log_block B (block_at c B (Z.of_nat j)) rs /\ rs <> [].

(** The state of a log manager whose earlier blocks hold [blocks]
    (oldest block first, newest record first inside a block) and whose
    page holds [cur]. *)
Definition log_inv `{Platform} (B : Z) (m : log.Manager) (fm : file.Manager)
           (blocks : list (list (list byte))) (cur : list (list byte)) : Prop :=
  file.blockSize fm = B
  /\ log.currentBlock m = file.mkBlockId (log.logFile m) (Z.of_nat (length blocks))
  /\ len (file.file_contents fm (log.logFile m)) = (Z.of_nat (length blocks) + 1) * B
  /\ disk_blocks B (file.file_contents fm (log.logFile m)) blocks
  /\ log_block B (file.buffer (log.logPage m)) cur.

(** The order in which an iterator delivers the records. *)
Definition iter_order (blocks : list (list (list byte))) (cur : list (list byte))
  : list (list byte) :=
  cur ++ concat (rev blocks).

(** An iterator inside block [length blocks] of the log file [f], with
    the records [rest] of that block still to deliver; [blocks] are the
    blocks before it. *)
Definition it_inv `{Platform} (B : Z) (f : string) (it : log.Iterator) (fm : file.Manager)
           (rest : list (list byte)) (blocks : list (list (list byte))) : Prop :=
  file.blockSize fm = B
  /\ log.block it = file.mkBlockId f (Z.of_nat (length blocks))
  /\ len (file.buffer (log.page it)) = B
  /\ 0 <= log.currentPosition it
  /\ holds_records (file.buffer (log.page it)) (log.currentPosition it) rest
  /\ (Z.of_nat (length blocks) + 1) * B <= len (file.file_contents fm f)
  /\ disk_blocks B (file.file_contents fm f) blocks.

(** The page after [SetBytes] at [pos] and [SetInt(0, pos)]. *)
Definition placed (s : list byte) (pos : Z) (r : list byte) : list byte :=
  overwrite
    (overwrite (overwrite s (Z.to_nat pos) (be_encode 4 (len r)))
               (Z.to_nat (pos + 4)) r)
    0 (be_encode 4 pos).

(** The bytes [SetInt] writes for [v]: [IntSize] bytes, big-endian. *)
Definition int_bytes `{Platform} (v : Z) : list byte :=
  be_encode (Z.to_nat IntSize) (v mod 2 ^ int_bits).


(** A page of sixteen zero bytes, and five bytes to store in it. *)
Definition page16 : file.Page := file.mkPage (replicate 16 Byte.x00).
Definition hello : list byte := String.list_byte_of_string "hello".

Definition page_of_zeros : file.Page := file.mkPage (replicate 400 Byte.x00).

(** [s] holds the bytes [bs] at offset [off]. *)
Definition field (s : list byte) (off : Z) (bs : list byte) : Prop :=
  0 <= off /\ off + len bs <= len s /\ window s (Z.to_nat off) (length bs) = bs.

(** The fields every update record starts with. *)
Definition header_fields `{Platform} (op : tx.LogRecordType) (txNum : Z)
           (block : file.BlockId) (offset : Z) (s : list byte) : Prop :=
  let L := tx.strlen (file.File block) in
  field s 0 (int_bytes (tx.code op))
  /\ field s IntSize (int_bytes txNum)
  /\ field s (2 * IntSize) (int_bytes L)
  /\ field s (3 * IntSize) (String.list_byte_of_string (file.File block))
  /\ field s (3 * IntSize + 4 * L) (int_bytes (file.BlockNumber block))
  /\ field s (4 * IntSize + 4 * L) (int_bytes offset).

(** Where the value of an update record starts. *)
Definition valuePos_of `{Platform} (block : file.BlockId) : Z :=
  5 * IntSize + 4 * tx.strlen (file.File block).

(** The number of buffers of a pool that are not pinned. *)
Definition unpinned_count (pool : list buffer.Buffer) : Z :=
  Z.of_nat (length (List.filter (fun b => negb (buffer.isPinned b)) pool)).

(** A pool whose count of available buffers is right, with no pin
    count below zero or above [n]. *)
Definition pool_within (n : Z) (m : buffer.Manager) : Prop :=
  buffer.numAvailable m = unpinned_count (buffer.bufferPool m)
  /\ Forall (fun b => 0 <= buffer.pins b <= n) (buffer.bufferPool m).
Definition ind (b : bool) : Z := if b then 1 else 0.
(** What [FlushAll] leaves of a buffer. *)
Definition flushed_for (txn : Z) (b : buffer.Buffer) : buffer.Buffer :=
  if bool_decide (buffer.txnNum b = txn /\ txn >= 0)
  then buffer.mkBuffer (buffer.contents b) (buffer.block b) (buffer.pins b) (-1) (buffer.lsn b)
  else b.


(** The first transaction of a new database after it has pinned block 0
    of the data file and stored 7 at offset 8, with a log record; and
    the buffers, the log and the files after its buffers were flushed. *)
Definition wrote `{Platform} : tx.Transaction * tx.Db :=
  match (r ← tx.Pin booted.1 booted.2 data0;
         tx.Transaction_SetInt r.1 r.2 data0 8 7 true) with
  | Ok r => r
  | _ => booted
  end.

Definition wrote_flushed `{Platform} : buffer.Manager * log.Manager * file.Manager :=
  match buffer.FlushAll (tx.bufferManager wrote.2) (tx.txNum wrote.1)
                        (tx.logManager wrote.2) (tx.fileManager wrote.2) with
  | Ok r => r
  | _ => (tx.bufferManager wrote.2, tx.logManager wrote.2, tx.fileManager wrote.2)
  end.

(** The entry of a block after [Unlock], from its entry before. *)
Definition unlocked_entry `{Platform} (v : option Z) : option Z :=
  if bool_decide (default 0 v > 1) then Some (int_sub (default 0 v) 1) else None.

(** The first transaction of a new database after it has pinned block 0
    of the data file twice. *)
Definition pinned_twice `{Platform} : tx.Transaction * tx.Db :=
  match (r ← tx.Pin booted.1 booted.2 data0; tx.Pin r.1 r.2 data0) with
  | Ok r => r
  | _ => booted
  end.

(** * Properties *)

(** Reduces a bind whose first computation has succeeded. *)
Ltac ok_step := cbn [wrap_error mbind outcome_mbind outcome_bind].

(** ** Bytes and big-endian integers *)

Lemma Z_of_byte_range b : 0 <= Z_of_byte b < 256.
Proof.
  unfold Z_of_byte. pose proof (Byte.to_N_bounded b). lia.
Qed.

Lemma Z_of_byte_of_Z z : Z_of_byte (byte_of_Z z) = z mod 256.
Proof.
  unfold Z_of_byte, byte_of_Z.
  pose proof (Z.mod_pos_bound z 256 ltac:(lia)) as Hb.
  destruct (Byte.of_N (Z.to_N (z mod 256))) as [b|] eqn:E.
  - apply Byte.to_of_N in E. rewrite E. lia.
  - apply Byte.of_N_None_iff in E. lia.
Qed.

Lemma byte_of_Z_of_byte b : byte_of_Z (Z_of_byte b) = b.
Proof.
  unfold Z_of_byte, byte_of_Z. pose proof (Byte.to_N_bounded b).
  rewrite Z.mod_small by lia. rewrite N2Z.id, Byte.of_to_N. reflexivity.
Qed.

Lemma length_be_encode n v : length (be_encode n v) = n.
Proof. induction n; simpl; congruence. Qed.

Lemma be_decode_acc bs acc :
  fold_left (fun acc b => 256 * acc + Z_of_byte b) bs acc
  = acc * 256 ^ len bs + be_decode bs.
Proof.
  unfold be_decode. revert acc. induction bs as [|b bs IH]; intros acc.
  - simpl. change (len []) with 0. lia.
  - simpl. rewrite IH. rewrite (IH (256 * 0 + Z_of_byte b)).
    unfold len. simpl length. rewrite Nat2Z.inj_succ, Z.pow_succ_r by lia. lia.
Qed.

Lemma be_decode_cons b bs :
  be_decode (b :: bs) = Z_of_byte b * 256 ^ len bs + be_decode bs.
Proof. unfold be_decode at 1. simpl. rewrite be_decode_acc. lia. Qed.

Lemma be_decode_range bs : 0 <= be_decode bs < 256 ^ len bs.
Proof.
  induction bs as [|b bs IH].
  - unfold be_decode. simpl. change (len []) with 0. lia.
  - rewrite be_decode_cons. pose proof (Z_of_byte_range b).
    unfold len in *. simpl length. rewrite Nat2Z.inj_succ, Z.pow_succ_r by lia. nia.
Qed.

Lemma be_decode_encode n v : be_decode (be_encode n v) = v mod 256 ^ Z.of_nat n.
Proof.
  induction n as [|n IH].
  - simpl. rewrite Z.mod_1_r. reflexivity.
  - cbn [be_encode]. rewrite be_decode_cons, IH, Z_of_byte_of_Z.
    unfold len. rewrite length_be_encode.
    rewrite Nat2Z.inj_succ, Z.pow_succ_r by lia.
    rewrite Z.shiftr_div_pow2 by lia.
    replace (2 ^ (8 * Z.of_nat n)) with (256 ^ Z.of_nat n)
      by (change 256 with (2 ^ 8); rewrite <- Z.pow_mul_r by lia; reflexivity).
    set (P := 256 ^ Z.of_nat n). assert (0 < P) by (apply Z.pow_pos_nonneg; lia).
    rewrite (Z.mul_comm 256 P). rewrite Z.rem_mul_r by lia. lia.
Qed.

(** ** Machine integers *)

Section MachineIntegers.
Context `{Platform}.

Lemma int_bits_cases : int_bits = 32 \/ int_bits = 64.
Proof. unfold int_bits. destruct is_386_or_arm; auto. Qed.

Lemma MaxInt_cases : (MaxInt = 2147483647 /\ MinInt = -2147483648)
                     \/ (MaxInt = 9223372036854775807 /\ MinInt = -9223372036854775808).
Proof.
  unfold MaxInt, MinInt. destruct int_bits_cases as [-> | ->]; [left|right];
    split; reflexivity.
Qed.

Lemma wrap_int_small z : MinInt <= z <= MaxInt -> wrap_int z = z.
Proof.
  unfold wrap_int, wrap_signed, MinInt, MaxInt.
  destruct int_bits_cases as [-> | ->]; intros Hz;
    change (2 ^ (32 - 1)) with 2147483648 in *; change (2 ^ 32) with 4294967296;
    change (2 ^ (64 - 1)) with 9223372036854775808 in *;
    change (2 ^ 64) with 18446744073709551616;
    rewrite Z.mod_small; lia.
Qed.

Lemma wrap_int_range z : MinInt <= wrap_int z <= MaxInt.
Proof.
  unfold wrap_int, wrap_signed, MinInt, MaxInt.
  destruct int_bits_cases as [-> | ->];
    change (2 ^ (32 - 1)) with 2147483648 in *; change (2 ^ 32) with 4294967296;
    change (2 ^ (64 - 1)) with 9223372036854775808 in *;
    change (2 ^ 64) with 18446744073709551616.
  - pose proof (Z.mod_pos_bound (z + 2147483648) 4294967296). lia.
  - pose proof (Z.mod_pos_bound (z + 9223372036854775808) 18446744073709551616). lia.
Qed.

Lemma MaxInt_pos : 2147483647 <= MaxInt.
Proof. destruct MaxInt_cases as [[-> _]|[-> _]]; lia. Qed.

Lemma MinInt_neg : MinInt <= -2147483648.
Proof. destruct MaxInt_cases as [[_ ->]|[_ ->]]; lia. Qed.

End MachineIntegers.

(** ** Slices *)

Lemma len_app {A} (l1 l2 : list A) : len (l1 ++ l2) = len l1 + len l2.
Proof. unfold len. rewrite length_app. lia. Qed.

Lemma len_take {A} (l : list A) n : len (take n l) = Z.min (Z.of_nat n) (len l).
Proof. unfold len. rewrite length_take. lia. Qed.

Lemma len_nonneg {A} (l : list A) : 0 <= len l.
Proof. unfold len. lia. Qed.

Lemma len_drop {A} (l : list A) n : len (drop n l) = Z.max 0 (len l - Z.of_nat n).
Proof. unfold len. rewrite length_drop. lia. Qed.

Lemma len_replicate {A} n (x : A) : len (replicate n x) = Z.of_nat n.
Proof. unfold len. rewrite length_replicate. reflexivity. Qed.

Lemma slice_ok {A} (s : list A) low high :
  0 <= low -> low <= high -> high <= len s ->
  slice s low high = Ok (take (Z.to_nat (high - low)) (drop (Z.to_nat low) s)).
Proof. intros. unfold slice. rewrite bool_decide_eq_true_2 by lia. reflexivity. Qed.

Lemma slice_from_ok {A} (s : list A) low :
  0 <= low -> low <= len s -> slice_from s low = Ok (drop (Z.to_nat low) s).
Proof.
  intros. unfold slice_from. rewrite slice_ok by lia. f_equal.
  apply take_ge. rewrite length_drop. unfold len. lia.
Qed.

Lemma length_overwrite {A} (s : list A) off src :
  (off + length src <= length s)%nat -> length (overwrite s off src) = length s.
Proof.
  intros. unfold overwrite. rewrite !length_app, length_take, length_drop. lia.
Qed.

Lemma window_overwrite_same {A} (s : list A) off src n :
  n = length src -> (off + length src <= length s)%nat ->
  window (overwrite s off src) off n = src.
Proof.
  intros -> ?. unfold window, overwrite.
  rewrite drop_app_length' by (rewrite length_take; lia).
  rewrite take_app_length. reflexivity.
Qed.

Lemma drop_overwrite_after {A} (s : list A) off src j :
  (off + length src <= j)%nat -> (off + length src <= length s)%nat ->
  drop j (overwrite s off src) = drop j s.
Proof.
  intros Hj Hs. unfold overwrite.
  rewrite drop_app_ge by (rewrite length_take; lia). rewrite length_take.
  rewrite drop_app_ge by lia. rewrite drop_drop. f_equal. lia.
Qed.

Lemma take_overwrite_before {A} (s : list A) off src j :
  (j <= off)%nat -> (off <= length s)%nat ->
  take j (overwrite s off src) = take j s.
Proof.
  intros Hj Hs. unfold overwrite.
  rewrite take_app_le by (rewrite length_take; lia).
  rewrite take_take. f_equal. lia.
Qed.

Lemma window_overwrite_after {A} (s : list A) off src j n :
  (off + length src <= j)%nat -> (off + length src <= length s)%nat ->
  window (overwrite s off src) j n = window s j n.
Proof. intros. unfold window. rewrite drop_overwrite_after by lia. reflexivity. Qed.

Lemma window_overwrite_before {A} (s : list A) off src j n :
  (j + n <= off)%nat -> (off <= length s)%nat ->
  window (overwrite s off src) j n = window s j n.
Proof.
  intros Hj Hs. unfold window.
  rewrite !take_drop_commute.
  rewrite take_overwrite_before by lia. reflexivity.
Qed.

(** ** Pages on a platform with 4-byte ints *)

Section Pages32.
Context `{Platform} (H32 : is_386_or_arm = true).

Lemma IntSize_32 : IntSize = 4.
Proof. unfold IntSize. rewrite H32. reflexivity. Qed.

Lemma int_bits_32 : int_bits = 32.
Proof. unfold int_bits. rewrite H32. reflexivity. Qed.

Lemma MaxInt_32 : MaxInt = 2147483647.
Proof. unfold MaxInt. rewrite int_bits_32. reflexivity. Qed.

Lemma MinInt_32 : MinInt = -2147483648.
Proof. unfold MinInt. rewrite int_bits_32. reflexivity. Qed.

Lemma wrap_small_32 z : -2147483648 <= z <= 2147483647 -> wrap_int z = z.
Proof. intros. apply wrap_int_small. rewrite MaxInt_32, MinInt_32. lia. Qed.

Lemma int_add_32 x y : -2147483648 <= x + y <= 2147483647 -> int_add x y = x + y.
Proof. apply wrap_small_32. Qed.

Lemma int_sub_32 x y : -2147483648 <= x - y <= 2147483647 -> int_sub x y = x - y.
Proof. apply wrap_small_32. Qed.

Lemma GetInt_32 p off :
  0 <= off -> off + 4 <= len (file.buffer p) ->
  file.GetInt p off
  = Ok (wrap_int (be_decode (window (file.buffer p) (Z.to_nat off) 4))).
Proof.
  intros H0 H4. unfold file.GetInt. rewrite slice_from_ok by lia.
  rewrite H32. change (Ok ?x ≫= ?f) with (f x). cbv beta.
  unfold Uint. rewrite bool_decide_eq_true_2; [reflexivity|].
  rewrite len_drop. lia.
Qed.

Lemma SetInt_32 p off v :
  0 <= off -> off + 4 <= len (file.buffer p) ->
  file.SetInt p off v
  = Ok (file.mkPage (overwrite (file.buffer p) (Z.to_nat off) (be_encode 4 (v mod 2 ^ 32)))).
Proof.
  intros H0 H4. unfold file.SetInt. rewrite H32. unfold PutUint.
  rewrite slice_from_ok by lia. change (Ok ?x ≫= ?f) with (f x). cbv beta.
  rewrite bool_decide_eq_true_2; [reflexivity|]. rewrite len_drop. lia.
Qed.

Lemma decode_encode_32 v :
  -2147483648 <= v <= 2147483647 ->
  wrap_int (be_decode (be_encode 4 (v mod 2 ^ 32))) = v.
Proof.
  intros Hv. rewrite be_decode_encode. change (256 ^ Z.of_nat 4) with (2 ^ 32).
  rewrite Z.mod_mod by lia. unfold wrap_int, wrap_signed. rewrite int_bits_32.
  change (2 ^ (32 - 1)) with 2147483648. change (2 ^ 32) with 4294967296.
  rewrite Zplus_mod_idemp_l. rewrite Z.mod_small; lia.
Qed.

(** What a page holds after [SetInt]. *)
Lemma GetInt_SetInt_same p off v p' :
  0 <= off -> off + 4 <= len (file.buffer p) ->
  -2147483648 <= v <= 2147483647 ->
  file.SetInt p off v = Ok p' ->
  file.GetInt p' off = Ok v /\ len (file.buffer p') = len (file.buffer p).
Proof.
  intros H0 H4 Hv Hs. rewrite SetInt_32 in Hs by assumption.
  assert (Hp : p' = file.mkPage (overwrite (file.buffer p) (Z.to_nat off)
                                           (be_encode 4 (v mod 2 ^ 32))))
    by congruence.
  clear Hs. subst p'.
  assert (Hlen : length (overwrite (file.buffer p) (Z.to_nat off) (be_encode 4 (v mod 2 ^ 32)))
                 = length (file.buffer p)).
  { apply length_overwrite. rewrite length_be_encode. unfold len in H4. lia. }
  split; [|unfold len; cbn [file.buffer]; rewrite Hlen; reflexivity].
  rewrite GetInt_32 by (cbn [file.buffer]; unfold len in *; try rewrite Hlen; lia).
  cbn [file.buffer].
  rewrite window_overwrite_same
    by (rewrite ?length_be_encode; unfold len in H4; lia).
  rewrite decode_encode_32 by assumption. reflexivity.
Qed.

End Pages32.

(** ** The file manager *)

Section FileManagerProperties.
Context `{Platform}.

Lemma wrap_int64_small z :
  - 2 ^ 63 <= z < 2 ^ 63 -> wrap_int64 z = z.
Proof.
  intros Hz. unfold wrap_int64, wrap_signed.
  change (2 ^ (64 - 1)) with (2 ^ 63). change (2 ^ 64) with (2 * 2 ^ 63).
  rewrite Z.mod_small; lia.
Qed.

Lemma blockSize_getFile m f : file.blockSize (file.getFile m f) = file.blockSize m.
Proof. unfold file.getFile. case_bool_decide; reflexivity. Qed.

Lemma file_contents_getFile m f :
  file.file_contents (file.getFile m f) f = file.file_contents m f.
Proof.
  unfold file.getFile. case_bool_decide; [reflexivity|].
  unfold file.file_contents at 1. simpl. rewrite lookup_insert_eq. reflexivity.
Qed.





End FileManagerProperties.


Section FileManager386.
#[local] Existing Instance goarch_386.


End FileManager386.

(** ** The log where ints have 4 bytes *)

Lemma window_suffix {A} (s s' : list A) q j n :
  drop q s = drop q s' -> (q <= j)%nat -> window s j n = window s' j n.
Proof.
  intros Hd Hj. unfold window.
  replace j with (q + (j - q))%nat by lia.
  rewrite <- !drop_drop, Hd. reflexivity.
Qed.

Lemma holds_records_suffix s s' q rs :
  len s = len s' -> drop q s = drop q s' ->
  forall pos, Z.of_nat q <= pos -> holds_records s pos rs -> holds_records s' pos rs.
Proof.
  intros Hlen Hd. induction rs as [|r rs IH]; intros pos Hq Hh; simpl in *.
  - congruence.
  - destruct Hh as (H0 & Hfit & Hk & Hr & Hrest).
    rewrite <- Hlen.
    rewrite <- (window_suffix s s' q) by (assumption || lia).
    rewrite <- (window_suffix s s' q) by (assumption || lia).
    repeat split; try assumption. apply IH; [unfold len; lia | assumption].
Qed.

Lemma holds_records_bounds s pos rs :
  holds_records s pos rs -> 0 <= pos -> pos <= len s.
Proof.
  destruct rs as [|r rs]; simpl.
  - intros ->. lia.
  - intros (H0 & Hfit & _) _. unfold len in *. lia.
Qed.

Lemma copy_at_whole {A} (b src : list A) :
  length b = length src -> copy_at b 0 src = src.
Proof.
  intros Hl. unfold copy_at, overwrite. rewrite Nat.sub_0_r, Hl.
  rewrite firstn_all. simpl. rewrite drop_ge by lia. apply app_nil_r.
Qed.

Section LogLayout32.
Context `{Platform} (H32 : is_386_or_arm = true).

Lemma decode_encode_len v :
  0 <= v <= 2147483647 -> wrap_int (be_decode (be_encode 4 v)) = v.
Proof.
  intros Hv. rewrite <- (decode_encode_32 H32 v) at 2 by lia.
  rewrite Z.mod_small by lia. reflexivity.
Qed.

(** A record the page holds is the one [GetBytes] returns. *)
Lemma GetBytes_of_holds s pos r rs :
  len s <= 2147483643 ->
  holds_records s pos (r :: rs) ->
  file.GetBytes (file.mkPage s) pos = Ok r.
Proof.
  intros HB (H0 & Hfit & Hk & Hr & _). pose proof (len_nonneg r) as Hr0.
  unfold file.GetBytes.
  rewrite (GetInt_32 H32) by (cbn [file.buffer]; lia). cbn [file.buffer].
  rewrite Hk, decode_encode_len by lia.
  change (Ok ?x ≫= ?f) with (f x). cbv beta.
  rewrite (IntSize_32 H32). rewrite !(int_add_32 H32) by lia.
  rewrite (bool_decide_eq_false_2 (len r < 0)) by lia.
  rewrite slice_ok by lia. change (Ok ?x ≫= ?f) with (f x). cbv beta.
  unfold make_bytes. rewrite bool_decide_eq_true_2 by lia.
  change (Ok ?x ≫= ?f) with (f x). cbv beta.
  replace (Z.to_nat (pos + 4 + len r - (pos + 4))) with (length r) by (unfold len; lia).
  fold (window s (Z.to_nat (pos + 4)) (length r)). rewrite Hr.
  rewrite copy_at_whole; [reflexivity|].
  rewrite length_replicate. unfold len. lia.
Qed.

Lemma SetBytes_32 s pos r :
  0 <= pos -> pos + 4 + len r <= len s -> len s <= 2147483643 ->
  file.SetBytes (file.mkPage s) pos r
  = Ok (file.mkPage (overwrite (overwrite s (Z.to_nat pos) (be_encode 4 (len r)))
                               (Z.to_nat (pos + 4)) r)).
Proof.
  intros H0 Hfit HB. pose proof (len_nonneg r) as Hr0.
  unfold file.SetBytes.
  rewrite (SetInt_32 H32) by (cbn [file.buffer]; lia). cbn [file.buffer].
  rewrite Z.mod_small by lia.
  change (Ok ?x ≫= ?f) with (f x). cbv beta. cbn [file.buffer].
  rewrite (IntSize_32 H32), (int_add_32 H32) by lia.
  assert (Hl1 : length (overwrite s (Z.to_nat pos) (be_encode 4 (len r))) = length s).
  { apply length_overwrite. rewrite length_be_encode. unfold len in *. lia. }
  rewrite slice_from_ok by (unfold len in *; rewrite ?Hl1; lia).
  change (Ok ?x ≫= ?f) with (f x). cbv beta.
  unfold copy_at. rewrite take_ge; [reflexivity|].
  rewrite Hl1. unfold len in *. lia.
Qed.

Lemma place_record_ok s pos r :
  4 <= pos -> pos + 4 + len r <= len s -> len s <= 2147483643 ->
  (p1 ← file.SetBytes (file.mkPage s) pos r; file.SetInt p1 0 pos)
  = Ok (file.mkPage (placed s pos r)).
Proof.
  intros H4 Hfit HB. pose proof (len_nonneg r) as Hr0.
  rewrite SetBytes_32 by lia. change (Ok ?x ≫= ?f) with (f x). cbv beta.
  assert (Hl1 : length (overwrite s (Z.to_nat pos) (be_encode 4 (len r))) = length s).
  { apply length_overwrite. rewrite length_be_encode. unfold len in *. lia. }
  assert (Hl2 : length (overwrite (overwrite s (Z.to_nat pos) (be_encode 4 (len r)))
                                  (Z.to_nat (pos + 4)) r) = length s).
  { rewrite length_overwrite; [exact Hl1|]. rewrite Hl1. unfold len in *. lia. }
  rewrite (SetInt_32 H32) by (cbn [file.buffer]; unfold len in *; rewrite ?Hl2; lia).
  cbn [file.buffer]. rewrite Z.mod_small by lia. reflexivity.
Qed.

Lemma placed_spec s pos r :
  4 <= pos -> pos + 4 + len r <= len s -> len s <= 2147483643 ->
  len (placed s pos r) = len s
  /\ file.GetInt (file.mkPage (placed s pos r)) 0 = Ok pos
  /\ window (placed s pos r) (Z.to_nat pos) 4 = be_encode 4 (len r)
  /\ window (placed s pos r) (Z.to_nat (pos + 4)) (length r) = r
  /\ drop (Z.to_nat (pos + 4 + len r)) (placed s pos r)
     = drop (Z.to_nat (pos + 4 + len r)) s.
Proof.
  intros H4 Hfit HB. pose proof (len_nonneg r) as Hr0. unfold placed.
  set (s1 := overwrite s (Z.to_nat pos) (be_encode 4 (len r))).
  set (s2 := overwrite s1 (Z.to_nat (pos + 4)) r).
  assert (Hl1 : length s1 = length s).
  { apply length_overwrite. rewrite length_be_encode. unfold len in *. lia. }
  assert (Hl2 : length s2 = length s).
  { unfold s2. rewrite length_overwrite; [exact Hl1|]. rewrite Hl1. unfold len in *. lia. }
  assert (Hl3 : length (overwrite s2 0 (be_encode 4 pos)) = length s).
  { rewrite length_overwrite; [exact Hl2|]. rewrite length_be_encode, Hl2.
    unfold len in *. lia. }
  split; [unfold len; rewrite Hl3; reflexivity|].
  split.
  { rewrite (GetInt_32 H32) by (cbn [file.buffer]; unfold len in *; rewrite ?Hl3; lia).
    cbn [file.buffer]. change (Z.to_nat 0) with 0%nat.
    rewrite window_overwrite_same
      by (rewrite ?length_be_encode, ?Hl2; unfold len in *; lia).
    rewrite decode_encode_len by lia. reflexivity. }
  split.
  { rewrite window_overwrite_after
      by (rewrite ?length_be_encode, ?Hl2; unfold len in *; lia).
    unfold s2. rewrite window_overwrite_before by (rewrite ?Hl1; unfold len in *; lia).
    unfold s1. apply window_overwrite_same;
      rewrite ?length_be_encode; unfold len in *; lia. }
  split.
  { rewrite window_overwrite_after
      by (rewrite ?length_be_encode, ?Hl2; unfold len in *; lia).
    unfold s2. apply window_overwrite_same; rewrite ?Hl1; unfold len in *; lia. }
  rewrite drop_overwrite_after
    by (rewrite ?length_be_encode, ?Hl2; unfold len in *; lia).
  unfold s2. rewrite drop_overwrite_after by (rewrite ?Hl1; unfold len in *; lia).
  unfold s1. apply drop_overwrite_after; rewrite ?length_be_encode; unfold len in *; lia.
Qed.

(** Placing a record below the records a page already holds. *)
Lemma placed_holds s b r rs :
  let pos := b - (len r + 4) in
  4 <= pos -> len s <= 2147483643 ->
  holds_records s b rs ->
  holds_records (placed s pos r) pos (r :: rs).
Proof.
  intros pos H4 HB Hh. pose proof (len_nonneg r) as Hr0.
  assert (Hb : b <= len s) by (apply (holds_records_bounds s b rs Hh); lia).
  destruct (placed_spec s pos r) as (Hl & _ & Hk & Hr & Hd); try (subst pos; lia).
  cbn [holds_records]. rewrite Hl.
  split; [lia|]. split; [subst pos; lia|]. split; [exact Hk|]. split; [exact Hr|].
  replace (pos + 4 + len r) with b in * by (subst pos; lia).
  apply (holds_records_suffix s _ (Z.to_nat b)); [symmetry; exact Hl | | lia | exact Hh].
  symmetry. exact Hd.
Qed.


End LogLayout32.

(** ** Files of whole blocks *)

Section Blocks.
Context `{Platform}.

Lemma write_at_inside c off buf :
  0 <= off -> off + len buf <= len c ->
  file.write_at c off buf = overwrite c (Z.to_nat off) buf.
Proof.
  intros H0 Hin. unfold file.write_at, overwrite.
  replace (Z.to_nat off - length c)%nat with 0%nat by (unfold len in *; lia).
  simpl replicate. rewrite app_nil_r. reflexivity.
Qed.

Lemma write_at_end c off buf :
  off = len c -> file.write_at c off buf = c ++ buf.
Proof.
  intros ->. unfold file.write_at, len. rewrite Nat2Z.id.
  rewrite Nat.sub_diag. simpl replicate. rewrite app_nil_r, firstn_all.
  rewrite drop_ge by lia. rewrite app_nil_r. reflexivity.
Qed.

Lemma block_at_overwrite_same c B j buf :
  0 <= j -> 0 < B -> len buf = B -> (j + 1) * B <= len c ->
  block_at (overwrite c (Z.to_nat (j * B)) buf) B j = buf.
Proof.
  intros Hj HB Hbuf Hc. unfold block_at.
  apply window_overwrite_same; unfold len in *; nia.
Qed.

Lemma block_at_overwrite_other c B i j buf :
  0 <= i -> 0 <= j -> i <> j -> 0 < B -> len buf = B -> (j + 1) * B <= len c ->
  block_at (overwrite c (Z.to_nat (j * B)) buf) B i = block_at c B i.
Proof.
  intros Hi Hj Hne HB Hbuf Hc. unfold block_at.
  destruct (Z.lt_ge_cases i j).
  - apply window_overwrite_before; unfold len in *; nia.
  - apply window_overwrite_after; unfold len in *; nia.
Qed.

Lemma block_at_app c x B i :
  0 <= i -> 0 < B -> (i + 1) * B <= len c ->
  block_at (c ++ x) B i = block_at c B i.
Proof.
  intros Hi HB Hc. unfold block_at, window.
  rewrite drop_app_le by (unfold len in *; nia).
  apply take_app_le. rewrite length_drop. unfold len in *. nia.
Qed.

Lemma block_at_app_end c x B N :
  0 <= N -> 0 < B -> len c = N * B -> len x = B ->
  block_at (c ++ x) B N = x.
Proof.
  intros HN HB Hc Hx. unfold block_at, window.
  rewrite drop_app_length' by (unfold len in *; nia).
  apply take_ge. unfold len in *. lia.
Qed.

Lemma getFile_open m f : f ∈ file.openFiles m -> file.getFile m f = m.
Proof. intros Hin. unfold file.getFile. rewrite bool_decide_eq_true_2 by assumption. reflexivity. Qed.

Lemma getFile_opens m f : f ∈ file.openFiles (file.getFile m f).
Proof.
  unfold file.getFile. case_bool_decide as Hin; [assumption|].
  cbn [file.openFiles]. apply elem_of_union_l, elem_of_singleton. reflexivity.
Qed.

Lemma getFile_getFile m f : file.getFile (file.getFile m f) f = file.getFile m f.
Proof. apply getFile_open, getFile_opens. Qed.

Lemma Write_ok m f j page :
  0 < file.blockSize m -> 0 <= j -> j * file.blockSize m < 2 ^ 63 ->
  file.Write m (file.mkBlockId f j) page
  = Ok (file.incr_blocksWritten
          (file.set_contents (file.getFile m f) f
             (file.write_at (file.file_contents m f) (j * file.blockSize m)
                            (file.buffer page)))).
Proof.
  intros HB Hj Hoff. unfold file.Write. cbn [file.Filename file.Number file.File file.BlockNumber].
  rewrite blockSize_getFile, file_contents_getFile.
  rewrite wrap_int64_small by nia.
  rewrite bool_decide_eq_false_2 by nia. reflexivity.
Qed.

Lemma Length_ok m f N :
  0 < file.blockSize m -> 0 <= N <= MaxInt ->
  len (file.file_contents m f) = N * file.blockSize m ->
  file.Length m f = Ok (N, file.getFile m f).
Proof.
  intros HB HN Hc. unfold file.Length.
  rewrite blockSize_getFile, file_contents_getFile, Hc.
  rewrite bool_decide_eq_false_2 by lia.
  rewrite Z.quot_mul by lia.
  pose proof MaxInt_cases as HM. pose proof MinInt_neg.
  rewrite wrap_int64_small by (destruct HM as [[? ?]|[? ?]]; lia).
  rewrite wrap_int_small by lia. reflexivity.
Qed.

Lemma Append_ok m f N :
  0 < file.blockSize m -> 0 <= N <= MaxInt -> N * file.blockSize m < 2 ^ 63 ->
  len (file.file_contents m f) = N * file.blockSize m ->
  file.Append m f
  = Ok (file.mkBlockId f N,
        file.incr_blocksWritten
          (file.set_contents (file.getFile m f) f
             (file.file_contents m f
                ++ replicate (Z.to_nat (file.blockSize m)) Byte.x00))).
Proof.
  intros HB HN Hoff Hc. unfold file.Append.
  rewrite (Length_ok m f N) by assumption.
  change (Ok ?x ≫= ?f) with (f x). cbv beta iota.
  rewrite getFile_getFile. cbn [file.Number file.BlockNumber].
  rewrite blockSize_getFile, file_contents_getFile.
  rewrite wrap_int64_small by nia.
  rewrite bool_decide_eq_false_2 by nia.
  unfold make_bytes. rewrite bool_decide_eq_true_2 by lia.
  change (Ok ?x ≫= ?f) with (f x). cbv beta.
  rewrite write_at_end by (symmetry; exact Hc). reflexivity.
Qed.

Lemma Read_ok m f j page :
  0 < file.blockSize m -> 0 <= j -> j * file.blockSize m < 2 ^ 63 ->
  (j + 1) * file.blockSize m <= len (file.file_contents m f) ->
  len (file.buffer page) = file.blockSize m ->
  file.Read m (file.mkBlockId f j) page
  = Ok (file.incr_blocksRead (file.getFile m f),
        file.mkPage (block_at (file.file_contents m f) (file.blockSize m) j)).
Proof.
  intros HB Hj Hoff Hc Hp. unfold file.Read.
  cbn [file.Filename file.Number file.File file.BlockNumber].
  rewrite blockSize_getFile, file_contents_getFile.
  rewrite wrap_int64_small by nia.
  rewrite bool_decide_eq_false_2 by nia.
  unfold file.ReadFull, file.Contents.
  set (c := file.file_contents m f) in *. set (B := file.blockSize m) in *.
  set (got := take (length (file.buffer page)) (drop (Z.to_nat (j * B)) c)).
  assert (Hgot : len got = len (file.buffer page)).
  { unfold got, len. rewrite length_take, length_drop. unfold len in *. nia. }
  rewrite !(bool_decide_eq_true_2 (len got = len (file.buffer page))) by exact Hgot.
  rewrite (bool_decide_eq_true_2 (file.io_nil = file.io_nil)) by reflexivity.
  cbn [andb]. rewrite drop_ge by (unfold len in Hgot; lia). rewrite app_nil_r.
  unfold got, block_at, window. replace (Z.to_nat B) with (length (file.buffer page))
    by (unfold len in Hp; lia).
  reflexivity.
Qed.

Lemma contents_after_write m f c :
  file.file_contents (file.incr_blocksWritten (file.set_contents m f c)) f = c
  /\ file.blockSize (file.incr_blocksWritten (file.set_contents m f c)) = file.blockSize m.
Proof.
  split; [|reflexivity]. unfold file.file_contents. cbn [file.disk file.incr_blocksWritten file.set_contents].
  rewrite lookup_insert_eq. reflexivity.
Qed.

Lemma contents_after_read m f :
  file.file_contents (file.incr_blocksRead (file.getFile m f)) f = file.file_contents m f
  /\ file.blockSize (file.incr_blocksRead (file.getFile m f)) = file.blockSize m.
Proof.
  split.
  - change (file.file_contents (file.incr_blocksRead ?x) f) with (file.file_contents x f).
    apply file_contents_getFile.
  - change (file.blockSize (file.incr_blocksRead ?x)) with (file.blockSize x).
    apply blockSize_getFile.
Qed.

End Blocks.

Lemma offset_small a b :
  0 <= a <= 2147483647 -> 0 <= b <= 2147483647 -> 0 <= a * b < 2 ^ 63.
Proof.
  intros Ha Hb. split; [apply Z.mul_nonneg_nonneg; lia|].
  apply Z.le_lt_trans with (2147483647 * 2147483647).
  - apply Z.mul_le_mono_nonneg; lia.
  - reflexivity.
Qed.

Section LogManager32.
Context `{Platform} (H32 : is_386_or_arm = true).

Lemma wrap_error_Ok {A} prefix (x : A) : wrap_error prefix (Ok x) = Ok x.
Proof. reflexivity. Qed.

Lemma mkPage_buffer p : file.mkPage (file.buffer p) = p.
Proof. destruct p; reflexivity. Qed.

(** flush: the page becomes block [N] of the file. *)
Lemma flush_ok B m fm N :
  0 < B -> file.blockSize fm = B -> 0 <= N -> (N + 1) * B < 2 ^ 63 ->
  log.currentBlock m = file.mkBlockId (log.logFile m) N ->
  len (file.buffer (log.logPage m)) = B ->
  (N + 1) * B <= len (file.file_contents fm (log.logFile m)) ->
  exists fm',
    log.flush m fm
    = Ok (log.mkManager (log.logFile m) (log.logPage m) (log.currentBlock m)
                        (log.latestLSN m) (log.latestLSN m), fm')
    /\ file.blockSize fm' = B
    /\ len (file.file_contents fm' (log.logFile m))
       = len (file.file_contents fm (log.logFile m))
    /\ block_at (file.file_contents fm' (log.logFile m)) B N = file.buffer (log.logPage m)
    /\ forall i, 0 <= i -> i <> N ->
                 block_at (file.file_contents fm' (log.logFile m)) B i
                 = block_at (file.file_contents fm (log.logFile m)) B i.
Proof.
  intros HB Hbs HN Hoff Hcur Hp Hc. unfold log.flush. rewrite Hcur.
  rewrite Write_ok by (rewrite ?Hbs; nia). rewrite wrap_error_Ok.
  change (Ok ?x ≫= ?f) with (f x). cbv beta.
  eexists. split; [reflexivity|].
  destruct (contents_after_write (file.getFile fm (log.logFile m)) (log.logFile m)
              (file.write_at (file.file_contents fm (log.logFile m))
                             (N * file.blockSize fm) (file.buffer (log.logPage m))))
    as [-> ->].
  rewrite blockSize_getFile, Hbs.
  rewrite write_at_inside by nia.
  split; [reflexivity|]. split.
  { unfold len. rewrite length_overwrite; [reflexivity|]. unfold len in *. nia. }
  split.
  - apply block_at_overwrite_same; lia.
  - intros i Hi Hne. apply block_at_overwrite_other; lia.
Qed.

(** appendNewBlock: a new last block, which is the page with its
    boundary reset to the block size. *)
Lemma appendNewBlock_ok B fm f page N :
  8 <= B <= 2147483643 -> file.blockSize fm = B ->
  0 <= N <= 2147483646 ->
  len (file.buffer page) = B ->
  len (file.file_contents fm f) = N * B ->
  exists page' fm',
    log.appendNewBlock fm f page = Ok (file.mkBlockId f N, page', fm')
    /\ file.blockSize fm' = B
    /\ len (file.file_contents fm' f) = (N + 1) * B
    /\ block_at (file.file_contents fm' f) B N = file.buffer page'
    /\ (forall i, 0 <= i < N ->
                  block_at (file.file_contents fm' f) B i
                  = block_at (file.file_contents fm f) B i)
    /\ len (file.buffer page') = B
    /\ file.GetInt page' 0 = Ok B
    /\ holds_records (file.buffer page') B [].
Proof.
  intros HB Hbs HN Hp Hc. unfold log.appendNewBlock.
  assert (HM : MaxInt = 2147483647) by apply (MaxInt_32 H32).
  pose proof (offset_small N B ltac:(lia) ltac:(lia)) as HoffN.
  assert (G1 : 0 < file.blockSize fm) by (rewrite Hbs; lia).
  assert (G2 : 0 <= N <= MaxInt) by (rewrite HM; lia).
  assert (G3 : N * file.blockSize fm < 2 ^ 63) by (rewrite Hbs; apply HoffN).
  assert (G4 : len (file.file_contents fm f) = N * file.blockSize fm)
    by (rewrite Hbs; exact Hc).
  rewrite (Append_ok fm f N G1 G2 G3 G4).
  cbn [wrap_error mbind outcome_mbind outcome_bind].
  set (fm1 := file.incr_blocksWritten _).
  assert (Hc1 : file.file_contents fm1 f
                = file.file_contents fm f ++ replicate (Z.to_nat (file.blockSize fm)) Byte.x00)
    by apply contents_after_write.
  assert (Hb1 : file.blockSize fm1 = B).
  { unfold fm1. rewrite (proj2 (contents_after_write _ _ _)), blockSize_getFile. exact Hbs. }
  unfold file.BlockSize. rewrite Hb1.
  destruct (file.SetInt page 0 B) as [page'| |] eqn:Hset.
  2,3: rewrite (SetInt_32 H32) in Hset by lia; discriminate.
  destruct (GetInt_SetInt_same H32 page 0 B page' ltac:(lia) ltac:(lia) ltac:(lia) Hset)
    as [Hget Hlen'].
  cbn [wrap_error mbind outcome_mbind outcome_bind].
  assert (G5 : 0 < file.blockSize fm1) by (rewrite Hb1; lia).
  assert (G6 : N * file.blockSize fm1 < 2 ^ 63) by (rewrite Hb1; apply HoffN).
  rewrite (Write_ok fm1 f N page' G5 (proj1 HN) G6).
  cbn [wrap_error mbind outcome_mbind outcome_bind].
  eexists page', _. split; [reflexivity|].
  destruct (contents_after_write (file.getFile fm1 f) f
              (file.write_at (file.file_contents fm1 f) (N * file.blockSize fm1)
                             (file.buffer page'))) as [Hc2 Hb2].
  rewrite Hc2, Hb2. clear Hc2 Hb2.
  rewrite blockSize_getFile, Hb1, Hc1, Hbs.
  assert (Hlz : len (file.file_contents fm f ++ replicate (Z.to_nat B) Byte.x00) = (N + 1) * B).
  { rewrite len_app, len_replicate, Hc. lia. }
  rewrite write_at_inside by (rewrite ?Hlz; lia).
  split; [reflexivity|]. split.
  { unfold len. rewrite length_overwrite; [exact Hlz|]. unfold len in *. lia. }
  split.
  { apply block_at_overwrite_same; rewrite ?Hlz; lia. }
  split.
  { intros i Hi. rewrite block_at_overwrite_other by (rewrite ?Hlz; lia).
    apply block_at_app; rewrite ?Hc; nia. }
  split; [lia|]. split; [exact Hget|]. simpl. lia.
Qed.


Lemma place_record_page p pos r :
  4 <= pos -> pos + 4 + len r <= len (file.buffer p) ->
  len (file.buffer p) <= 2147483643 ->
  exists p1,
    file.SetBytes p pos r = Ok p1
    /\ file.SetInt p1 0 pos = Ok (file.mkPage (placed (file.buffer p) pos r)).
Proof.
  destruct p as [s]. cbn [file.buffer].
  intros H4 Hfit HB. pose proof (len_nonneg r) as Hr0.
  rewrite (SetBytes_32 H32) by lia. eexists. split; [reflexivity|].
  assert (Hl1 : length (overwrite s (Z.to_nat pos) (be_encode 4 (len r))) = length s).
  { apply length_overwrite. rewrite length_be_encode. unfold len in *. lia. }
  assert (Hl2 : length (overwrite (overwrite s (Z.to_nat pos) (be_encode 4 (len r)))
                                  (Z.to_nat (pos + 4)) r) = length s).
  { rewrite length_overwrite; [exact Hl1|]. rewrite Hl1. unfold len in *. lia. }
  rewrite (SetInt_32 H32) by (cbn [file.buffer]; unfold len in *; rewrite ?Hl2; lia).
  cbn [file.buffer]. rewrite Z.mod_small by lia. reflexivity.
Qed.

(** The page after a record is placed under boundary [b]. *)
Lemma placed_log_block B s b r rs :
  len s = B -> B <= 2147483643 -> 4 <= b - (len r + 4) ->
  holds_records s b rs ->
  log_block B (placed s (b - (len r + 4)) r) (r :: rs)
  /\ file.GetInt (file.mkPage (placed s (b - (len r + 4)) r)) 0 = Ok (b - (len r + 4))
  /\ file.GetBytes (file.mkPage (placed s (b - (len r + 4)) r)) (b - (len r + 4)) = Ok r
  /\ drop (Z.to_nat b) (placed s (b - (len r + 4)) r) = drop (Z.to_nat b) s.
Proof.
  intros Hs HB H4 Hh. pose proof (len_nonneg r) as Hr0.
  assert (Hb : b <= len s) by (apply (holds_records_bounds s b rs Hh); lia).
  destruct (placed_spec H32 s (b - (len r + 4)) r) as (Hl & Hg & _ & _ & Hd); try lia.
  pose proof (placed_holds H32 s b r rs H4 ltac:(lia) Hh) as Hp.
  split.
  { split; [lia|]. exists (b - (len r + 4)). split; [exact Hg|]. split; [lia | exact Hp]. }
  split; [exact Hg|]. split.
  { apply (GetBytes_of_holds H32 _ _ r rs); [lia | exact Hp]. }
  replace (b - (len r + 4) + 4 + len r) with b in Hd by lia. exact Hd.
Qed.

(** C1 where [IntSize] is 4 (386, arm).  Append on a well-formed log
    whose page has boundary [b]: when [b - (k + 4) >= 4] the record goes
    in the page at [b - (k + 4)], the page is unchanged from [b] on, the
    file manager is not touched; otherwise the page is flushed, a new
    block is appended with boundary [B], and the record goes at
    [B - (k + 4)].  In both cases the boundary is the position of the
    record, the record reads back, and the LSN is the next one. *)
Theorem Append_layout_32 B m fm blocks cur r :
  8 <= B <= 2147483643 -> len r + 8 <= B ->
  Z.of_nat (length blocks) <= 2147483644 ->
  log_inv B m fm blocks cur ->
  exists b lsn m' fm',
    file.GetInt (log.logPage m) 0 = Ok b
    /\ log.Append m fm r = Ok (lsn, m', fm')
    /\ lsn = int_add (log.latestLSN m) 1
    /\ log.latestLSN m' = lsn
    /\ log.logFile m' = log.logFile m
    /\ let b0 := if bool_decide (b - (len r + 4) < 4) then B else b in
       file.GetInt (log.logPage m') 0 = Ok (b0 - (len r + 4))
       /\ file.GetBytes (log.logPage m') (b0 - (len r + 4)) = Ok r
       /\ (4 <= b - (len r + 4) ->
           fm' = fm /\ log.currentBlock m' = log.currentBlock m
           /\ drop (Z.to_nat b) (file.buffer (log.logPage m'))
              = drop (Z.to_nat b) (file.buffer (log.logPage m))
           /\ log_inv B m' fm' blocks (r :: cur))
       /\ (b - (len r + 4) < 4 ->
           log.currentBlock m'
           = file.mkBlockId (log.logFile m) (Z.of_nat (length blocks) + 1)
           /\ block_at (file.file_contents fm' (log.logFile m)) B (Z.of_nat (length blocks))
              = file.buffer (log.logPage m)
           /\ cur <> []
           /\ log_inv B m' fm' (blocks ++ [cur]) [r]).
Proof.
  intros HB Hr HN (Hbs & Hcur & Hc & Hdisk & (Hlen & b & Hb & Hb4 & Hh)).
  pose proof (len_nonneg r) as Hr0.
  rewrite mkPage_buffer in Hb.
  assert (HbB : b <= B) by (rewrite <- Hlen; apply (holds_records_bounds _ b cur Hh); lia).
  set (N := Z.of_nat (length blocks)) in *.
  exists b. unfold log.Append. rewrite Hb. ok_step.
  rewrite (int_add_32 H32 (len r) 4) by lia.
  rewrite (int_sub_32 H32 b (len r + 4)) by lia.
  case_bool_decide as Hfresh.
  - (* a new block *)
    pose proof (offset_small (N + 1) B ltac:(lia) ltac:(lia)) as Hoff.
    destruct (flush_ok B m fm N ltac:(lia) Hbs ltac:(lia) ltac:(lia) Hcur Hlen ltac:(lia))
      as (fm1 & Hfl & Hbs1 & Hc1 & HbN & Hother).
    rewrite Hfl. ok_step. cbn [log.logFile log.logPage log.latestLSN log.lastSavedLSN].
    destruct (appendNewBlock_ok B fm1 (log.logFile m) (log.logPage m) (N + 1)
                HB Hbs1 ltac:(lia) Hlen ltac:(lia))
      as (page' & fm2 & Hap & Hbs2 & Hc2 & HbN1 & Hkeep & Hlen' & Hget' & _).
    rewrite Hap. ok_step. cbn [log.logFile log.logPage log.latestLSN log.lastSavedLSN].
    rewrite Hget'. ok_step.
    cbn [log.logFile log.logPage log.latestLSN log.lastSavedLSN log.currentBlock].
    rewrite (int_sub_32 H32 B (len r + 4)) by lia.
    destruct (place_record_page page' (B - (len r + 4)) r) as (p1 & Hsb & Hsi); try lia.
    rewrite Hsb. ok_step. rewrite Hsi. ok_step.
    cbn [log.logFile log.logPage log.latestLSN log.lastSavedLSN log.currentBlock].
    assert (Hh' : holds_records (file.buffer page') B []) by (simpl; lia).
    destruct (placed_log_block B (file.buffer page') B r [] Hlen' ltac:(lia) ltac:(lia) Hh')
      as (Hlb & Hg & Hgb & _).
    assert (Hne : cur <> []).
    { intros ->. simpl in Hh. lia. }
    eexists _, _, _. split; [reflexivity|]. split; [reflexivity|].
    split; [reflexivity|]. split; [reflexivity|]. split; [reflexivity|].
    cbn [log.logFile log.logPage log.latestLSN log.lastSavedLSN log.currentBlock].
    split; [exact Hg|]. split; [exact Hgb|]. split; [intros; lia|].
    intros _. split; [reflexivity|].
    assert (HbN' : block_at (file.file_contents fm2 (log.logFile m)) B N
                   = file.buffer (log.logPage m)).
    { rewrite Hkeep by lia. exact HbN. }
    split; [exact HbN'|]. split; [exact Hne|].
    split; [exact Hbs2|]. rewrite length_app. cbn [length].
    cbn [log.logFile log.logPage log.currentBlock].
    split; [f_equal; lia|]. split; [rewrite Hc2; lia|]. split; [|exact Hlb].
    intros j rs Hj. apply lookup_app_Some in Hj as [Hj | [Hge Hj]].
    + assert (Hjl : (j < length blocks)%nat) by (apply lookup_lt_Some in Hj; exact Hj).
      rewrite Hkeep by lia. rewrite Hother by lia. apply Hdisk. exact Hj.
    + destruct (j - length blocks)%nat eqn:Hd; [|destruct n; discriminate].
      injection Hj as <-. replace (Z.of_nat j) with N by lia.
      rewrite HbN'. split; [|exact Hne].
      split; [exact Hlen|]. exists b. rewrite mkPage_buffer. auto.
  - (* in the page *)
    ok_step. rewrite (int_sub_32 H32 b (len r + 4)) by lia.
    destruct (place_record_page (log.logPage m) (b - (len r + 4)) r) as (p1 & Hsb & Hsi);
      try lia.
    rewrite Hsb. ok_step. rewrite Hsi. ok_step.
    destruct (placed_log_block B (file.buffer (log.logPage m)) b r cur Hlen ltac:(lia)
                ltac:(lia) Hh) as (Hlb & Hg & Hgb & Hd).
    eexists _, _, _. split; [reflexivity|]. split; [reflexivity|].
    split; [reflexivity|]. split; [reflexivity|]. split; [reflexivity|].
    cbn [log.logFile log.logPage log.latestLSN log.lastSavedLSN log.currentBlock].
    split; [exact Hg|]. split; [exact Hgb|]. split; [|intros; lia].
    intros _. split; [reflexivity|]. split; [reflexivity|]. cbn [file.buffer].
    split; [exact Hd|].
    split; [exact Hbs|]. cbn [log.logFile log.logPage log.currentBlock file.buffer].
    split; [exact Hcur|]. split; [exact Hc|]. split; [exact Hdisk | exact Hlb].
Qed.

Lemma NewManager_fresh B f :
  8 <= B <= 2147483643 ->
  exists m fm,
    log.NewManager (fresh_fileManager B) f = Ok (m, fm)
    /\ log.logFile m = f /\ log_inv B m fm [] [].
Proof.
  intros HB. unfold log.NewManager, file.NewPage, file.BlockSize, make_bytes.
  cbn [fresh_fileManager file.blockSize].
  rewrite bool_decide_eq_true_2 by lia. ok_step.
  assert (Hc0 : len (file.file_contents (fresh_fileManager B) f) = 0 * B) by reflexivity.
  pose proof (MaxInt_32 H32) as HM.
  rewrite (Length_ok (fresh_fileManager B) f 0)
    by (cbn [fresh_fileManager file.blockSize]; rewrite ?HM; (exact Hc0 || lia)).
  ok_step. rewrite bool_decide_eq_true_2 by reflexivity.
  destruct (appendNewBlock_ok B (file.getFile (fresh_fileManager B) f) f
              (file.mkPage (replicate (Z.to_nat B) Byte.x00)) 0 HB)
    as (page' & fm' & Hap & Hbs & Hc & HbN & _ & Hlen & Hget & Hh).
  { rewrite blockSize_getFile. reflexivity. }
  { lia. }
  { cbn [file.buffer]. rewrite len_replicate. lia. }
  { rewrite file_contents_getFile. exact Hc0. }
  rewrite Hap. ok_step.
  eexists _, _. split; [reflexivity|]. split; [reflexivity|].
  split; [exact Hbs|]. cbn [log.logFile log.logPage log.currentBlock length].
  split; [reflexivity|]. split; [rewrite Hc; lia|]. split.
  - intros j rs Hj. rewrite lookup_nil in Hj. discriminate.
  - split; [exact Hlen|]. exists B. rewrite mkPage_buffer. split; [exact Hget|].
    split; [lia | exact Hh].
Qed.

Lemma append_all_inv B records :
  8 <= B <= 2147483643 ->
  Forall (fun r => len r + 8 <= B) records ->
  forall m fm blocks cur,
    Z.of_nat (length blocks) + Z.of_nat (length records) <= 2147483645 ->
    log_inv B m fm blocks cur ->
    exists m' fm' blocks' cur',
      append_all m fm records = Ok (m', fm')
      /\ log.logFile m' = log.logFile m
      /\ log_inv B m' fm' blocks' cur'
      /\ iter_order blocks' cur' = rev records ++ iter_order blocks cur.
Proof.
  intros HB Hfit. induction Hfit as [|r records Hr _ IH]; intros m fm blocks cur HN Hinv.
  - exists m, fm, blocks, cur. split; [reflexivity|]. split; [reflexivity|].
    split; [exact Hinv | reflexivity].
  - cbn [append_all length] in *.
    destruct (Append_layout_32 B m fm blocks cur r HB Hr ltac:(lia) Hinv)
      as (b & lsn & m1 & fm1 & _ & Hap & _ & _ & Hf1 & _ & _ & Hin & Hnew).
    rewrite Hap. ok_step.
    destruct (Z.lt_ge_cases (b - (len r + 4)) 4) as [Hlt|Hge].
    + destruct (Hnew Hlt) as (_ & _ & _ & Hinv1).
      destruct (IH m1 fm1 (blocks ++ [cur]) [r]) as (m' & fm' & bl' & cur' & Ha & Hf & Hi & Ho).
      { rewrite length_app. cbn [length]. lia. }
      { exact Hinv1. }
      exists m', fm', bl', cur'. split; [exact Ha|]. split; [congruence|].
      split; [exact Hi|]. rewrite Ho. unfold iter_order.
      rewrite rev_app_distr. cbn [rev app concat]. rewrite <- !app_assoc. reflexivity.
    + destruct (Hin Hge) as (_ & _ & _ & Hinv1).
      destruct (IH m1 fm1 blocks (r :: cur)) as (m' & fm' & bl' & cur' & Ha & Hf & Hi & Ho).
      { lia. }
      { exact Hinv1. }
      exists m', fm', bl', cur'. split; [exact Ha|]. split; [congruence|].
      split; [exact Hi|]. rewrite Ho. unfold iter_order.
      cbn [rev app]. rewrite <- !app_assoc. reflexivity.
Qed.

(** Iterator(): the log is flushed and the iterator stands at the
    boundary of the current block. *)
Lemma Iterator_ok B m fm blocks cur :
  8 <= B <= 2147483643 -> Z.of_nat (length blocks) <= 2147483645 ->
  log_inv B m fm blocks cur ->
  exists it m' fm',
    log.Iterator_ m fm = Ok (it, m', fm')
    /\ it_inv B (log.logFile m) it fm' cur blocks.
Proof.
  intros HB HN (Hbs & Hcur & Hc & Hdisk & (Hlen & b & Hb & Hb4 & Hh)).
  set (N := Z.of_nat (length blocks)) in *.
  pose proof (offset_small (N + 1) B ltac:(lia) ltac:(lia)) as Hoff.
  destruct (flush_ok B m fm N ltac:(lia) Hbs ltac:(lia) ltac:(lia) Hcur Hlen ltac:(lia))
    as (fm1 & Hfl & Hbs1 & Hc1 & HbN & Hother).
  unfold log.Iterator_. rewrite Hfl. ok_step. cbn [log.currentBlock].
  unfold log.NewIterator, file.NewPage, file.BlockSize, make_bytes.
  rewrite Hbs1, bool_decide_eq_true_2 by lia. ok_step.
  unfold log.moveToBlock. cbn [log.page log.block]. rewrite Hcur.
  assert (G1 : 0 < file.blockSize fm1) by lia.
  assert (G2 : N * file.blockSize fm1 < 2 ^ 63) by (rewrite Hbs1; lia).
  assert (G3 : (N + 1) * file.blockSize fm1 <= len (file.file_contents fm1 (log.logFile m)))
    by (rewrite Hbs1, Hc1; lia).
  rewrite (Read_ok fm1 (log.logFile m) N _ G1 ltac:(lia) G2 G3)
    by (cbn [file.buffer]; rewrite len_replicate; lia).
  ok_step. rewrite Hbs1, HbN, Hb. ok_step.
  eexists _, _, _. split; [reflexivity|].
  destruct (contents_after_read fm1 (log.logFile m)) as [Hcr Hbr].
  split; [rewrite Hbr; exact Hbs1|].
  cbn [log.block log.page log.currentPosition file.buffer].
  split; [reflexivity|]. split; [exact Hlen|]. split; [lia|]. split; [exact Hh|].
  rewrite Hcr, Hc1. split; [lia|].
  intros j rs Hj. assert (Hjl : (j < length blocks)%nat) by (apply lookup_lt_Some in Hj; exact Hj).
  rewrite Hother by lia. apply Hdisk. exact Hj.
Qed.

(** Next inside a block. *)
Lemma Next_in_block B f it fm r rest blocks :
  B <= 2147483643 ->
  it_inv B f it fm (r :: rest) blocks ->
  log.HasNext it fm = true
  /\ exists it', log.Next it fm = Ok (r, it', fm) /\ it_inv B f it' fm rest blocks.
Proof.
  intros HB (Hbs & Hblk & Hlen & H0 & Hh & Hc & Hdisk).
  pose proof (len_nonneg r) as Hr0.
  pose proof Hh as (_ & Hfit & _ & _ & Hrest).
  split.
  { unfold log.HasNext, file.BlockSize. rewrite Hbs.
    rewrite bool_decide_eq_true_2 by lia. reflexivity. }
  unfold log.Next, file.BlockSize. rewrite Hbs.
  rewrite bool_decide_eq_false_2 by lia. ok_step.
  rewrite <- (mkPage_buffer (log.page it)).
  rewrite (GetBytes_of_holds H32 _ _ r rest) by (rewrite ?Hlen; assumption || lia).
  rewrite mkPage_buffer. ok_step.
  rewrite (int_add_32 H32 4 (len r)) by lia.
  rewrite (int_add_32 H32 _ (4 + len r)) by lia.
  eexists. split; [reflexivity|].
  split; [exact Hbs|]. cbn [log.block log.page log.currentPosition].
  split; [exact Hblk|]. split; [exact Hlen|]. split; [lia|].
  replace (log.currentPosition it + (4 + len r)) with (log.currentPosition it + 4 + len r)
    by lia.
  split; [exact Hrest|]. split; [exact Hc | exact Hdisk].
Qed.

(** Next at the end of a block that is not the first: the iterator moves
    to the block before, which holds at least one record. *)
Lemma Next_previous_block B f it fm blocks last :
  8 <= B <= 2147483643 -> Z.of_nat (length blocks) <= 2147483645 ->
  it_inv B f it fm [] (blocks ++ [last]) ->
  log.HasNext it fm = true
  /\ exists r rest it' fm',
       last = r :: rest
       /\ log.Next it fm = Ok (r, it', fm')
       /\ it_inv B f it' fm' rest blocks.
Proof.
  intros HB HN (Hbs & Hblk & Hlen & H0 & Hh & Hc & Hdisk).
  rewrite length_app in *. cbn [length] in *. simpl in Hh.
  set (N := Z.of_nat (length blocks)) in *.
  replace (Z.of_nat (length blocks + 1)) with (N + 1) in * by lia.
  split.
  { unfold log.HasNext. rewrite Hblk. cbn [file.Number file.BlockNumber].
    rewrite (bool_decide_eq_true_2 (N + 1 > 0)) by lia. apply orb_true_r. }
  destruct (Hdisk (length blocks) last) as ((Hl & b & Hb & Hb4 & Hhl) & Hne).
  { rewrite lookup_app_r by lia. rewrite Nat.sub_diag. reflexivity. }
  fold N in Hl, Hb, Hhl.
  destruct last as [|r rest]; [congruence|]. exists r, rest.
  pose proof (len_nonneg r) as Hr0. pose proof Hhl as (_ & Hfit & _ & _ & Hrest).
  rewrite Hl in Hfit.
  pose proof (offset_small (N + 1) B ltac:(lia) ltac:(lia)) as Hoff.
  unfold log.Next, file.BlockSize. rewrite Hbs, Hh, Hlen.
  rewrite bool_decide_eq_true_2 by reflexivity.
  rewrite Hblk. cbn [file.Number file.BlockNumber file.Filename file.File].
  rewrite bool_decide_eq_false_2 by lia.
  rewrite (int_sub_32 H32 (N + 1) 1) by lia. replace (N + 1 - 1) with N by lia.
  unfold log.moveToBlock. cbn [log.page log.block].
  assert (G1 : 0 < file.blockSize fm) by lia.
  assert (G2 : N * file.blockSize fm < 2 ^ 63) by (rewrite Hbs; lia).
  assert (G3 : (N + 1) * file.blockSize fm <= len (file.file_contents fm f))
    by (rewrite Hbs; lia).
  rewrite (Read_ok fm f N _ G1 ltac:(lia) G2 G3) by (rewrite Hbs; exact Hlen).
  ok_step. rewrite Hbs, Hb. ok_step. cbn [log.page log.currentPosition log.block log.boundary].
  rewrite (GetBytes_of_holds H32 _ _ r rest) by (rewrite ?Hl; assumption || lia).
  ok_step.
  rewrite (int_add_32 H32 4 (len r)) by lia.
  rewrite (int_add_32 H32 _ (4 + len r)) by lia.
  eexists _, _. split; [reflexivity|]. split; [reflexivity|].
  destruct (contents_after_read fm f) as [Hcr Hbr].
  split; [rewrite Hbr; exact Hbs|]. cbn [log.block log.page log.currentPosition file.buffer].
  split; [reflexivity|]. split; [exact Hl|]. split; [lia|].
  replace (b + (4 + len r)) with (b + 4 + len r) by lia.
  split; [exact Hrest|]. rewrite Hcr. split; [lia|].
  intros j rs Hj. apply Hdisk. apply lookup_app_l_Some. exact Hj.
Qed.

(** At the end of the first block the iterator is exhausted. *)
Lemma HasNext_exhausted B f it fm :
  it_inv B f it fm [] [] -> log.HasNext it fm = false.
Proof.
  intros (Hbs & Hblk & Hlen & H0 & Hh & _). simpl in Hh.
  unfold log.HasNext, file.BlockSize. rewrite Hblk, Hbs, Hh, Hlen.
  cbn [file.Number file.BlockNumber length].
  rewrite bool_decide_eq_false_2 by lia.
  rewrite bool_decide_eq_false_2 by (cbn; lia). reflexivity.
Qed.

Lemma drain_in_block B f blocks :
  B <= 2147483643 ->
  (forall it fm fuel,
      it_inv B f it fm [] blocks ->
      (length (concat (rev blocks)) < fuel)%nat ->
      drain fuel it fm = (map Ok (concat (rev blocks)), true)) ->
  forall rest it fm fuel,
    it_inv B f it fm rest blocks ->
    (length (rest ++ concat (rev blocks)) < fuel)%nat ->
    drain fuel it fm = (map Ok (rest ++ concat (rev blocks)), true).
Proof.
  intros HB Hend. induction rest as [|r rest IH]; intros it fm fuel Hinv Hfuel.
  - apply Hend; assumption.
  - destruct fuel as [|fuel]; [simpl in Hfuel; lia|].
    destruct (Next_in_block B f it fm r rest blocks HB Hinv) as (Hhas & it' & Hnext & Hinv').
    cbn [drain]. rewrite Hhas, Hnext.
    rewrite (IH it' fm fuel Hinv') by (simpl in Hfuel; lia). reflexivity.
Qed.

Lemma drain_spec B f blocks :
  8 <= B <= 2147483643 -> Z.of_nat (length blocks) <= 2147483646 ->
  forall rest it fm fuel,
    it_inv B f it fm rest blocks ->
    (length (iter_order blocks rest) < fuel)%nat ->
    drain fuel it fm = (map Ok (iter_order blocks rest), true).
Proof.
  intros HB. unfold iter_order.
  induction blocks as [|last blocks IH] using rev_ind; intros HN.
  - apply drain_in_block; [lia|]. intros it fm fuel Hinv Hfuel.
    destruct fuel as [|fuel]; [simpl in Hfuel; lia|].
    cbn [drain]. rewrite (HasNext_exhausted B f it fm Hinv). reflexivity.
  - rewrite length_app in HN. cbn [length] in HN.
    apply drain_in_block; [lia|]. intros it fm fuel Hinv Hfuel.
    rewrite rev_app_distr in *. cbn [rev app concat] in *.
    destruct fuel as [|fuel]; [lia|].
    destruct (Next_previous_block B f it fm blocks last HB ltac:(lia) Hinv)
      as (Hhas & r & rest & it' & fm' & -> & Hnext & Hinv').
    cbn [drain]. rewrite Hhas, Hnext.
    rewrite (IH ltac:(lia) rest it' fm' fuel Hinv')
      by (cbn [app length] in Hfuel; lia).
    reflexivity.
Qed.

(** X19.  The iterator where [IntSize] is 4 (386, arm).  On a new log
    file, after the records [records] are appended in that order (each
    fitting in an empty block), an iterator delivers them newest first,
    each as it was appended, and is then exhausted. *)
Theorem Iterator_reverses_appends_32 B records :
  8 <= B <= 2147483643 ->
  Forall (fun r => len r + 8 <= B) records ->
  Z.of_nat (length records) <= 2147483645 ->
  exists m fm it m' fm',
    new_log_with B records = Ok (m, fm)
    /\ log.Iterator_ m fm = Ok (it, m', fm')
    /\ drain (S (length records)) it fm' = (map Ok (rev records), true).
Proof.
  intros HB Hfit HN. unfold new_log_with.
  destruct (NewManager_fresh B "testlog" HB) as (m0 & fm0 & Hnew & Hf0 & Hinv0).
  rewrite Hnew. ok_step.
  destruct (append_all_inv B records HB Hfit m0 fm0 [] [] ltac:(cbn [length]; lia) Hinv0)
    as (m & fm & blocks & cur & Happ & Hf & Hinv & Hord).
  rewrite Happ. unfold iter_order in Hord at 2. cbn [rev concat app] in Hord.
  rewrite app_nil_r in Hord.
  assert (Hcount : length (iter_order blocks cur) = length records).
  { rewrite Hord. apply length_rev. }
  assert (Hblocks : (length blocks <= length records)%nat).
  { rewrite <- Hcount. unfold iter_order. rewrite length_app.
    assert (Hle : (length (rev blocks) <= length (concat (rev blocks)))%nat).
    { destruct Hinv as (_ & _ & _ & Hdisk & _).
      assert (Hall : Forall (fun rs => rs <> []) (rev blocks)).
      { apply List.Forall_rev. apply Forall_lookup. intros j rs Hj.
        apply (Hdisk j rs Hj). }
      clear -Hall. induction Hall as [|rs l Hne _ IH]; [simpl; lia|].
      cbn [concat length]. rewrite length_app.
      destruct rs; [congruence|]. cbn [length]. lia. }
    rewrite length_rev in Hle. lia. }
  destruct (Iterator_ok B m fm blocks cur HB ltac:(lia) Hinv) as (it & m' & fm' & Hit & Hinv').
  exists m, fm, it, m', fm'. split; [reflexivity|]. split; [exact Hit|].
  rewrite <- Hord.
  apply (drain_spec B (log.logFile m) blocks HB ltac:(lia) cur it fm' _ Hinv').
  rewrite Hcount. lia.
Qed.

End LogManager32.

(** The repository's test on 386: the iterator yields the 100 records,
    newest first, and is then exhausted. *)
Section LogTest386.
#[local] Existing Instance goarch_386.

Example log_test_386 : log_test = Ok (map Ok (rev test_records), true).
Proof. vm_compute. reflexivity. Qed.

End LogTest386.

(** ** Pages on a platform with 8-byte ints *)

Section Pages64.
Context `{Platform} (H64 : is_386_or_arm = false).

Lemma IntSize_64 : IntSize = 8.
Proof. unfold IntSize. rewrite H64. reflexivity. Qed.

Lemma int_bits_64 : int_bits = 64.
Proof. unfold int_bits. rewrite H64. reflexivity. Qed.

Lemma wrap_small_64 z :
  -9223372036854775808 <= z <= 9223372036854775807 -> wrap_int z = z.
Proof.
  intros. apply wrap_int_small. unfold MaxInt, MinInt. rewrite int_bits_64.
  change (2 ^ (64 - 1)) with 9223372036854775808. lia.
Qed.

Lemma GetInt_64 p off :
  0 <= off -> off + 8 <= len (file.buffer p) ->
  file.GetInt p off
  = Ok (wrap_int (be_decode (window (file.buffer p) (Z.to_nat off) 8))).
Proof.
  intros H0 H8. unfold file.GetInt. rewrite slice_from_ok by lia.
  rewrite H64. change (Ok ?x ≫= ?f) with (f x). cbv beta.
  unfold Uint. rewrite bool_decide_eq_true_2; [reflexivity|].
  rewrite len_drop. lia.
Qed.

Lemma SetInt_64 p off v :
  0 <= off -> off + 8 <= len (file.buffer p) ->
  file.SetInt p off v
  = Ok (file.mkPage (overwrite (file.buffer p) (Z.to_nat off) (be_encode 8 (v mod 2 ^ 64)))).
Proof.
  intros H0 H8. unfold file.SetInt. rewrite H64. unfold PutUint.
  rewrite slice_from_ok by lia. change (Ok ?x ≫= ?f) with (f x). cbv beta.
  rewrite bool_decide_eq_true_2; [reflexivity|]. rewrite len_drop. lia.
Qed.

Lemma byte_of_Z_high v k : 0 <= v < 2 ^ 32 -> 32 <= k -> byte_of_Z (Z.shiftr v k) = Byte.x00.
Proof.
  intros Hv Hk. rewrite Z.shiftr_div_pow2 by lia.
  rewrite Z.div_small; [reflexivity|].
  split; [lia|]. apply Z.lt_le_trans with (2 ^ 32); [lia|].
  apply Z.pow_le_mono_r; lia.
Qed.

Lemma be_encode_8_small v :
  0 <= v < 2 ^ 32 ->
  exists a b c d,
    be_encode 8 v = [Byte.x00; Byte.x00; Byte.x00; Byte.x00; a; b; c; d].
Proof.
  intros Hv. cbn [be_encode].
  rewrite !(byte_of_Z_high v) by (assumption || lia). eauto 10.
Qed.

End Pages64.

(** ** The log block layout on a platform with 8-byte ints *)

Section Amd64.
#[local] Existing Instance goarch_amd64.

(** C1, at a concrete input.  On amd64 ([IntSize] = 8) a new log with
    block size 400 receives the 12-byte record "Log record 1".  Append
    succeeds and returns LSN 1, but it reserves [12 + 4] bytes, not
    [12 + IntSize]: the boundary becomes 384 (not 400 - 20 = 380), the
    8-byte length prefix fills [384, 392), and only the first 8 bytes
    of the record fit before the end of the block: the record is not
    in the page, and reading it back at the boundary panics. *)
Theorem Append_amd64_truncates_record :
  exists m fm,
    new_log_with 400 [log_record_1] = Ok (m, fm)
    /\ log.latestLSN m = 1
    /\ file.GetInt (log.logPage m) 0 = Ok 384
    /\ 384 <> 400 - (len log_record_1 + IntSize)
    /\ drop 392 (file.Contents (log.logPage m)) = take 8 log_record_1
    /\ file.GetBytes (log.logPage m) 384 = Panic.
Proof.
  eexists _, _. split; [vm_compute; reflexivity|].
  split; [vm_compute; reflexivity|].
  split; [vm_compute; reflexivity|].
  split; [vm_compute; discriminate|].
  split; vm_compute; reflexivity.
Qed.

(** C2, at the first record of the repository's own test.  On amd64,
    block size 4096, one record appended: the iterator is created, reports
    [HasNext], and its first [Next] panics (slice bounds out of range
    in [GetBytes]) instead of yielding the record. *)
Theorem Iterator_amd64_panics :
  exists m fm it m' fm',
    new_log_with 4096 [log_record_1] = Ok (m, fm)
    /\ log.Iterator_ m fm = Ok (it, m', fm')
    /\ log.HasNext it fm' = true
    /\ log.Next it fm' = Panic
    /\ drain 2 it fm' = ([Panic], false).
Proof.
  eexists _, _, _, _, _.
  split; [vm_compute; reflexivity|].
  split; [vm_compute; reflexivity|].
  split; [vm_compute; reflexivity|].
  split; vm_compute; reflexivity.
Qed.

(** The repository's test as a whole, on amd64: the 100 appends
    succeed, the iterator yields the last record, whose bytes were the
    last to be written, and the second [Next] panics: the length prefix
    of "Log record 99" was overwritten by the end of "Log record 100". *)
Example log_test_amd64 :
  log_test = Ok ([Ok (String.list_byte_of_string "Log record 100"); Panic], false).
Proof. vm_compute. reflexivity. Qed.

(** C3, at a concrete input.  On amd64 the Start record of transaction
    1 is 16 bytes whose second [SetInt], at offset 4 instead of
    [IntSize], overwrites the low half of the tag: the bytes decode as
    a Checkpoint record, whose transaction number is -1; read as a
    Start record they give transaction number 2^32. *)
Theorem StartRecord_amd64_decodes_as_Checkpoint :
  exists bytes,
    tx.StartBytes 1 = Ok bytes
    /\ len bytes = 16
    /\ tx.CreateLogRecord bytes = Ok tx.CheckpointRecord
    /\ tx.TxNumber tx.CheckpointRecord = -1
    /\ tx.NewStartRecord (file.NewPageFromBytes bytes) = Ok (tx.StartRecord 4294967296).
Proof.
  eexists. split; [vm_compute; reflexivity|].
  split; [vm_compute; reflexivity|].
  split; [vm_compute; reflexivity|].
  split; vm_compute; reflexivity.
Qed.

End Amd64.

(** ** The Start record on either kind of platform *)

Section Codec32.
Context `{Platform} (H32 : is_386_or_arm = true).

Lemma be_encode_4 v : exists a b c d, be_encode 4 v = [a; b; c; d].
Proof. cbn [be_encode]. eauto. Qed.

Lemma make_bytes_8 : make_bytes 8 = Ok (replicate 8 Byte.x00).
Proof. reflexivity. Qed.

(** X13.  Where [IntSize] is 4 the Start record is the 4-byte tag 1
    followed by the transaction number, and decoding gives the number
    back. *)
Lemma StartRecord_roundtrip_32 t :
  MinInt <= t <= MaxInt ->
  exists bytes,
    tx.StartBytes t = Ok bytes
    /\ bytes = be_encode 4 1 ++ be_encode 4 (t mod 2 ^ 32)
    /\ tx.CreateLogRecord bytes = Ok (tx.StartRecord t).
Proof.
  rewrite (MaxInt_32 H32), (MinInt_32 H32). intros Ht.
  pose proof (decode_encode_32 H32 t Ht) as Hdec.
  destruct (be_encode_4 (t mod 2 ^ 32)) as (a & b & c & d & He).
  rewrite He in *.
  exists ([Byte.x00; Byte.x00; Byte.x00; Byte.x01] ++ [a; b; c; d]).
  assert (Hs : tx.StartBytes t = Ok ([Byte.x00; Byte.x00; Byte.x00; Byte.x01] ++ [a; b; c; d])).
  { unfold tx.StartBytes. rewrite (IntSize_32 H32). unfold int_mul.
    rewrite (wrap_small_32 H32) by lia. change (2 * 4) with 8. rewrite make_bytes_8.
    change (Ok ?x ≫= ?f) with (f x). cbv beta.
    rewrite (SetInt_32 H32) by (vm_compute; discriminate).
    change (Ok ?x ≫= ?f) with (f x). cbv beta.
    rewrite (SetInt_32 H32) by (vm_compute; discriminate).
    change (Ok ?x ≫= ?f) with (f x). cbv beta. rewrite He. reflexivity. }
  split; [exact Hs|]. split; [reflexivity|].
  unfold tx.CreateLogRecord.
  rewrite (GetInt_32 H32) by (vm_compute; discriminate).
  change (Ok ?x ≫= ?f) with (f x). cbv beta.
  change (be_decode _) with 1. rewrite (wrap_small_32 H32) by lia.
  change (tx.FromCode 1) with (Ok tx.Start).
  change (Ok ?x ≫= ?f) with (f x). cbv beta iota.
  unfold tx.NewStartRecord. rewrite (IntSize_32 H32). unfold int_add.
  rewrite (wrap_small_32 H32) by lia.
  rewrite (GetInt_32 H32) by (vm_compute; discriminate).
  change (Ok ?x ≫= ?f) with (f x). cbv beta.
  change (window _ _ _) with [a; b; c; d]. rewrite Hdec. reflexivity.
Qed.

End Codec32.

Section Codec64.
Context `{Platform} (H64 : is_386_or_arm = false).

(** Where [IntSize] is 8, the Start record of every transaction number
    below 2^32 reads back as a Checkpoint record. *)
Lemma StartRecord_misread_64 t :
  0 <= t < 2 ^ 32 ->
  exists bytes,
    tx.StartBytes t = Ok bytes
    /\ tx.CreateLogRecord bytes = Ok tx.CheckpointRecord.
Proof.
  intros Ht.
  destruct (be_encode_8_small (t mod 2 ^ 64)) as (a & b & c & d & He).
  { rewrite Z.mod_small; lia. }
  set (z := Byte.x00).
  exists [z; z; z; z; z; z; z; z; a; b; c; d; z; z; z; z].
  assert (Hs : tx.StartBytes t = Ok [z; z; z; z; z; z; z; z; a; b; c; d; z; z; z; z]).
  { unfold tx.StartBytes. rewrite (IntSize_64 H64). unfold int_mul.
    rewrite (wrap_small_64 H64) by lia. change (make_bytes (2 * 8)) with (Ok (replicate 16 z)).
    change (Ok ?x ≫= ?f) with (f x). cbv beta.
    rewrite (SetInt_64 H64) by (vm_compute; discriminate).
    change (Ok ?x ≫= ?f) with (f x). cbv beta.
    rewrite (SetInt_64 H64) by (vm_compute; discriminate).
    change (Ok ?x ≫= ?f) with (f x). cbv beta. rewrite He. reflexivity. }
  split; [exact Hs|].
  unfold tx.CreateLogRecord.
  rewrite (GetInt_64 H64) by (vm_compute; discriminate).
  change (Ok ?x ≫= ?f) with (f x). cbv beta.
  change (be_decode _) with 0. rewrite (wrap_small_64 H64) by lia.
  reflexivity.
Qed.

End Codec64.

(** ** Recovery *)

Section RecoveryProperties.
Context `{Platform}.

Lemma contains_list_to_set (fin : list Z) (t : Z) :
  tx.contains fin t = bool_decide (t ∈ (list_to_set fin : gset Z)).
Proof.
  unfold tx.contains. induction fin as [|x fin IH]; simpl.
  - symmetry. apply bool_decide_eq_false. set_solver.
  - rewrite IH. destruct (decide (x = t)) as [->|Hne].
    + rewrite bool_decide_eq_true_2 by reflexivity. simpl.
      symmetry. apply bool_decide_eq_true. set_solver.
    + rewrite (bool_decide_eq_false_2 (x = t)) by assumption. simpl.
      apply bool_decide_ext. set_solver.
Qed.

Lemma list_to_set_snoc (fin : list Z) (t : Z) :
  (list_to_set (fin ++ [t]) : gset Z) = {[t]} ∪ list_to_set fin.
Proof. rewrite list_to_set_app_L. simpl. set_solver. Qed.

(** The loop of doRecover has the effect of undoing, in log order,
    the update records that precede the first Checkpoint record and
    whose transaction number was not read from a Commit or Rollback
    record met earlier in the scan. *)
Lemma doRecover_loop_spec iter records :
  delivers iter records ->
  forall fin t db,
    tx.doRecover_loop fin iter t db
    = tx.undo_each (tx.records_to_undo (list_to_set fin) records) t db.
Proof.
  induction 1 as [|next r iter records (bytes & -> & Hdec) _ IH]; intros fin t db.
  - reflexivity.
  - cbn [tx.doRecover_loop tx.records_to_undo]. rewrite Hdec.
    change (Ok r ≫= ?f) with (f r). cbv beta.
    rewrite contains_list_to_set.
    destruct r; cbn [tx.Op tx.is_update tx.TxNumber];
      repeat (rewrite bool_decide_eq_true_2 by reflexivity);
      repeat (rewrite bool_decide_eq_false_2 by discriminate);
      cbn [orb andb negb];
      try reflexivity;
      try (rewrite IH, list_to_set_snoc; reflexivity);
      destruct (bool_decide _); cbn [negb tx.Undo tx.undo_each];
        try (apply IH);
        try (change (Ok (t, db) ≫= ?f) with (f (t, db)); apply IH).
    all: destruct (tx.undoWith _ _ _ _) as [[t' db']| |]; try reflexivity; apply IH.
Qed.

(** C5.  An error of the iterator's [Next] ends doRecover with a nil
    error: the transaction and the database are as they were before
    the call, and nothing tells the caller.  doRollback returns the
    same error. *)
Lemma doRecover_swallows_Next_error e rest fin t db :
  tx.doRecover_loop fin (Error e :: rest) t db = Ok (t, db).
Proof. reflexivity. Qed.

Lemma doRollback_returns_Next_error e rest t db :
  tx.doRollback_loop (Error e :: rest) t db = Error e.
Proof. reflexivity. Qed.

End RecoveryProperties.

Section RecoveryAmd64.
#[local] Existing Instance goarch_amd64.

(** C4, on amd64, at a freshly booted database with an empty log.
    The scan of doRecover ends at once and the buffers are flushed,
    but [WriteCheckpointToLog] panics: it makes a record of 4 bytes and
    [SetInt] stores 8.  Recover ends in that panic, and so does
    Transaction.Recover: no Checkpoint record is appended and none is
    flushed.  The same holds for every log, transaction and database
    on this platform: Recover never returns normally. *)
Theorem Recover_amd64_panics_at_the_checkpoint :
  is_Ok boot = true
  /\ log_of booted.2 = Ok ([], true)
  /\ tx.doRecover booted.1 booted.2 (Ok []) = Ok booted
  /\ tx.Db_FlushAll booted.2 (tx.txNum booted.1) = Ok booted.2
  /\ tx.WriteCheckpointToLog (tx.logManager booted.2) (tx.fileManager booted.2) = Panic
  /\ tx.RecoveryManager_Recover booted.1 booted.2 (Ok []) = Panic
  /\ tx.Transaction_Recover booted.1 booted.2 (Ok []) = Panic
  /\ (forall t db iterator, is_Ok (tx.RecoveryManager_Recover t db iterator) = false).
Proof.
  split; [vm_compute; reflexivity|].
  split; [vm_compute; reflexivity|].
  split; [vm_compute; reflexivity|].
  split; [vm_compute; reflexivity|].
  split; [vm_compute; reflexivity|].
  split; [vm_compute; reflexivity|].
  split; [vm_compute; reflexivity|].
  assert (Hc : tx.CheckpointBytes = Panic) by (vm_compute; reflexivity).
  intros t db iterator. unfold tx.RecoveryManager_Recover.
  destruct (tx.doRecover t db iterator) as [[t' db']| |]; try reflexivity.
  change (Ok (t', db') ≫= ?f) with (f (t', db')). cbv beta iota.
  destruct (tx.Db_FlushAll db' (tx.txNum t')) as [db''| |]; [|reflexivity|reflexivity].
  change (Ok db'' ≫= ?f) with (f db''). cbv beta.
  unfold tx.writeAndFlush, tx.WriteCheckpointToLog, tx.append_record.
  rewrite Hc. reflexivity.
Qed.

End RecoveryAmd64.


Section Recovery386.
#[local] Existing Instance goarch_386.

(** Where ints have 4 bytes, on the log of [demo_iter]: recovery
    restores the two values of the unfinished transactions 2 and 3 and
    succeeds. *)
Example Recover_demo :
  map (fun next => next ≫= tx.CreateLogRecord) demo_iter = map Ok demo_records
  /\ tx.records_to_undo ∅ demo_records
     = [tx.SetIntRecord 2 8 7 data0; tx.SetIntRecord 3 24 11 data0]
  /\ is_Ok (tx.RecoveryManager_Recover booted.1 booted.2 (Ok demo_iter)) = true.
Proof.
  split; [vm_compute; reflexivity|].
  split; [vm_compute; reflexivity | vm_compute; reflexivity].
Qed.

(** There the checkpoint is written, but the scan takes the tag of a
    Rollback record for its transaction number ([NewRollbackRecord]
    reads at [operationPos * utils.IntSize]).
    With the Rollback record of transaction 5 in the log, doRecover
    notes transaction 3 as finished: it undoes the update of the
    rolled-back transaction 5 and leaves the update of the unfinished
    transaction 3 in place. *)
Example Recover_386_takes_the_tag_of_a_Rollback_record :
  map (fun next => next ≫= tx.CreateLogRecord) rolled_back_iter
  = [ Ok (tx.RollbackRecord 3); Ok (tx.SetIntRecord 5 8 7 data0);
      Ok (tx.SetIntRecord 3 24 11 data0) ]
  /\ tx.doRecover booted.1 booted.2 (Ok rolled_back_iter)
     = tx.Undo (tx.SetIntRecord 5 8 7 data0) booted.1 booted.2
  /\ is_Ok (tx.doRecover booted.1 booted.2 (Ok rolled_back_iter)) = true
  /\ tx.doRecover booted.1 booted.2 (Ok rolled_back_iter)
     <> tx.Undo (tx.SetIntRecord 3 24 11 data0) booted.1 booted.2.
Proof.
  split; [vm_compute; reflexivity|].
  split; [vm_compute; reflexivity|].
  split; [vm_compute; reflexivity|].
  vm_compute. discriminate.
Qed.

(** C5, at a concrete input.  The first [Next] of the iterator fails
    with a read error.  doRecover returns nil, and so does Recover,
    after writing its checkpoint: the caller sees a recovery that
    succeeded.  The loop of doRollback returns the error. *)
Theorem Recover_returns_nil_on_Next_error :
  let failing := [Error "failed to move to block :failed to read block: "] in
  tx.doRecover booted.1 booted.2 (Ok failing) = Ok booted
  /\ is_Ok (tx.RecoveryManager_Recover booted.1 booted.2 (Ok failing)) = true
  /\ is_Ok (tx.Transaction_Recover booted.1 booted.2 (Ok failing)) = true
  /\ is_Error (tx.doRollback booted.1 booted.2 (Ok failing)) = true.
Proof.
  cbv zeta.
  split; [vm_compute; reflexivity|].
  split; [vm_compute; reflexivity|].
  split; vm_compute; reflexivity.
Qed.

End Recovery386.



(** ** The lock table *)

Section LockTableProperties.
Context `{Platform}.

(** A call that succeeds after waiting succeeds on one of the tables it
    has seen. *)
Lemma SLock_granted_at lt blk wakeups lt' :
  concurrency.SLock lt blk wakeups = Ok lt' ->
  exists lt0, In lt0 (lt :: wakeups) /\ concurrency.SLock lt0 blk [] = Ok lt'.
Proof.
  revert lt. induction wakeups as [|w ws IH]; intros lt Hs.
  - exists lt. split; [left; reflexivity | exact Hs].
  - simpl in Hs. destruct (negb (concurrency.hasXLock lt blk)) eqn:Hx.
    + exists lt. split; [left; reflexivity|]. simpl. rewrite Hx. exact Hs.
    + destruct (IH w Hs) as (lt0 & Hin & H0). exists lt0. split; [right; exact Hin | exact H0].
Qed.

Lemma XLock_granted_at lt blk wakeups lt' :
  concurrency.XLock lt blk wakeups = Ok lt' ->
  exists lt0, In lt0 (lt :: wakeups) /\ concurrency.XLock lt0 blk [] = Ok lt'.
Proof.
  revert lt. induction wakeups as [|w ws IH]; intros lt Hs.
  - exists lt. split; [left; reflexivity | exact Hs].
  - simpl in Hs. destruct (negb (concurrency.hasOtherSLocks lt blk)) eqn:Hx.
    + exists lt. split; [left; reflexivity|]. simpl. rewrite Hx. exact Hs.
    + destruct (IH w Hs) as (lt0 & Hin & H0). exists lt0. split; [right; exact Hin | exact H0].
Qed.

Lemma getLockVal_within n lt blk :
  counters_within n lt -> 0 <= n ->
  concurrency.getLockVal lt blk = -1 \/ 0 <= concurrency.getLockVal lt blk <= n.
Proof.
  intros Hw Hn. unfold concurrency.getLockVal.
  destruct (concurrency.locks lt !! blk) as [v|] eqn:Hv; simpl; [|lia].
  destruct (Hw _ _ Hv); lia.
Qed.

Lemma granted_within n lt lt' :
  0 <= n -> n + 1 <= MaxInt ->
  counters_within n lt -> granted lt lt' -> counters_within (n + 1) lt'.
Proof.
  intros Hn Hmax Hw Hg. pose proof MinInt_neg as Hmin.
  destruct Hg as [lt blk lt' Hs | lt blk lt' Hx | lt blk]; intros b v Hb.
  - simpl in Hs. unfold concurrency.hasXLock in Hs.
    destruct (getLockVal_within n lt blk Hw Hn) as [Hv|Hv].
    + rewrite Hv in Hs. simpl in Hs. discriminate.
    + case_bool_decide; simpl in Hs; [lia|]. injection Hs as <-. simpl in Hb.
      destruct (decide (blk = b)) as [->|Hne].
      * rewrite lookup_insert_eq in Hb. injection Hb as <-.
        unfold int_add. rewrite wrap_int_small by lia. lia.
      * rewrite lookup_insert_ne in Hb by assumption.
        destruct (Hw _ _ Hb); lia.
  - simpl in Hx. destruct (negb _); [|discriminate]. injection Hx as <-. simpl in Hb.
    destruct (decide (blk = b)) as [->|Hne].
    + rewrite lookup_insert_eq in Hb. injection Hb as <-. left; reflexivity.
    + rewrite lookup_insert_ne in Hb by assumption. destruct (Hw _ _ Hb); lia.
  - unfold concurrency.Unlock in Hb.
    destruct (getLockVal_within n lt blk Hw Hn) as [Hv|Hv];
      case_bool_decide; simpl in Hb; try lia;
      destruct (decide (blk = b)) as [->|Hne];
      rewrite ?lookup_insert_eq, ?lookup_delete_eq in Hb;
      rewrite ?lookup_insert_ne, ?lookup_delete_ne in Hb by assumption;
      try discriminate;
      try (destruct (Hw _ _ Hb); lia).
    injection Hb as <-. unfold int_sub. rewrite wrap_int_small by lia. lia.
Qed.

Lemma reachable_within n lt :
  reachable n lt -> Z.of_nat n <= MaxInt -> counters_within (Z.of_nat n) lt.
Proof.
  induction 1 as [|n lt lt' _ IH Hg]; intros Hmax.
  - intros blk v Hv. simpl in Hv. rewrite lookup_empty in Hv. discriminate.
  - replace (Z.of_nat (S n)) with (Z.of_nat n + 1) in * by lia.
    apply (granted_within (Z.of_nat n) lt lt'); [lia | lia | apply IH; lia | exact Hg].
Qed.

(** C6.  In every lock table reached from a new one by successful
    SLock, XLock and Unlock calls (fewer than the largest [int], which no
    run of the program can exceed), the entry of every block is absent,
    -1, or strictly positive; none is zero. *)
Theorem LockTable_entries_never_zero n lt :
  reachable n lt -> Z.of_nat n <= MaxInt ->
  forall blk, entry_ok (concurrency.locks lt !! blk)
              /\ concurrency.locks lt !! blk <> Some 0.
Proof.
  intros Hr Hmax blk. pose proof (reachable_within n lt Hr Hmax) as Hw.
  destruct (concurrency.locks lt !! blk) as [v|] eqn:Hv.
  - destruct (Hw _ _ Hv) as [->|Hpos].
    + split; [right; left; reflexivity | discriminate].
    + split; [right; right; exists v; split; [reflexivity | lia] |].
      intros [= ->]. lia.
  - split; [left; reflexivity | discriminate].
Qed.

(** Whatever the number of calls, wrap-around included, no entry is
    ever zero. *)
Lemma LockTable_entries_nonzero n lt :
  reachable n lt ->
  forall blk v, concurrency.locks lt !! blk = Some v -> v <> 0 /\ MinInt <= v <= MaxInt.
Proof.
  pose proof MaxInt_pos as Hmax. pose proof MinInt_neg as Hmin.
  induction 1 as [|n lt lt' _ IH Hg]; intros b v Hb.
  - simpl in Hb. rewrite lookup_empty in Hb. discriminate.
  - assert (Hval : forall blk, MinInt <= concurrency.getLockVal lt blk <= MaxInt).
    { intros blk. unfold concurrency.getLockVal.
      destruct (concurrency.locks lt !! blk) as [w|] eqn:Hw; simpl; [|lia].
      apply (IH _ _ Hw). }
    destruct Hg as [lt blk lt' Hs | lt blk lt' Hx | lt blk].
    + simpl in Hs. unfold concurrency.hasXLock in Hs.
      case_bool_decide; simpl in Hs; [discriminate|]. injection Hs as <-. simpl in Hb.
      destruct (decide (blk = b)) as [->|Hne].
      * rewrite lookup_insert_eq in Hb. injection Hb as <-.
        split; [|apply wrap_int_range]. unfold int_add.
        destruct (decide (concurrency.getLockVal lt b = MaxInt)) as [He|He].
        -- rewrite He. unfold wrap_int, wrap_signed, MaxInt.
           destruct int_bits_cases as [-> | ->]; vm_compute; discriminate.
        -- specialize (Hval b). rewrite wrap_int_small by lia. lia.
      * rewrite lookup_insert_ne in Hb by assumption. apply (IH _ _ Hb).
    + simpl in Hx. destruct (negb _); [|discriminate]. injection Hx as <-. simpl in Hb.
      destruct (decide (blk = b)) as [->|Hne].
      * rewrite lookup_insert_eq in Hb. injection Hb as <-. lia.
      * rewrite lookup_insert_ne in Hb by assumption. apply (IH _ _ Hb).
    + unfold concurrency.Unlock in Hb. specialize (Hval blk).
      case_bool_decide; simpl in Hb;
        destruct (decide (blk = b)) as [->|Hne];
        rewrite ?lookup_insert_eq, ?lookup_delete_eq in Hb;
        rewrite ?lookup_insert_ne, ?lookup_delete_ne in Hb by assumption;
        try discriminate; try (apply (IH _ _ Hb)).
      injection Hb as <-. unfold int_sub. rewrite wrap_int_small by lia. lia.
Qed.

(** C7.  XLock on a block with no entry succeeds at once, whatever the
    wake-ups that would have followed, and sets the entry to -1: the
    table does not check that the caller holds a shared lock. *)
Theorem XLock_on_unlocked_block lt blk wakeups :
  concurrency.locks lt !! blk = None ->
  concurrency.XLock lt blk wakeups
  = Ok (concurrency.mkLockTable (<[blk := -1]> (concurrency.locks lt))).
Proof.
  intros Hnone.
  assert (Hh : concurrency.hasOtherSLocks lt blk = false).
  { unfold concurrency.hasOtherSLocks, concurrency.getLockVal. rewrite Hnone. reflexivity. }
  destruct wakeups; simpl; rewrite Hh; reflexivity.
Qed.

End LockTableProperties.

Section LockTable386.
#[local] Existing Instance goarch_386.

Lemma two_readers_reachable :
  reachable 2 (concurrency.mkLockTable (<[data0 := 2]> ∅)).
Proof.
  apply (reachable_call 1 (concurrency.mkLockTable (<[data0 := 1]> ∅))).
  - apply (reachable_call 0 concurrency.NewLockTable); [apply reachable_new|].
    apply (granted_SLock _ data0). vm_compute. reflexivity.
  - apply (granted_SLock _ data0). vm_compute. reflexivity.
Defined.

Lemma LockTable_entries_never_zero_witness :
  entry_ok (concurrency.locks (concurrency.mkLockTable (<[data0 := 2]> ∅)) !! data0)
  /\ concurrency.locks (concurrency.mkLockTable (<[data0 := 2]> ∅)) !! data0 <> Some 0.
Proof.
  apply (LockTable_entries_never_zero 2 _ two_readers_reachable).
  vm_compute. discriminate.
Defined.

Lemma XLock_on_unlocked_block_witness :
  concurrency.XLock concurrency.NewLockTable data0 []
  = Ok (concurrency.mkLockTable (<[data0 := -1]> ∅)).
Proof.
  apply (XLock_on_unlocked_block concurrency.NewLockTable data0 []).
  vm_compute. reflexivity.
Defined.

End LockTable386.


(** ** The buffer list *)

Section BufferListProperties.
Context `{Platform}.

Lemma BufferList_Unpin_absent bl bm blk :
  tx.buffers bl !! blk = None ->
  tx.BufferList_Unpin bl bm blk = (bl, bm).
Proof. intros Hnone. unfold tx.BufferList_Unpin. rewrite Hnone. reflexivity. Qed.

(** C9.  Unpin of a block that is not in the transaction's buffer list
    (never pinned, or unpinned as often as it was pinned) returns and
    changes nothing: the transaction and its buffer list, the pool with
    the pin count of every frame, and the count of available frames are
    as before. *)
Theorem Unpin_of_unpinned_block t db blk :
  tx.buffers (tx.myBuffers t) !! blk = None ->
  tx.Unpin t db blk = (t, db)
  /\ tx.BufferList_Unpin (tx.myBuffers t) (tx.bufferManager db) blk
     = (tx.myBuffers t, tx.bufferManager db).
Proof.
  intros Hnone. split; [|apply BufferList_Unpin_absent; exact Hnone].
  unfold tx.Unpin. rewrite BufferList_Unpin_absent by exact Hnone.
  destruct t, db; reflexivity.
Qed.

(** Releasing the last reference removes the block from the list, so a
    further Unpin is one of those above. *)
Lemma Unpin_last_reference t db blk pinned :
  tx.buffers (tx.myBuffers t) !! blk = Some pinned ->
  tx.refCount pinned = 1 ->
  tx.buffers (tx.myBuffers (tx.Unpin t db blk).1) !! blk = None
  /\ tx.Unpin (tx.Unpin t db blk).1 (tx.Unpin t db blk).2 blk = tx.Unpin t db blk.
Proof.
  intros Hsome Hone.
  assert (Hgone : tx.buffers (tx.myBuffers (tx.Unpin t db blk).1) !! blk = None).
  { unfold tx.Unpin, tx.BufferList_Unpin. rewrite Hsome. cbn [tx.refCount].
    rewrite Hone. unfold int_sub. pose proof MaxInt_pos. pose proof MinInt_neg.
    rewrite wrap_int_small by lia.
    rewrite bool_decide_eq_true_2 by lia. simpl. apply lookup_delete_eq. }
  split; [exact Hgone|].
  destruct (tx.Unpin t db blk) as [t' db'] eqn:Hu. simpl in *.
  unfold tx.Unpin. rewrite BufferList_Unpin_absent by exact Hgone.
  destruct t', db'; reflexivity.
Qed.

End BufferListProperties.

(** ** Buffers: the modifying transaction and the LSN *)

Section BufferProperties.
Context `{Platform}.

Lemma SetModified_txnNum b t l : buffer.txnNum (buffer.SetModified b t l) = t.
Proof. unfold buffer.SetModified. case_bool_decide; reflexivity. Qed.

Lemma SetModified_lsn b t l :
  buffer.lsn (buffer.SetModified b t l) = if bool_decide (l >= 0) then l else buffer.lsn b.
Proof. unfold buffer.SetModified. case_bool_decide; reflexivity. Qed.

Lemma SetModified_frame b t l :
  buffer.contents (buffer.SetModified b t l) = buffer.contents b
  /\ buffer.block (buffer.SetModified b t l) = buffer.block b
  /\ buffer.pins (buffer.SetModified b t l) = buffer.pins b.
Proof. unfold buffer.SetModified. case_bool_decide; auto. Qed.

Lemma stamp_all_snoc b calls c :
  stamp_all b (calls ++ [c]) = buffer.SetModified (stamp_all b calls) c.1 c.2.
Proof. unfold stamp_all. rewrite fold_left_app. reflexivity. Qed.

Lemma logged_lsns_snoc calls c :
  logged_lsns (calls ++ [c])
  = logged_lsns calls ++ (if bool_decide (c.2 >= 0) then [c.2] else []).
Proof.
  unfold logged_lsns. rewrite map_app, List.filter_app. simpl.
  destruct (bool_decide (c.2 >= 0)); reflexivity.
Qed.

Lemma StronglySorted_snoc_inv (l : list Z) (x : Z) :
  StronglySorted Z.le (l ++ [x]) -> StronglySorted Z.le l /\ Forall (fun y => y <= x) l.
Proof.
  induction l as [|a l IH]; simpl; intros Hs.
  - split; constructor.
  - inversion Hs as [|? ? Hs' Hall]; subst.
    destruct (IH Hs') as [Hl Hx]. split.
    + constructor; [exact Hl|]. apply Forall_app in Hall. apply Hall.
    + constructor; [|exact Hx]. apply Forall_app in Hall.
      destruct Hall as [_ Hall]. inversion Hall; subst. assumption.
Qed.

(** C10.  After any series of SetModified calls on a frame, the frame
    records the transaction of the last call, and its LSN is that of
    the last logged call (the LSN it had, if none was logged): the
    unlogged calls, which pass a negative LSN, leave it alone.  As the
    log manager issues LSNs in increasing order, the stored LSN, the one
    [flush] hands to the log, is never below the LSN of any logged
    modification made so far. *)
Theorem SetModified_keeps_logged_lsn b calls :
  StronglySorted Z.le (logged_lsns calls) ->
  let b' := stamp_all b calls in
  buffer.txnNum b' = List.last (map fst calls) (buffer.txnNum b)
  /\ buffer.lsn b' = List.last (logged_lsns calls) (buffer.lsn b)
  /\ Forall (fun l => l <= buffer.lsn b') (logged_lsns calls).
Proof.
  induction calls as [|c calls IH] using rev_ind; intros Hs b'.
  - repeat split. constructor.
  - subst b'. rewrite stamp_all_snoc, SetModified_txnNum, SetModified_lsn.
    rewrite map_app. change (map fst [c]) with [c.1].
    rewrite List.last_last. split; [reflexivity|].
    rewrite logged_lsns_snoc in *.
    case_bool_decide.
    + apply StronglySorted_snoc_inv in Hs as [Hs Hle].
      rewrite List.last_last. split; [reflexivity|].
      apply Forall_app. split; [exact Hle | constructor; [lia | constructor]].
    + rewrite app_nil_r in *. destruct (IH Hs) as (_ & Hl & Hall).
      split; [exact Hl | exact Hall].
Qed.

(** The flush of a dirty frame flushes the log at the stored LSN before
    it writes the page. *)
Lemma flush_uses_stored_lsn b lm fm r :
  buffer.txnNum b >= 0 ->
  buffer.flush b lm fm = Ok r ->
  exists lm' fm', log.Flush lm fm (buffer.lsn b) = Ok (lm', fm').
Proof.
  intros Hdirty Hf. unfold buffer.flush in Hf.
  rewrite bool_decide_eq_true_2 in Hf by assumption.
  destruct (log.Flush lm fm (buffer.lsn b)) as [[lm' fm']| |]; try discriminate.
  eauto.
Qed.

End BufferProperties.

Section Buffer386.
#[local] Existing Instance goarch_386.

Lemma Unpin_of_unpinned_block_witness :
  tx.Unpin booted.1 booted.2 data0 = (booted.1, booted.2)
  /\ tx.BufferList_Unpin (tx.myBuffers booted.1) (tx.bufferManager booted.2) data0
     = (tx.myBuffers booted.1, tx.bufferManager booted.2).
Proof.
  apply (Unpin_of_unpinned_block booted.1 booted.2 data0).
  vm_compute. reflexivity.
Defined.

(** A frame modified by logged writes with LSNs 3 and 5, then by an
    undo, which is not logged. *)
Lemma SetModified_keeps_logged_lsn_witness :
  let b := buffer.mkBuffer page_of_ones (Some data0) 1 (-1) (-1) in
  let b' := stamp_all b [(1, 3); (1, 5); (2, -1)] in
  buffer.txnNum b' = 2 /\ buffer.lsn b' = 5
  /\ Forall (fun l => l <= buffer.lsn b') [3; 5].
Proof.
  apply (SetModified_keeps_logged_lsn
           (buffer.mkBuffer page_of_ones (Some data0) 1 (-1) (-1))
           [(1, 3); (1, 5); (2, -1)]).
  repeat constructor; vm_compute; discriminate.
Defined.

End Buffer386.

(** ** Pages on every platform *)

Section PagesAny.
Context `{Platform}.

Lemma platform_cases :
  (is_386_or_arm = true /\ IntSize = 4 /\ int_bits = 32)
  \/ (is_386_or_arm = false /\ IntSize = 8 /\ int_bits = 64).
Proof. unfold IntSize, int_bits. destruct is_386_or_arm; auto. Qed.

Lemma IntSize_pos : 4 <= IntSize <= 8.
Proof. destruct platform_cases as [(_ & -> & _)|(_ & -> & _)]; lia. Qed.

Lemma IntSize_MaxInt : IntSize <= MaxInt.
Proof.
  pose proof MaxInt_pos. pose proof IntSize_pos. lia.
Qed.

Lemma length_int_bytes v : length (int_bytes v) = Z.to_nat IntSize.
Proof. apply length_be_encode. Qed.

Lemma len_int_bytes v : len (int_bytes v) = IntSize.
Proof. unfold len. rewrite length_int_bytes. pose proof IntSize_pos. lia. Qed.

Lemma GetInt_window p off :
  0 <= off -> off + IntSize <= len (file.buffer p) ->
  file.GetInt p off
  = Ok (wrap_int (be_decode (window (file.buffer p) (Z.to_nat off) (Z.to_nat IntSize)))).
Proof.
  intros H0 Hl.
  destruct platform_cases as [(Hp & Hs & _)|(Hp & Hs & _)]; rewrite Hs in *.
  - apply (GetInt_32 Hp); assumption.
  - apply (GetInt_64 Hp); assumption.
Qed.

Lemma SetInt_overwrite p off v :
  0 <= off -> off + IntSize <= len (file.buffer p) ->
  file.SetInt p off v
  = Ok (file.mkPage (overwrite (file.buffer p) (Z.to_nat off) (int_bytes v))).
Proof.
  intros H0 Hl. unfold int_bytes.
  destruct platform_cases as [(Hp & Hs & Hb)|(Hp & Hs & Hb)]; rewrite Hs, Hb in *.
  - apply (SetInt_32 Hp); assumption.
  - apply (SetInt_64 Hp); assumption.
Qed.

Lemma decode_int_bytes v :
  MinInt <= v <= MaxInt -> wrap_int (be_decode (int_bytes v)) = v.
Proof.
  intros Hv. unfold int_bytes. rewrite be_decode_encode.
  unfold wrap_int, wrap_signed, MinInt, MaxInt in *.
  destruct platform_cases as [(Hp & Hs & Hb)|(Hp & Hs & Hb)]; rewrite Hs, Hb in *.
  - change (256 ^ Z.of_nat (Z.to_nat 4)) with (2 ^ 32).
    rewrite Z.mod_mod by lia.
    change (2 ^ (32 - 1)) with 2147483648 in *. change (2 ^ 32) with 4294967296.
    rewrite Zplus_mod_idemp_l. rewrite Z.mod_small; lia.
  - change (256 ^ Z.of_nat (Z.to_nat 8)) with (2 ^ 64).
    rewrite Z.mod_mod by lia.
    change (2 ^ (64 - 1)) with 9223372036854775808 in *.
    change (2 ^ 64) with 18446744073709551616.
    rewrite Zplus_mod_idemp_l. rewrite Z.mod_small; lia.
Qed.

Lemma int_add_small x y : MinInt <= x + y <= MaxInt -> int_add x y = x + y.
Proof. apply wrap_int_small. Qed.

Lemma int_sub_small x y : MinInt <= x - y <= MaxInt -> int_sub x y = x - y.
Proof. apply wrap_int_small. Qed.

Lemma int_mul_small x y : MinInt <= x * y <= MaxInt -> int_mul x y = x * y.
Proof. apply wrap_int_small. Qed.

(** Out of bounds, the accessors panic. *)
Lemma GetInt_out_of_bounds p off :
  off < 0 \/ len (file.buffer p) < off + IntSize -> file.GetInt p off = Panic.
Proof.
  intros Hb. unfold file.GetInt, slice_from, slice.
  case_bool_decide as Hs; [|reflexivity].
  ok_step. unfold Uint.
  rewrite len_take, len_drop.
  destruct platform_cases as [(Hp & Hsz & _)|(Hp & Hsz & _)]; rewrite Hp; rewrite Hsz in *;
    rewrite bool_decide_eq_false_2 by lia; reflexivity.
Qed.

Lemma SetInt_out_of_bounds p off v :
  off < 0 \/ len (file.buffer p) < off + IntSize -> file.SetInt p off v = Panic.
Proof.
  intros Hb. unfold file.SetInt, PutUint, slice_from, slice.
  destruct platform_cases as [(Hp & Hsz & _)|(Hp & Hsz & _)]; rewrite Hp; rewrite Hsz in *.
  - case_bool_decide as Hs; [|reflexivity]. ok_step.
    rewrite len_take, len_drop. rewrite bool_decide_eq_false_2 by lia. reflexivity.
  - case_bool_decide as Hs; [|reflexivity]. ok_step.
    rewrite len_take, len_drop. rewrite bool_decide_eq_false_2 by lia. reflexivity.
Qed.


Lemma length_overwrite_fit {A} (s : list A) off src :
  (off + length src <= length s)%nat -> length (overwrite s off src) = length s.
Proof. apply length_overwrite. Qed.

Lemma len_overwrite {A} (s : list A) off src :
  (off + length src <= length s)%nat -> len (overwrite s off src) = len s.
Proof. intros. unfold len. rewrite length_overwrite by assumption. reflexivity. Qed.

(** X1.  [SetInt] then [GetInt], on every platform: the value comes back, and the ints stored
    elsewhere in the page are as before. *)
Theorem SetInt_then_GetInt p off v :
  0 <= off -> off + IntSize <= len (file.buffer p) -> MinInt <= v <= MaxInt ->
  exists p',
    file.SetInt p off v = Ok p'
    /\ file.GetInt p' off = Ok v
    /\ len (file.buffer p') = len (file.buffer p)
    /\ forall off', 0 <= off' -> off' + IntSize <= len (file.buffer p) ->
                    off' + IntSize <= off \/ off + IntSize <= off' ->
                    file.GetInt p' off' = file.GetInt p off'.
Proof.
  intros H0 Hl Hv. pose proof IntSize_pos as Hsz.
  eexists. split; [apply SetInt_overwrite; assumption|].
  assert (Hfit : (Z.to_nat off + length (int_bytes v) <= length (file.buffer p))%nat)
    by (rewrite length_int_bytes; unfold len in Hl; lia).
  assert (Hlen : len (overwrite (file.buffer p) (Z.to_nat off) (int_bytes v))
                 = len (file.buffer p)) by (apply len_overwrite; exact Hfit).
  split; [|split; [exact Hlen|]].
  - rewrite GetInt_window by (cbn [file.buffer]; lia). cbn [file.buffer].
    rewrite window_overwrite_same;
      [|rewrite length_int_bytes; reflexivity|exact Hfit].
    rewrite decode_int_bytes by assumption. reflexivity.
  - intros off' H0' Hl' Hd.
    rewrite !GetInt_window by (cbn [file.buffer]; lia). cbn [file.buffer].
    destruct Hd as [Hd|Hd].
    + rewrite window_overwrite_before; [reflexivity| |]; unfold len in *; lia.
    + rewrite window_overwrite_after; [reflexivity| |];
        rewrite ?length_int_bytes; unfold len in *; lia.
Qed.

(** X2.  Out of the page, [GetInt] and [SetInt] panic: there is no error
    return. *)
Theorem Int_accessors_panic_out_of_bounds p off v :
  off < 0 \/ len (file.buffer p) < off + IntSize ->
  file.GetInt p off = Panic /\ file.SetInt p off v = Panic.
Proof.
  intros Hb. split; [apply GetInt_out_of_bounds | apply SetInt_out_of_bounds]; exact Hb.
Qed.

Lemma SetBytes_overwrite p off b :
  0 <= off -> off + IntSize <= len (file.buffer p) -> len (file.buffer p) <= MaxInt ->
  file.SetBytes p off b
  = Ok (file.mkPage
          (copy_at (overwrite (file.buffer p) (Z.to_nat off) (int_bytes (len b)))
                   (Z.to_nat (off + IntSize)) b)).
Proof.
  intros H0 Hl Hm. pose proof IntSize_pos as Hsz. pose proof MinInt_neg as Hmin.
  unfold file.SetBytes. rewrite SetInt_overwrite by assumption. ok_step.
  rewrite int_add_small by lia. cbn [file.buffer].
  assert (Hlen : len (overwrite (file.buffer p) (Z.to_nat off) (int_bytes (len b)))
                 = len (file.buffer p)).
  { apply len_overwrite. rewrite length_int_bytes. unfold len in Hl. lia. }
  rewrite slice_from_ok by lia. ok_step. reflexivity.
Qed.

Lemma copy_at_fits {A} (s : list A) off src :
  (off + length src <= length s)%nat -> copy_at s off src = overwrite s off src.
Proof.
  intros Hf. unfold copy_at. rewrite take_ge by lia. reflexivity.
Qed.

Lemma GetBytes_window p off n :
  0 <= off -> 0 <= n -> off + IntSize + n <= len (file.buffer p) ->
  len (file.buffer p) <= MaxInt ->
  file.GetInt p off = Ok n ->
  file.GetBytes p off
  = Ok (window (file.buffer p) (Z.to_nat (off + IntSize)) (Z.to_nat n)).
Proof.
  intros H0 Hn Hl Hm Hg. pose proof IntSize_pos as Hsz. pose proof MinInt_neg as Hmin.
  unfold file.GetBytes. rewrite Hg. ok_step.
  rewrite !int_add_small by lia.
  rewrite bool_decide_eq_false_2 by lia.
  rewrite slice_ok by lia. ok_step.
  unfold make_bytes. rewrite bool_decide_eq_true_2 by lia. ok_step.
  replace (off + IntSize + n - (off + IntSize)) with n by lia.
  f_equal. apply copy_at_whole.
  rewrite length_replicate. unfold window. rewrite length_take, length_drop.
  unfold len in Hl. lia.
Qed.

Lemma SetBytes_GetBytes_fit p off b :
  0 <= off -> off + IntSize + len b <= len (file.buffer p) ->
  len (file.buffer p) <= MaxInt ->
  exists p',
    file.SetBytes p off b = Ok p'
    /\ file.GetBytes p' off = Ok b
    /\ len (file.buffer p') = len (file.buffer p).
Proof.
  intros H0 Hl Hm. pose proof IntSize_pos as Hsz. pose proof MinInt_neg as Hmin.
  pose proof (len_nonneg b) as Hb.
  eexists. split; [apply SetBytes_overwrite; lia|].
  set (s1 := overwrite (file.buffer p) (Z.to_nat off) (int_bytes (len b))).
  assert (Hl1 : length s1 = length (file.buffer p)).
  { apply length_overwrite. rewrite length_int_bytes. unfold len in Hl. lia. }
  rewrite copy_at_fits by (rewrite Hl1; unfold len in *; lia).
  set (s2 := overwrite s1 (Z.to_nat (off + IntSize)) b).
  assert (Hl2 : length s2 = length (file.buffer p)).
  { unfold s2. rewrite length_overwrite by (rewrite Hl1; unfold len in *; lia). exact Hl1. }
  assert (Hg : file.GetInt (file.mkPage s2) off = Ok (len b)).
  { rewrite GetInt_window by (cbn [file.buffer]; unfold len in *; lia).
    cbn [file.buffer]. unfold s2.
    rewrite window_overwrite_before by (rewrite ?Hl1; unfold len in *; lia).
    unfold s1. rewrite window_overwrite_same;
      [|rewrite length_int_bytes; reflexivity
       |rewrite length_int_bytes; unfold len in *; lia].
    rewrite decode_int_bytes by lia. reflexivity. }
  split; [|cbn [file.buffer]; unfold len; rewrite Hl2; reflexivity].
  rewrite (GetBytes_window _ _ (len b)); cbn [file.buffer]; unfold len in *; try lia;
    [|exact Hg].
  f_equal. unfold s2. rewrite Nat2Z.id.
  apply window_overwrite_same; [reflexivity|]. rewrite Hl1. lia.
Qed.


(** X3.  [SetBytes] then [GetBytes], on every platform: bytes that fit
    in the page come back; the page keeps its length, and its bytes
    before the offset and after the field are untouched. *)
Theorem SetBytes_then_GetBytes p off b :
  0 <= off -> off + IntSize + len b <= len (file.buffer p) ->
  len (file.buffer p) <= MaxInt ->
  exists p',
    file.SetBytes p off b = Ok p'
    /\ file.GetBytes p' off = Ok b
    /\ len (file.buffer p') = len (file.buffer p)
    /\ take (Z.to_nat off) (file.buffer p') = take (Z.to_nat off) (file.buffer p)
    /\ drop (Z.to_nat (off + IntSize + len b)) (file.buffer p')
       = drop (Z.to_nat (off + IntSize + len b)) (file.buffer p).
Proof.
  intros H0 Hl Hm. pose proof IntSize_pos as Hsz. pose proof (len_nonneg b) as Hb.
  destruct (SetBytes_GetBytes_fit p off b H0 Hl Hm) as (p' & Hs & Hg & Hlen).
  exists p'. split; [exact Hs|]. split; [exact Hg|]. split; [exact Hlen|].
  rewrite SetBytes_overwrite in Hs by lia.
  assert (Hp : p' = file.mkPage
                      (copy_at (overwrite (file.buffer p) (Z.to_nat off) (int_bytes (len b)))
                               (Z.to_nat (off + IntSize)) b)) by congruence.
  subst p'. cbn [file.buffer]. clear Hs Hg Hlen.
  set (s1 := overwrite (file.buffer p) (Z.to_nat off) (int_bytes (len b))).
  assert (Hl1 : length s1 = length (file.buffer p)).
  { apply length_overwrite. rewrite length_int_bytes. unfold len in Hl. lia. }
  rewrite copy_at_fits by (rewrite Hl1; unfold len in *; lia).
  split.
  - rewrite take_overwrite_before by (rewrite ?Hl1; unfold len in *; lia).
    unfold s1. apply take_overwrite_before; unfold len in *; lia.
  - rewrite drop_overwrite_after by (rewrite ?Hl1; unfold len in *; lia).
    unfold s1. apply drop_overwrite_after; rewrite ?length_int_bytes; unfold len in *; lia.
Qed.

(** X4.  [SetBytes] does not check that the bytes fit: [copy] stores the
    ones that do, the call returns normally, and the length prefix it
    wrote makes [GetBytes] at the same offset panic. *)
Theorem SetBytes_truncates_silently p off b :
  0 <= off -> off + IntSize <= len (file.buffer p) ->
  len (file.buffer p) < off + IntSize + len b ->
  off + IntSize + len b <= MaxInt ->
  exists p',
    file.SetBytes p off b = Ok p'
    /\ len (file.buffer p') = len (file.buffer p)
    /\ drop (Z.to_nat (off + IntSize)) (file.buffer p')
       = take (Z.to_nat (len (file.buffer p) - (off + IntSize))) b
    /\ file.GetBytes p' off = Panic.
Proof.
  intros H0 Hl Hover Hm. pose proof IntSize_pos as Hsz. pose proof MinInt_neg as Hmin.
  pose proof (len_nonneg b) as Hb.
  eexists. split; [apply SetBytes_overwrite; lia|].
  set (s1 := overwrite (file.buffer p) (Z.to_nat off) (int_bytes (len b))).
  assert (Hl1 : length s1 = length (file.buffer p)).
  { apply length_overwrite. rewrite length_int_bytes. unfold len in Hl. lia. }
  unfold copy_at.
  set (kept := take (length s1 - Z.to_nat (off + IntSize)) b).
  assert (Hk : length kept = (length s1 - Z.to_nat (off + IntSize))%nat).
  { unfold kept. rewrite length_take. unfold len in *. lia. }
  set (s2 := overwrite s1 (Z.to_nat (off + IntSize)) kept).
  assert (Hl2 : length s2 = length (file.buffer p)).
  { unfold s2. rewrite length_overwrite by (rewrite Hk, Hl1; unfold len in *; lia).
    exact Hl1. }
  cbn [file.buffer].
  split; [unfold len; rewrite Hl2; reflexivity|].
  split.
  - unfold s2, overwrite. rewrite drop_app_length'; [|rewrite length_take; unfold len in *; lia].
    rewrite drop_ge by (rewrite Hk; lia). rewrite app_nil_r.
    unfold kept. f_equal. rewrite Hl1. unfold len. lia.
  - assert (Hg : file.GetInt (file.mkPage s2) off = Ok (len b)).
    { rewrite GetInt_window by (cbn [file.buffer]; unfold len in *; lia).
      cbn [file.buffer]. unfold s2.
      rewrite window_overwrite_before by (rewrite ?Hl1; unfold len in *; lia).
      unfold s1. rewrite window_overwrite_same;
        [|rewrite length_int_bytes; reflexivity
         |rewrite length_int_bytes; unfold len in *; lia].
      rewrite decode_int_bytes by lia. reflexivity. }
    unfold file.GetBytes. rewrite Hg. ok_step.
    rewrite !int_add_small by lia.
    rewrite bool_decide_eq_false_2 by lia.
    unfold slice. cbn [file.buffer].
    rewrite bool_decide_eq_false_2; [reflexivity|]. unfold len in *. lia.
Qed.

Lemma length_list_byte_of_string s :
  length (String.list_byte_of_string s) = String.length s.
Proof.
  unfold String.list_byte_of_string. rewrite List.length_map.
  induction s as [|a s IH]; simpl; [reflexivity|]. rewrite IH. reflexivity.
Qed.

Lemma len_list_byte_of_string s :
  len (String.list_byte_of_string s) = tx.strlen s.
Proof. unfold len, tx.strlen. rewrite length_list_byte_of_string. reflexivity. Qed.

(** X5.  [SetString] then [GetString]: a string of valid UTF-8 that fits
    comes back; any other string is refused with an error. *)
Theorem SetString_then_GetString p off s :
  0 <= off -> off + IntSize + tx.strlen s <= len (file.buffer p) ->
  len (file.buffer p) <= MaxInt ->
  (file.utf8_Valid (String.list_byte_of_string s) = true ->
   exists p', file.SetString p off s = Ok p' /\ file.GetString p' off = Ok s
              /\ len (file.buffer p') = len (file.buffer p))
  /\ (file.utf8_Valid (String.list_byte_of_string s) = false ->
      file.SetString p off s = Error "string contains invalid UTF-8 characters").
Proof.
  intros H0 Hl Hm. split; intros Hu; unfold file.SetString; rewrite Hu; cbn [negb];
    [|reflexivity].
  rewrite <- len_list_byte_of_string in Hl.
  destruct (SetBytes_GetBytes_fit p off _ H0 Hl Hm) as (p' & Hs & Hg & Hlen).
  exists p'. split; [exact Hs|]. split; [|exact Hlen].
  unfold file.GetString. rewrite Hg. ok_step. rewrite Hu. cbn [negb].
  rewrite String.string_of_list_byte_of_string. reflexivity.
Qed.

Lemma PutUint_ok n s off v :
  0 <= off -> off + Z.of_nat n <= len s ->
  PutUint n s off v = Ok (overwrite s (Z.to_nat off) (be_encode n v)).
Proof.
  intros H0 Hl. unfold PutUint. rewrite slice_from_ok by lia. ok_step.
  rewrite bool_decide_eq_true_2; [reflexivity|]. rewrite len_drop. lia.
Qed.

Lemma Uint_window n s off :
  0 <= off -> off + Z.of_nat n <= len s ->
  (b ← slice_from s off; Uint n b) = Ok (be_decode (window s (Z.to_nat off) n)).
Proof.
  intros H0 Hl. rewrite slice_from_ok by lia. ok_step. unfold Uint.
  rewrite bool_decide_eq_true_2; [reflexivity|]. rewrite len_drop. lia.
Qed.

Lemma PutUint_then_Uint n s off v :
  0 <= off -> off + Z.of_nat n <= len s ->
  exists s', PutUint n s off v = Ok s' /\ len s' = len s
    /\ (b ← slice_from s' off; Uint n b) = Ok (v mod 256 ^ Z.of_nat n).
Proof.
  intros H0 Hl. eexists. split; [apply PutUint_ok; assumption|].
  assert (Hf : (Z.to_nat off + length (be_encode n v) <= length s)%nat)
    by (rewrite length_be_encode; unfold len in Hl; lia).
  split; [apply len_overwrite; exact Hf|].
  rewrite Uint_window by (rewrite ?len_overwrite by exact Hf; lia).
  rewrite window_overwrite_same; [|rewrite length_be_encode; reflexivity|exact Hf].
  rewrite be_decode_encode. reflexivity.
Qed.

Lemma wrap_signed_mod bits v :
  0 < bits -> - 2 ^ (bits - 1) <= v < 2 ^ (bits - 1) ->
  wrap_signed bits (v mod 2 ^ bits) = v.
Proof.
  intros Hb Hv. unfold wrap_signed.
  assert (Hp : 2 ^ bits = 2 * 2 ^ (bits - 1)).
  { replace bits with (Z.succ (bits - 1)) at 1 by lia. rewrite Z.pow_succ_r by lia. lia. }
  rewrite Zplus_mod_idemp_l. rewrite Z.mod_small; lia.
Qed.

(** X6.  The accessors of fixed width, on every platform: what [SetLong],
    [SetShort], [SetDate] and [SetBool] store inside the page,
    [GetLong], [GetShort], [GetDate] and [GetBool] read back. *)
Theorem fixed_width_round_trips p off :
  0 <= off ->
  (forall v, off + 8 <= len (file.buffer p) -> - 2 ^ 63 <= v < 2 ^ 63 ->
     exists p', file.SetLong p off v = Ok p' /\ file.GetLong p' off = Ok v)
  /\ (forall v, off + 2 <= len (file.buffer p) -> - 2 ^ 15 <= v < 2 ^ 15 ->
     exists p', file.SetShort p off v = Ok p' /\ file.GetShort p' off = Ok v)
  /\ (forall d, off + 8 <= len (file.buffer p) -> - 2 ^ 63 <= d < 2 ^ 63 ->
     exists p', file.SetDate p off d = Ok p' /\ file.GetDate p' off = Ok d)
  /\ (forall b, off < len (file.buffer p) ->
     exists p', file.SetBool p off b = Ok p' /\ file.GetBool p' off = Ok b).
Proof.
  intros H0. split; [|split; [|split]].
  - intros v Hl Hv.
    destruct (PutUint_then_Uint 8 (file.buffer p) off (v mod 2 ^ 64) H0 ltac:(lia))
      as (s' & Hs & _ & Hg).
    exists (file.mkPage s'). unfold file.SetLong, file.GetLong. rewrite Hs. ok_step.
    split; [reflexivity|]. cbn [file.buffer].
    destruct (slice_from s' off) as [b| |]; cbn in Hg |- *; try discriminate.
    rewrite Hg. ok_step. f_equal.
    change (256 ^ Z.of_nat 8) with (2 ^ 64). rewrite Z.mod_mod by lia.
    apply (wrap_signed_mod 64); lia.
  - intros v Hl Hv.
    destruct (PutUint_then_Uint 2 (file.buffer p) off (v mod 2 ^ 16) H0 ltac:(lia))
      as (s' & Hs & _ & Hg).
    exists (file.mkPage s'). unfold file.SetShort, file.GetShort. rewrite Hs. ok_step.
    split; [reflexivity|]. cbn [file.buffer].
    destruct (slice_from s' off) as [b| |]; cbn in Hg |- *; try discriminate.
    rewrite Hg. ok_step. f_equal.
    change (256 ^ Z.of_nat 2) with (2 ^ 16). rewrite Z.mod_mod by lia.
    apply (wrap_signed_mod 16); lia.
  - intros v Hl Hv.
    destruct (PutUint_then_Uint 8 (file.buffer p) off (v mod 2 ^ 64) H0 ltac:(lia))
      as (s' & Hs & _ & Hg).
    exists (file.mkPage s'). unfold file.SetDate, file.GetDate. rewrite Hs. ok_step.
    split; [reflexivity|]. cbn [file.buffer].
    destruct (slice_from s' off) as [b| |]; cbn in Hg |- *; try discriminate.
    rewrite Hg. ok_step. f_equal.
    change (256 ^ Z.of_nat 8) with (2 ^ 64). rewrite Z.mod_mod by lia.
    apply (wrap_signed_mod 64); lia.
  - intros b Hl. unfold file.SetBool, file.GetBool, file.index_byte.
    rewrite bool_decide_eq_true_2 by lia.
    destruct (lookup_lt_is_Some_2 (file.buffer p) (Z.to_nat off)) as [x Hx];
      [unfold len in Hl; lia|].
    rewrite Hx. ok_step. eexists. split; [reflexivity|]. cbn [file.buffer].
    rewrite list_lookup_insert_eq by (unfold len in Hl; lia). ok_step.
    destruct b; reflexivity.
Qed.

End PagesAny.

Section PageExamples.
#[local] Existing Instance goarch_amd64.

Lemma SetInt_then_GetInt_witness :
  exists p',
    file.SetInt page16 8 (-2) = Ok p'
    /\ file.GetInt p' 8 = Ok (-2)
    /\ len (file.buffer p') = len (file.buffer page16)
    /\ forall off', 0 <= off' -> off' + IntSize <= len (file.buffer page16) ->
                    off' + IntSize <= 8 \/ 8 + IntSize <= off' ->
                    file.GetInt p' off' = file.GetInt page16 off'.
Proof.
  apply (SetInt_then_GetInt page16 8 (-2)).
  - lia.
  - vm_compute. discriminate.
  - split; vm_compute; discriminate.
Defined.

Lemma Int_accessors_panic_out_of_bounds_witness :
  file.GetInt page16 9 = Panic /\ file.SetInt page16 9 5 = Panic.
Proof.
  apply (Int_accessors_panic_out_of_bounds page16 9 5).
  right. vm_compute. reflexivity.
Defined.

Lemma SetBytes_then_GetBytes_witness :
  exists p',
    file.SetBytes page16 0 hello = Ok p'
    /\ file.GetBytes p' 0 = Ok hello
    /\ len (file.buffer p') = len (file.buffer page16)
    /\ take (Z.to_nat 0) (file.buffer p') = take (Z.to_nat 0) (file.buffer page16)
    /\ drop (Z.to_nat (0 + IntSize + len hello)) (file.buffer p')
       = drop (Z.to_nat (0 + IntSize + len hello)) (file.buffer page16).
Proof.
  apply (SetBytes_then_GetBytes page16 0 hello).
  - lia.
  - vm_compute. discriminate.
  - vm_compute. discriminate.
Defined.

Lemma SetBytes_truncates_silently_witness :
  exists p',
    file.SetBytes page16 0 log_record_1 = Ok p'
    /\ len (file.buffer p') = len (file.buffer page16)
    /\ drop (Z.to_nat (0 + IntSize)) (file.buffer p')
       = take (Z.to_nat (len (file.buffer page16) - (0 + IntSize))) log_record_1
    /\ file.GetBytes p' 0 = Panic.
Proof.
  apply (SetBytes_truncates_silently page16 0 log_record_1).
  - lia.
  - vm_compute. discriminate.
  - vm_compute. reflexivity.
  - vm_compute. discriminate.
Defined.

Lemma SetString_then_GetString_witness :
  (file.utf8_Valid (String.list_byte_of_string "hello") = true ->
   exists p', file.SetString page16 0 "hello" = Ok p'
              /\ file.GetString p' 0 = Ok "hello"
              /\ len (file.buffer p') = len (file.buffer page16))
  /\ (file.utf8_Valid (String.list_byte_of_string "hello") = false ->
      file.SetString page16 0 "hello" = Error "string contains invalid UTF-8 characters").
Proof.
  apply (SetString_then_GetString page16 0 "hello").
  - lia.
  - vm_compute. discriminate.
  - vm_compute. discriminate.
Defined.

Lemma fixed_width_round_trips_witness :
  (forall v, 3 + 8 <= len (file.buffer page16) -> - 2 ^ 63 <= v < 2 ^ 63 ->
     exists p', file.SetLong page16 3 v = Ok p' /\ file.GetLong p' 3 = Ok v)
  /\ (forall v, 3 + 2 <= len (file.buffer page16) -> - 2 ^ 15 <= v < 2 ^ 15 ->
     exists p', file.SetShort page16 3 v = Ok p' /\ file.GetShort p' 3 = Ok v)
  /\ (forall d, 3 + 8 <= len (file.buffer page16) -> - 2 ^ 63 <= d < 2 ^ 63 ->
     exists p', file.SetDate page16 3 d = Ok p' /\ file.GetDate p' 3 = Ok d)
  /\ (forall b, 3 < len (file.buffer page16) ->
     exists p', file.SetBool page16 3 b = Ok p' /\ file.GetBool p' 3 = Ok b).
Proof. apply (fixed_width_round_trips page16 3). lia. Defined.

End PageExamples.

(** ** The file manager: writing, reading back and appending *)

Lemma length_write_at_prefix c off :
  length (take off (c ++ replicate (off - length c) Byte.x00)) = off.
Proof.
  rewrite length_take, length_app, length_replicate. lia.
Qed.

Lemma window_write_at_same c off buf :
  0 <= off ->
  window (file.write_at c off buf) (Z.to_nat off) (length buf) = buf.
Proof.
  intros H0. unfold file.write_at, window.
  rewrite drop_app_length' by (symmetry; apply length_write_at_prefix).
  rewrite take_app_length. reflexivity.
Qed.

Lemma window_take {A} (s : list A) k a n :
  (a + n <= k)%nat -> window (take k s) a n = window s a n.
Proof.
  intros Hk. unfold window. replace k with (a + (k - a))%nat by lia.
  rewrite <- take_drop_commute. rewrite take_take. f_equal. lia.
Qed.

Lemma window_app_l {A} (s x : list A) a n :
  (a + n <= length s)%nat -> window (s ++ x) a n = window s a n.
Proof.
  intros Hk. unfold window. rewrite drop_app_le by lia.
  rewrite take_app_le by (rewrite length_drop; lia). reflexivity.
Qed.

Lemma window_write_at_before c off buf a n :
  0 <= off -> (a + n <= Z.to_nat off)%nat -> (a + n <= length c)%nat ->
  window (file.write_at c off buf) a n = window c a n.
Proof.
  intros H0 Ha Hc. unfold file.write_at.
  rewrite window_app_l by (rewrite length_write_at_prefix; lia).
  rewrite window_take by lia. apply window_app_l. lia.
Qed.

Lemma window_write_at_after c off buf a n :
  0 <= off -> (Z.to_nat off + length buf <= a)%nat ->
  window (file.write_at c off buf) a n = window c a n.
Proof.
  intros H0 Ha. unfold file.write_at, window.
  set (pre := take (Z.to_nat off) (c ++ replicate (Z.to_nat off - length c) Byte.x00)).
  assert (Hp : length pre = Z.to_nat off) by apply length_write_at_prefix.
  rewrite app_assoc. rewrite drop_app_ge by (rewrite length_app; lia).
  rewrite length_app, Hp. rewrite drop_drop. f_equal. f_equal. lia.
Qed.

Lemma len_write_at c off buf :
  0 <= off ->
  len (file.write_at c off buf) = Z.max (len c) (off + len buf).
Proof.
  intros H0. unfold file.write_at, len.
  rewrite !length_app, length_write_at_prefix, length_drop. lia.
Qed.

Section FileRoundTrips.
Context `{Platform}.

Lemma file_contents_set m f c g :
  file.file_contents (file.set_contents m f c) g
  = if bool_decide (g = f) then c else file.file_contents m g.
Proof.
  unfold file.file_contents, file.set_contents. cbn [file.disk].
  case_bool_decide as Hg.
  - subst g. rewrite lookup_insert_eq. reflexivity.
  - rewrite lookup_insert_ne by congruence. reflexivity.
Qed.

Lemma file_contents_getFile_any m f g :
  file.file_contents (file.getFile m f) g = file.file_contents m g.
Proof.
  unfold file.getFile. case_bool_decide; [reflexivity|].
  unfold file.file_contents at 1. cbn [file.disk].
  destruct (decide (g = f)) as [->|Hne].
  - rewrite lookup_insert_eq. reflexivity.
  - rewrite lookup_insert_ne by congruence. reflexivity.
Qed.

Lemma counters_getFile m f :
  file.blocksRead (file.getFile m f) = file.blocksRead m
  /\ file.blocksWritten (file.getFile m f) = file.blocksWritten m.
Proof. unfold file.getFile. case_bool_decide; split; reflexivity. Qed.

Lemma Write_any m blk page :
  0 <= file.Number blk * file.blockSize m < 2 ^ 63 ->
  file.Write m blk page
  = Ok (file.incr_blocksWritten
          (file.set_contents (file.getFile m (file.Filename blk)) (file.Filename blk)
             (file.write_at (file.file_contents m (file.Filename blk))
                            (file.Number blk * file.blockSize m)
                            (file.buffer page)))).
Proof.
  intros Ho. unfold file.Write. rewrite blockSize_getFile.
  rewrite wrap_int64_small by lia.
  rewrite bool_decide_eq_false_2 by lia.
  rewrite file_contents_getFile. reflexivity.
Qed.

Lemma Read_full m blk q :
  0 <= file.Number blk * file.blockSize m < 2 ^ 63 ->
  file.Number blk * file.blockSize m + len (file.buffer q)
  <= len (file.file_contents m (file.Filename blk)) ->
  file.Read m blk q
  = Ok (file.incr_blocksRead (file.getFile m (file.Filename blk)),
        file.mkPage (window (file.file_contents m (file.Filename blk))
                            (Z.to_nat (file.Number blk * file.blockSize m))
                            (length (file.buffer q)))).
Proof.
  intros Ho Hl. unfold file.Read. rewrite blockSize_getFile.
  rewrite wrap_int64_small by lia.
  rewrite bool_decide_eq_false_2 by lia.
  rewrite file_contents_getFile. unfold file.ReadFull, file.Contents.
  set (c := file.file_contents m (file.Filename blk)) in *.
  set (off := file.Number blk * file.blockSize m) in *.
  set (got := take (length (file.buffer q)) (drop (Z.to_nat off) c)).
  assert (Hg : length got = length (file.buffer q)).
  { unfold got. rewrite length_take, length_drop. unfold len in Hl. lia. }
  assert (Hn : len got = len (file.buffer q)) by (unfold len; rewrite Hg; reflexivity).
  rewrite (bool_decide_eq_true_2 (len got = len (file.buffer q))) by exact Hn.
  rewrite (bool_decide_eq_true_2 (file.io_nil = file.io_nil)) by reflexivity.
  cbn [andb]. rewrite Hg. rewrite drop_all, app_nil_r. reflexivity.
Qed.

(** X7.  A page written to a block is the page read back from that
    block, whatever the file held before and also when the block lies
    beyond its end (the gap reads as zeros). *)
Theorem Write_then_Read m blk page q :
  0 <= file.Number blk * file.blockSize m < 2 ^ 63 ->
  len (file.buffer q) = len (file.buffer page) ->
  exists m' m'',
    file.Write m blk page = Ok m'
    /\ file.Read m' blk q = Ok (m'', page)
    /\ file.GetBlocksWritten m' = int_add (file.GetBlocksWritten m) 1
    /\ file.GetBlocksRead m'' = int_add (file.GetBlocksRead m) 1.
Proof.
  intros Ho Hq. eexists _, _.
  split; [apply Write_any; exact Ho|].
  set (c' := file.write_at (file.file_contents m (file.Filename blk))
                           (file.Number blk * file.blockSize m) (file.buffer page)).
  set (m1 := file.incr_blocksWritten
               (file.set_contents (file.getFile m (file.Filename blk))
                                  (file.Filename blk) c')).
  assert (Hc : file.file_contents m1 (file.Filename blk) = c').
  { unfold m1. apply contents_after_write. }
  assert (HB : file.blockSize m1 = file.blockSize m).
  { unfold m1. rewrite (proj2 (contents_after_write _ _ _)). apply blockSize_getFile. }
  split.
  - rewrite Read_full; rewrite ?HB, ?Hc.
    + f_equal. f_equal. unfold len in Hq. apply Nat2Z.inj in Hq. rewrite Hq.
      unfold c'. rewrite window_write_at_same by lia.
      destruct page; reflexivity.
    + exact Ho.
    + unfold c'. rewrite len_write_at by lia. lia.
  - unfold file.GetBlocksWritten, file.GetBlocksRead.
    cbn [file.incr_blocksRead file.blocksRead].
    rewrite (proj1 (counters_getFile _ _)).
    unfold m1. cbn [file.incr_blocksWritten file.set_contents file.blocksWritten file.blocksRead].
    rewrite (proj1 (counters_getFile _ _)), (proj2 (counters_getFile _ _)).
    split; reflexivity.
Qed.


(** X8.  Writing a block leaves the rest as it was: a block of another
    file, or a block of the same file that does not overlap the bytes
    written, reads as before. *)
Theorem Write_leaves_other_blocks m blk page blk' q :
  0 <= file.Number blk * file.blockSize m < 2 ^ 63 ->
  0 <= file.Number blk' * file.blockSize m < 2 ^ 63 ->
  file.Number blk' * file.blockSize m + len (file.buffer q)
  <= len (file.file_contents m (file.Filename blk')) ->
  file.Filename blk' <> file.Filename blk
  \/ file.Number blk' * file.blockSize m + len (file.buffer q)
     <= file.Number blk * file.blockSize m
  \/ file.Number blk * file.blockSize m + len (file.buffer page)
     <= file.Number blk' * file.blockSize m ->
  exists m' m1 m2 data,
    file.Write m blk page = Ok m'
    /\ file.Read m blk' q = Ok (m1, data)
    /\ file.Read m' blk' q = Ok (m2, data).
Proof.
  intros Ho Ho' Hl Hd. eexists _, _, _, _.
  split; [apply Write_any; exact Ho|].
  split; [apply Read_full; assumption|].
  set (c' := file.write_at (file.file_contents m (file.Filename blk))
                           (file.Number blk * file.blockSize m) (file.buffer page)).
  set (m1 := file.incr_blocksWritten
               (file.set_contents (file.getFile m (file.Filename blk))
                                  (file.Filename blk) c')).
  assert (HB : file.blockSize m1 = file.blockSize m).
  { unfold m1. rewrite (proj2 (contents_after_write _ _ _)). apply blockSize_getFile. }
  assert (Hc : file.file_contents m1 (file.Filename blk')
               = if bool_decide (file.Filename blk' = file.Filename blk) then c'
                 else file.file_contents m (file.Filename blk')).
  { unfold m1. unfold file.incr_blocksWritten, file.file_contents at 1. cbn [file.disk].
    fold (file.file_contents
            (file.set_contents (file.getFile m (file.Filename blk)) (file.Filename blk) c')
            (file.Filename blk')).
    rewrite file_contents_set. rewrite file_contents_getFile_any. reflexivity. }
  assert (Hw : window (file.file_contents m1 (file.Filename blk'))
                      (Z.to_nat (file.Number blk' * file.blockSize m))
                      (length (file.buffer q))
               = window (file.file_contents m (file.Filename blk'))
                        (Z.to_nat (file.Number blk' * file.blockSize m))
                        (length (file.buffer q))
               /\ len (file.file_contents m (file.Filename blk'))
                  <= len (file.file_contents m1 (file.Filename blk'))).
  { rewrite Hc. case_bool_decide as Hf; [|split; [reflexivity|lia]].
    rewrite Hf in *. unfold c'. rewrite len_write_at by lia.
    split; [|lia].
    destruct Hd as [Hd|[Hd|Hd]]; [congruence| |].
    - apply window_write_at_before; unfold len in *; lia.
    - apply window_write_at_after; unfold len in *; lia. }
  destruct Hw as [Hw Hlen].
  rewrite Read_full; rewrite ?HB; [|assumption|lia].
  rewrite Hw. reflexivity.
Qed.

(** X9.  Appending to a file of [N] whole blocks returns block [N];
    the file then has [N + 1] blocks, the new one reads as zeros and
    the earlier ones are as they were. *)
Theorem Append_adds_a_zero_block m f N :
  0 < file.blockSize m -> 0 <= N < MaxInt -> (N + 1) * file.blockSize m < 2 ^ 63 ->
  len (file.file_contents m f) = N * file.blockSize m ->
  exists m',
    file.Append m f = Ok (file.mkBlockId f N, m')
    /\ file.Length m' f = Ok (N + 1, m')
    /\ (forall q, len (file.buffer q) = file.blockSize m ->
          exists m'', file.Read m' (file.mkBlockId f N) q
                      = Ok (m'', file.mkPage (replicate (Z.to_nat (file.blockSize m)) Byte.x00)))
    /\ forall i, 0 <= i < N ->
          block_at (file.file_contents m' f) (file.blockSize m) i
          = block_at (file.file_contents m f) (file.blockSize m) i.
Proof.
  intros HB HN Ho Hlen. set (B := file.blockSize m) in *.
  eexists. split; [apply Append_ok; fold B; lia|].
  set (c' := file.file_contents m f ++ replicate (Z.to_nat B) Byte.x00).
  set (m1 := file.incr_blocksWritten (file.set_contents (file.getFile m f) f c')).
  assert (Hc : file.file_contents m1 f = c') by apply contents_after_write.
  assert (HB1 : file.blockSize m1 = B).
  { unfold m1. rewrite (proj2 (contents_after_write _ _ _)). apply blockSize_getFile. }
  assert (Hopen : file.getFile m1 f = m1).
  { apply getFile_open. unfold m1. cbn. apply getFile_opens. }
  assert (Hl' : len c' = (N + 1) * B).
  { unfold c'. rewrite len_app, len_replicate. lia. }
  split; [|split].
  - rewrite (Length_ok m1 f (N + 1)).
    + rewrite Hopen. reflexivity.
    + rewrite HB1. exact HB.
    + lia.
    + rewrite HB1, Hc. exact Hl'.
  - intros q Hq. eexists.
    rewrite (Read_ok m1 f N q).
    + rewrite HB1, Hc. f_equal. f_equal. f_equal. unfold c'.
      apply block_at_app_end; [lia|lia|exact Hlen|].
      rewrite len_replicate. lia.
    + rewrite HB1. exact HB.
    + lia.
    + rewrite HB1. lia.
    + rewrite HB1, Hc, Hl'. lia.
    + rewrite HB1. exact Hq.
  - intros i Hi.
    change (block_at (file.file_contents m1 f) B i = block_at (file.file_contents m f) B i).
    rewrite Hc. unfold c'. apply block_at_app; nia.
Qed.

End FileRoundTrips.

Section FileExamples.
#[local] Existing Instance goarch_amd64.

Lemma Write_then_Read_witness :
  exists m' m'',
    file.Write fm_whole data1 page_of_ones = Ok m'
    /\ file.Read m' data1 page_of_zeros = Ok (m'', page_of_ones)
    /\ file.GetBlocksWritten m' = int_add (file.GetBlocksWritten fm_whole) 1
    /\ file.GetBlocksRead m'' = int_add (file.GetBlocksRead fm_whole) 1.
Proof.
  apply (Write_then_Read fm_whole data1 page_of_ones page_of_zeros).
  - split; vm_compute; [discriminate|reflexivity].
  - vm_compute. reflexivity.
Defined.

Lemma Write_leaves_other_blocks_witness :
  exists m' m1 m2 data,
    file.Write fm_whole data1 page_of_ones = Ok m'
    /\ file.Read fm_whole data0 page_of_ones = Ok (m1, data)
    /\ file.Read m' data0 page_of_ones = Ok (m2, data).
Proof.
  apply (Write_leaves_other_blocks fm_whole data1 page_of_ones data0 page_of_ones).
  - split; vm_compute; [discriminate|reflexivity].
  - split; vm_compute; [discriminate|reflexivity].
  - vm_compute. discriminate.
  - right. left. vm_compute. discriminate.
Defined.

Lemma Append_adds_a_zero_block_witness :
  exists m',
    file.Append fm_whole "data" = Ok (file.mkBlockId "data" 1, m')
    /\ file.Length m' "data" = Ok (1 + 1, m')
    /\ (forall q, len (file.buffer q) = file.blockSize fm_whole ->
          exists m'', file.Read m' (file.mkBlockId "data" 1) q
                      = Ok (m'', file.mkPage
                                   (replicate (Z.to_nat (file.blockSize fm_whole)) Byte.x00)))
    /\ forall i, 0 <= i < 1 ->
          block_at (file.file_contents m' "data") (file.blockSize fm_whole) i
          = block_at (file.file_contents fm_whole "data") (file.blockSize fm_whole) i.
Proof.
  apply (Append_adds_a_zero_block fm_whole "data" 1).
  - vm_compute. reflexivity.
  - split; vm_compute; [discriminate|reflexivity].
  - vm_compute. reflexivity.
  - vm_compute. reflexivity.
Defined.

End FileExamples.

(** ** Log records: what is written is what is read *)

Lemma field_overwrite_same s off src :
  0 <= off -> off + len src <= len s ->
  field (overwrite s (Z.to_nat off) src) off src.
Proof.
  intros H0 Hl. unfold field.
  assert (Hf : (Z.to_nat off + length src <= length s)%nat) by (unfold len in Hl; lia).
  rewrite len_overwrite by exact Hf.
  repeat split; try lia. apply window_overwrite_same; [reflexivity|exact Hf].
Qed.

Lemma field_overwrite_other s off src a bs :
  field s a bs -> 0 <= off -> off + len src <= len s ->
  a + len bs <= off \/ off + len src <= a ->
  field (overwrite s (Z.to_nat off) src) a bs.
Proof.
  intros (Ha & Hal & Hw) H0 Hl Hd. unfold field.
  assert (Hf : (Z.to_nat off + length src <= length s)%nat) by (unfold len in Hl; lia).
  rewrite len_overwrite by exact Hf.
  repeat split; try lia. rewrite <- Hw at 2.
  destruct Hd as [Hd|Hd].
  - apply window_overwrite_before; unfold len in *; lia.
  - apply window_overwrite_after; unfold len in *; lia.
Qed.

Section Fields.
Context `{Platform}.

Lemma GetInt_field s off v :
  field s off (int_bytes v) -> MinInt <= v <= MaxInt ->
  file.GetInt (file.mkPage s) off = Ok v.
Proof.
  intros (H0 & Hl & Hw) Hv. rewrite len_int_bytes in Hl.
  rewrite GetInt_window by (cbn [file.buffer]; lia). cbn [file.buffer].
  rewrite length_int_bytes in Hw. rewrite Hw.
  rewrite decode_int_bytes by exact Hv. reflexivity.
Qed.

Lemma GetBytes_fields s off b :
  field s off (int_bytes (len b)) -> field s (off + IntSize) b -> len s <= MaxInt ->
  file.GetBytes (file.mkPage s) off = Ok b.
Proof.
  intros Hp (H0 & Hl & Hw) Hm. pose proof (len_nonneg b) as Hb.
  pose proof IntSize_pos as Hsz.
  assert (Hg : file.GetInt (file.mkPage s) off = Ok (len b)).
  { apply GetInt_field; [exact Hp|]. pose proof MinInt_neg. lia. }
  destruct Hp as (Hp0 & _ & _).
  rewrite (GetBytes_window _ _ (len b)); cbn [file.buffer]; try lia; [|exact Hg].
  unfold len at 1. rewrite Nat2Z.id. rewrite Hw. reflexivity.
Qed.

Lemma GetString_fields s off str :
  field s off (int_bytes (tx.strlen str)) ->
  field s (off + IntSize) (String.list_byte_of_string str) ->
  len s <= MaxInt -> file.utf8_Valid (String.list_byte_of_string str) = true ->
  file.GetString (file.mkPage s) off = Ok str.
Proof.
  intros Hp Hb Hm Hu. unfold file.GetString.
  rewrite (GetBytes_fields s off (String.list_byte_of_string str));
    [|rewrite len_list_byte_of_string; exact Hp|exact Hb|exact Hm].
  ok_step. rewrite Hu. cbn [negb].
  rewrite String.string_of_list_byte_of_string. reflexivity.
Qed.

Lemma make_bytes_ok n : 0 <= n -> make_bytes n = Ok (replicate (Z.to_nat n) Byte.x00).
Proof. intros. unfold make_bytes. rewrite bool_decide_eq_true_2 by lia. reflexivity. Qed.

Lemma MaxLength_small L :
  0 <= L -> IntSize + 4 * L <= MaxInt -> file.MaxLength L = IntSize + 4 * L.
Proof.
  intros HL Hm. pose proof IntSize_pos. pose proof MinInt_neg.
  unfold file.MaxLength. rewrite int_mul_small by lia. rewrite int_add_small by lia. lia.
Qed.

(** The simple records: tag and transaction number. *)
Lemma two_ints_fields a b :
  exists s,
    (p ← file.SetInt (file.NewPageFromBytes (replicate (Z.to_nat (2 * IntSize)) Byte.x00)) 0 a;
     file.SetInt p IntSize b) = Ok (file.mkPage s)
    /\ len s = 2 * IntSize
    /\ field s 0 (int_bytes a) /\ field s IntSize (int_bytes b).
Proof.
  pose proof IntSize_pos as Hsz.
  set (s0 := replicate (Z.to_nat (2 * IntSize)) Byte.x00).
  assert (H0 : len s0 = 2 * IntSize) by (unfold s0; rewrite len_replicate; lia).
  unfold file.NewPageFromBytes.
  rewrite SetInt_overwrite by (cbn [file.buffer]; lia). ok_step. cbn [file.buffer].
  set (s1 := overwrite s0 (Z.to_nat 0) (int_bytes a)).
  assert (F1 : field s1 0 (int_bytes a))
    by (apply field_overwrite_same; rewrite ?len_int_bytes; lia).
  assert (H1 : len s1 = 2 * IntSize).
  { unfold s1. rewrite len_overwrite; [exact H0|].
    rewrite length_int_bytes. unfold len in H0. lia. }
  rewrite SetInt_overwrite by (cbn [file.buffer]; lia). cbn [file.buffer].
  eexists. split; [reflexivity|].
  split; [|split].
  - rewrite len_overwrite; [exact H1|]. rewrite length_int_bytes. unfold len in H1. lia.
  - apply field_overwrite_other;
      [exact F1|lia|rewrite len_int_bytes; lia|left; rewrite len_int_bytes; lia].
  - apply field_overwrite_same; rewrite ?len_int_bytes; lia.
Qed.

Lemma int_mul_2_IntSize : int_mul 2 IntSize = 2 * IntSize.
Proof.
  pose proof IntSize_pos. pose proof MinInt_neg. pose proof MaxInt_pos.
  apply int_mul_small. lia.
Qed.

(** X10.  The Commit record, on every platform: the bytes
    [WriteCommitToLog] appends for transaction [t] decode to a Commit
    record of transaction [t]. *)
Theorem CommitRecord_round_trip t :
  MinInt <= t <= MaxInt ->
  exists bytes,
    tx.CommitBytes t = Ok bytes
    /\ len bytes = 2 * IntSize
    /\ tx.CreateLogRecord bytes = Ok (tx.CommitRecord t).
Proof.
  intros Ht. pose proof IntSize_pos as Hsz. pose proof MinInt_neg. pose proof MaxInt_pos.
  destruct (two_ints_fields (tx.code tx.Commit) t) as (s & Hs & Hl & F0 & F1).
  exists s. unfold tx.CommitBytes. rewrite int_mul_2_IntSize.
  rewrite make_bytes_ok by lia. ok_step.
  split; [|split; [exact Hl|]].
  - destruct (file.SetInt _ 0 _) as [p1| |]; cbn in Hs |- *; try discriminate.
    rewrite Hs. reflexivity.
  - unfold tx.CreateLogRecord, file.NewPageFromBytes.
    rewrite (GetInt_field s 0 _ F0) by (cbn; lia). ok_step. cbn [tx.code tx.FromCode].
    ok_step. unfold tx.NewCommitRecord. cbv zeta. rewrite int_add_small by lia.
    rewrite Z.add_0_l.
    rewrite (GetInt_field s _ _ F1) by exact Ht. reflexivity.
Qed.


Ltac int_small :=
  repeat match goal with
  | |- context [int_add ?x ?y] => rewrite (int_add_small x y) by lia
  | |- context [int_mul ?x ?y] => rewrite (int_mul_small x y) by lia
  | |- context [int_sub ?x ?y] => rewrite (int_sub_small x y) by lia
  end.

Lemma strlen_nonneg str : 0 <= tx.strlen str.
Proof. unfold tx.strlen. lia. Qed.

Lemma header_fields_overwrite op t blk off s o src :
  header_fields op t blk off s ->
  valuePos_of blk <= o -> o + len src <= len s ->
  header_fields op t blk off (overwrite s (Z.to_nat o) src).
Proof.
  unfold header_fields, valuePos_of. cbv zeta.
  pose proof IntSize_pos as Hsz. pose proof (strlen_nonneg (file.File blk)) as HL.
  pose proof (len_list_byte_of_string (file.File blk)) as Hn.
  intros (F0 & F1 & F2 & F3 & F4 & F5) Ho Hl.
  split_and!;
    (apply field_overwrite_other;
     [assumption|lia|lia|left; rewrite ?len_int_bytes, ?Hn; lia]).
Qed.

Lemma writeUpdateHeader_fields op t blk off vlen :
  0 <= vlen -> valuePos_of blk + vlen <= MaxInt ->
  file.utf8_Valid (String.list_byte_of_string (file.File blk)) = true ->
  exists s,
    tx.writeUpdateHeader op t blk off vlen = Ok (file.mkPage s, valuePos_of blk)
    /\ len s = valuePos_of blk + vlen
    /\ header_fields op t blk off s.
Proof.
  intros Hv Hm Hu. unfold valuePos_of in *.
  pose proof IntSize_pos as Hsz. pose proof (strlen_nonneg (file.File blk)) as HL.
  pose proof MinInt_neg as Hmin.
  pose proof (len_list_byte_of_string (file.File blk)) as Hn.
  set (L := tx.strlen (file.File blk)) in *.
  set (name := String.list_byte_of_string (file.File blk)) in *.
  unfold tx.writeUpdateHeader, file.Filename, file.Number. cbv zeta. fold L.
  rewrite (MaxLength_small L) by lia.
  int_small.
  replace (0 + IntSize + IntSize + (IntSize + 4 * L) + IntSize + IntSize + vlen)
    with (5 * IntSize + 4 * L + vlen) by lia.
  rewrite make_bytes_ok by lia. ok_step. unfold file.NewPageFromBytes.
  set (s0 := replicate (Z.to_nat (5 * IntSize + 4 * L + vlen)) Byte.x00).
  assert (H0 : len s0 = 5 * IntSize + 4 * L + vlen)
    by (unfold s0; rewrite len_replicate; lia).
  (* the tag *)
  rewrite SetInt_overwrite by (cbn [file.buffer]; lia). ok_step. cbn [file.buffer].
  set (s1 := overwrite s0 (Z.to_nat 0) (int_bytes (tx.code op))).
  assert (H1 : len s1 = len s0)
    by (apply len_overwrite; rewrite length_int_bytes; unfold len in H0; lia).
  assert (F10 : field s1 0 (int_bytes (tx.code op)))
    by (apply field_overwrite_same; rewrite ?len_int_bytes; lia).
  (* the transaction number *)
  rewrite SetInt_overwrite by (cbn [file.buffer]; lia). ok_step. cbn [file.buffer].
  set (s2 := overwrite s1 (Z.to_nat (0 + IntSize)) (int_bytes t)).
  assert (H2 : len s2 = len s0).
  { unfold s2. rewrite len_overwrite; [exact H1|].
    rewrite length_int_bytes. unfold len in *. lia. }
  assert (F20 : field s2 0 (int_bytes (tx.code op))).
  { apply field_overwrite_other; [exact F10|lia|rewrite len_int_bytes; lia|].
    left. rewrite len_int_bytes. lia. }
  assert (F21 : field s2 IntSize (int_bytes t)).
  { replace IntSize with (0 + IntSize) at 1 by lia.
    apply field_overwrite_same; rewrite ?len_int_bytes; lia. }
  (* the file name *)
  unfold file.SetString. fold name. rewrite Hu. cbn [negb].
  rewrite SetBytes_overwrite by (cbn [file.buffer]; lia). ok_step. cbn [file.buffer].
  set (s3 := overwrite s2 (Z.to_nat (0 + IntSize + IntSize)) (int_bytes (len name))).
  assert (H3 : len s3 = len s0).
  { unfold s3. rewrite len_overwrite; [exact H2|].
    rewrite length_int_bytes. unfold len in *. lia. }
  rewrite copy_at_fits by (unfold len in *; lia).
  set (s4 := overwrite s3 (Z.to_nat (0 + IntSize + IntSize + IntSize)) name).
  assert (H4 : len s4 = len s0).
  { unfold s4. rewrite len_overwrite; [exact H3|]. unfold len in *. lia. }
  assert (F30 : field s3 0 (int_bytes (tx.code op))).
  { apply field_overwrite_other; [exact F20|lia|rewrite len_int_bytes; lia|].
    left. rewrite len_int_bytes. lia. }
  assert (F31 : field s3 IntSize (int_bytes t)).
  { apply field_overwrite_other; [exact F21|lia|rewrite len_int_bytes; lia|].
    left. rewrite len_int_bytes. lia. }
  assert (F32 : field s3 (2 * IntSize) (int_bytes L)).
  { replace (2 * IntSize) with (0 + IntSize + IntSize) by lia. rewrite <- Hn.
    apply field_overwrite_same; rewrite ?len_int_bytes; lia. }
  assert (F40 : field s4 0 (int_bytes (tx.code op))).
  { apply field_overwrite_other; [exact F30|lia|lia|]. left. rewrite len_int_bytes. lia. }
  assert (F41 : field s4 IntSize (int_bytes t)).
  { apply field_overwrite_other; [exact F31|lia|lia|]. left. rewrite len_int_bytes. lia. }
  assert (F42 : field s4 (2 * IntSize) (int_bytes L)).
  { apply field_overwrite_other; [exact F32|lia|lia|]. left. rewrite len_int_bytes. lia. }
  assert (F43 : field s4 (3 * IntSize) name).
  { replace (3 * IntSize) with (0 + IntSize + IntSize + IntSize) by lia.
    apply field_overwrite_same; lia. }
  (* the block number *)
  rewrite SetInt_overwrite by (cbn [file.buffer]; lia). ok_step. cbn [file.buffer].
  set (o5 := 0 + IntSize + IntSize + (IntSize + 4 * L)).
  set (s5 := overwrite s4 (Z.to_nat o5) (int_bytes (file.BlockNumber blk))).
  assert (H5 : len s5 = len s0).
  { unfold s5. rewrite len_overwrite; [exact H4|].
    rewrite length_int_bytes. unfold o5, len in *. lia. }
  assert (F5 : field s5 0 (int_bytes (tx.code op)) /\ field s5 IntSize (int_bytes t)
               /\ field s5 (2 * IntSize) (int_bytes L) /\ field s5 (3 * IntSize) name
               /\ field s5 (3 * IntSize + 4 * L) (int_bytes (file.BlockNumber blk))).
  { split_and!;
      try (apply field_overwrite_other;
           [assumption|unfold o5; lia|rewrite len_int_bytes; unfold o5; lia
           |left; rewrite ?len_int_bytes; unfold o5; lia]).
    replace (3 * IntSize + 4 * L) with o5 by (unfold o5; lia).
    apply field_overwrite_same; rewrite ?len_int_bytes; unfold o5; lia. }
  destruct F5 as (F50 & F51 & F52 & F53 & F54).
  (* the offset *)
  rewrite SetInt_overwrite by (cbn [file.buffer]; unfold o5; lia). ok_step.
  cbn [file.buffer].
  set (o6 := o5 + IntSize).
  eexists. split; [f_equal; f_equal; unfold o6, o5; lia|].
  split.
  - rewrite len_overwrite; [lia|]. rewrite length_int_bytes. unfold o6, o5, len in *. lia.
  - unfold header_fields. cbv zeta. fold L name.
    split_and!;
      try (apply field_overwrite_other;
           [assumption|unfold o6, o5; lia|rewrite len_int_bytes; unfold o6, o5; lia
           |left; rewrite ?len_int_bytes; unfold o6, o5; lia]).
    replace (4 * IntSize + 4 * L) with o6 by (unfold o6, o5; lia).
    apply field_overwrite_same; rewrite ?len_int_bytes; unfold o6, o5; lia.
Qed.


Lemma readUpdateHeader_fields op t blk off s :
  header_fields op t blk off s -> len s <= MaxInt ->
  MinInt <= t <= MaxInt -> MinInt <= file.BlockNumber blk <= MaxInt ->
  MinInt <= off <= MaxInt ->
  file.utf8_Valid (String.list_byte_of_string (file.File blk)) = true ->
  file.GetInt (file.mkPage s) 0 = Ok (tx.code op)
  /\ tx.readUpdateHeader (file.mkPage s) = Ok (t, blk, off, valuePos_of blk).
Proof.
  unfold header_fields, valuePos_of. cbv zeta.
  intros (F0 & F1 & F2 & F3 & F4 & F5) Hm Ht Hb Ho Hu.
  pose proof IntSize_pos as Hsz. pose proof (strlen_nonneg (file.File blk)) as HL.
  pose proof MinInt_neg as Hmin. pose proof MaxInt_pos as Hmax.
  assert (Hend : 5 * IntSize + 4 * tx.strlen (file.File blk) <= len s).
  { destruct F5 as (_ & F5 & _). rewrite len_int_bytes in F5. lia. }
  split.
  - apply GetInt_field; [exact F0|]. destruct op; cbn; lia.
  - unfold tx.readUpdateHeader. cbv zeta. int_small. rewrite Z.add_0_l.
    rewrite (GetInt_field s _ _ F1) by exact Ht. ok_step.
    rewrite (GetString_fields s (IntSize + IntSize) (file.File blk));
      [|replace (IntSize + IntSize) with (2 * IntSize) by lia; exact F2
       |replace (IntSize + IntSize + IntSize) with (3 * IntSize) by lia; exact F3
       |exact Hm|exact Hu].
    ok_step. rewrite (MaxLength_small (tx.strlen (file.File blk))) by lia.
    int_small.
    replace (IntSize + IntSize + (IntSize + 4 * tx.strlen (file.File blk)))
      with (3 * IntSize + 4 * tx.strlen (file.File blk)) by lia.
    rewrite (GetInt_field s _ _ F4) by exact Hb. ok_step.
    replace (3 * IntSize + 4 * tx.strlen (file.File blk) + IntSize)
      with (4 * IntSize + 4 * tx.strlen (file.File blk)) by lia.
    rewrite (GetInt_field s _ _ F5) by exact Ho. ok_step.
    destruct blk as [f n]. cbn [file.File file.BlockNumber].
    f_equal. f_equal. lia.
Qed.

(** X14.  The SetInt record, on every platform: the bytes
    [WriteSetIntToLog] appends decode to a SetInt record with the same
    transaction, block, offset and value. *)
Theorem SetIntRecord_round_trip t blk off val :
  MinInt <= t <= MaxInt -> MinInt <= file.BlockNumber blk <= MaxInt ->
  MinInt <= off <= MaxInt -> MinInt <= val <= MaxInt ->
  file.utf8_Valid (String.list_byte_of_string (file.File blk)) = true ->
  6 * IntSize + 4 * tx.strlen (file.File blk) <= MaxInt ->
  exists bytes,
    tx.SetIntBytes t blk off val = Ok bytes
    /\ len bytes = 6 * IntSize + 4 * tx.strlen (file.File blk)
    /\ tx.CreateLogRecord bytes = Ok (tx.SetIntRecord t off val blk).
Proof.
  intros Ht Hb Ho Hv Hu Hm. pose proof IntSize_pos as Hsz.
  destruct (writeUpdateHeader_fields tx.SetInt t blk off IntSize)
    as (s & Hw & Hl & HF); [lia|unfold valuePos_of; lia|exact Hu|].
  unfold tx.SetIntBytes. rewrite Hw. ok_step.
  assert (Hvp : 0 <= valuePos_of blk)
    by (unfold valuePos_of; pose proof (strlen_nonneg (file.File blk)); lia).
  rewrite SetInt_overwrite by (cbn [file.buffer]; lia). ok_step.
  cbn [file.Contents file.buffer].
  set (s' := overwrite s (Z.to_nat (valuePos_of blk)) (int_bytes val)).
  assert (Hl' : len s' = len s)
    by (apply len_overwrite; rewrite length_int_bytes; unfold len in *; lia).
  assert (HF' : header_fields tx.SetInt t blk off s')
    by (apply header_fields_overwrite; rewrite ?len_int_bytes; auto; lia).
  assert (Fv : field s' (valuePos_of blk) (int_bytes val))
    by (apply field_overwrite_same; rewrite ?len_int_bytes; lia).
  exists s'. split; [reflexivity|]. split; [unfold valuePos_of in *; lia|].
  destruct (readUpdateHeader_fields _ _ _ _ _ HF') as [Hg Hr]; auto;
    [unfold valuePos_of in *; lia|].
  unfold tx.CreateLogRecord, file.NewPageFromBytes. rewrite Hg. ok_step.
  cbn [tx.code tx.FromCode]. ok_step.
  unfold tx.NewSetIntRecord. rewrite Hr. ok_step.
  rewrite (GetInt_field s' _ _ Fv) by exact Hv. reflexivity.
Qed.


(** X15.  The SetString record, on every platform. *)
Theorem SetStringRecord_round_trip t blk off val :
  MinInt <= t <= MaxInt -> MinInt <= file.BlockNumber blk <= MaxInt ->
  MinInt <= off <= MaxInt ->
  file.utf8_Valid (String.list_byte_of_string (file.File blk)) = true ->
  file.utf8_Valid (String.list_byte_of_string val) = true ->
  6 * IntSize + 4 * tx.strlen (file.File blk) + 4 * tx.strlen val <= MaxInt ->
  exists bytes,
    tx.SetStringBytes t blk off val = Ok bytes
    /\ tx.CreateLogRecord bytes = Ok (tx.SetStringRecord t off val blk).
Proof.
  intros Ht Hb Ho Hu Huv Hm. pose proof IntSize_pos as Hsz.
  pose proof (strlen_nonneg val) as HLv. pose proof MinInt_neg as Hmin.
  assert (Hvp : 0 <= valuePos_of blk)
    by (unfold valuePos_of; pose proof (strlen_nonneg (file.File blk)); lia).
  assert (Hvpm : valuePos_of blk + (IntSize + 4 * tx.strlen val) <= MaxInt)
    by (unfold valuePos_of; lia).
  pose proof (len_list_byte_of_string val) as Hn.
  unfold tx.SetStringBytes. rewrite (MaxLength_small (tx.strlen val)) by lia.
  destruct (writeUpdateHeader_fields tx.SetString t blk off (IntSize + 4 * tx.strlen val))
    as (s & Hw & Hl & HF); [lia|exact Hvpm|exact Hu|].
  rewrite Hw. ok_step.
  unfold file.SetString. rewrite Huv. cbn [negb].
  rewrite SetBytes_overwrite by (cbn [file.buffer]; lia). ok_step.
  cbn [file.Contents file.buffer].
  set (s1 := overwrite s (Z.to_nat (valuePos_of blk))
                       (int_bytes (len (String.list_byte_of_string val)))).
  assert (Hl1 : len s1 = len s)
    by (apply len_overwrite; rewrite length_int_bytes; unfold len in *; lia).
  rewrite copy_at_fits by (unfold len in *; lia).
  set (s2 := overwrite s1 (Z.to_nat (valuePos_of blk + IntSize))
                       (String.list_byte_of_string val)).
  assert (Hl2 : len s2 = len s).
  { unfold s2. rewrite len_overwrite; [exact Hl1|]. unfold len in *. lia. }
  assert (HF1 : header_fields tx.SetString t blk off s1)
    by (apply header_fields_overwrite; rewrite ?len_int_bytes; auto; lia).
  assert (HF2 : header_fields tx.SetString t blk off s2)
    by (apply header_fields_overwrite; auto; lia).
  assert (Fl : field s2 (valuePos_of blk) (int_bytes (tx.strlen val))).
  { rewrite <- Hn. apply field_overwrite_other;
      [apply field_overwrite_same; rewrite ?len_int_bytes; lia|lia|lia|].
    left. rewrite len_int_bytes. lia. }
  assert (Fv : field s2 (valuePos_of blk + IntSize) (String.list_byte_of_string val))
    by (apply field_overwrite_same; lia).
  exists s2. split; [reflexivity|].
  destruct (readUpdateHeader_fields _ _ _ _ _ HF2) as [Hg Hr]; auto; [lia|].
  unfold tx.CreateLogRecord, file.NewPageFromBytes. rewrite Hg. ok_step.
  cbn [tx.code tx.FromCode]. ok_step.
  unfold tx.NewSetStringRecord. rewrite Hr. ok_step.
  rewrite (GetString_fields s2 _ val Fl Fv) by (auto; lia). reflexivity.
Qed.

Lemma insert_overwrite {A} (s : list A) i x :
  (i < length s)%nat -> <[i := x]> s = overwrite s i [x].
Proof.
  intros Hi. unfold overwrite. cbn [length app].
  rewrite insert_take_drop by exact Hi. f_equal. f_equal. f_equal. lia.
Qed.

Lemma Uint_field n s off v :
  field s off (be_encode n v) ->
  (b ← slice_from s off; Uint n b) = Ok (v mod 256 ^ Z.of_nat n).
Proof.
  intros (H0 & Hl & Hw). unfold len in Hl. rewrite length_be_encode in Hl, Hw.
  rewrite Uint_window by (unfold len; lia). rewrite Hw, be_decode_encode. reflexivity.
Qed.

(** X16.  The SetBool, SetLong, SetShort and SetDate records, on every
    platform. *)
Theorem fixed_width_records_round_trip t blk off :
  MinInt <= t <= MaxInt -> MinInt <= file.BlockNumber blk <= MaxInt ->
  MinInt <= off <= MaxInt ->
  file.utf8_Valid (String.list_byte_of_string (file.File blk)) = true ->
  5 * IntSize + 4 * tx.strlen (file.File blk) + 8 <= MaxInt ->
  (forall val, exists bytes,
      tx.SetBoolBytes t blk off val = Ok bytes
      /\ tx.CreateLogRecord bytes = Ok (tx.SetBoolRecord t off val blk))
  /\ (forall val, - 2 ^ 63 <= val < 2 ^ 63 -> exists bytes,
      tx.SetLongBytes t blk off val = Ok bytes
      /\ tx.CreateLogRecord bytes = Ok (tx.SetLongRecord t off val blk))
  /\ (forall val, - 2 ^ 15 <= val < 2 ^ 15 -> exists bytes,
      tx.SetShortBytes t blk off val = Ok bytes
      /\ tx.CreateLogRecord bytes = Ok (tx.SetShortRecord t off val blk))
  /\ (forall val, - 2 ^ 63 <= val < 2 ^ 63 -> exists bytes,
      tx.SetDateBytes t blk off val = Ok bytes
      /\ tx.CreateLogRecord bytes = Ok (tx.SetDateRecord t off val blk)).
Proof.
  intros Ht Hb Ho Hu Hm. pose proof IntSize_pos as Hsz. pose proof MinInt_neg as Hmin.
  assert (Hvp : 0 <= valuePos_of blk)
    by (unfold valuePos_of; pose proof (strlen_nonneg (file.File blk)); lia).
  assert (Hvpm : valuePos_of blk + 8 <= MaxInt) by (unfold valuePos_of; lia).
  split_and!.
  - intros val.
    destruct (writeUpdateHeader_fields tx.SetBool t blk off 1)
      as (s & Hw & Hl & HF); [lia|lia|exact Hu|].
    unfold tx.SetBoolBytes. rewrite Hw. ok_step.
    unfold file.SetBool, file.index_byte. cbn [file.buffer].
    rewrite bool_decide_eq_true_2 by lia.
    destruct (lookup_lt_is_Some_2 s (Z.to_nat (valuePos_of blk))) as [x Hx];
      [unfold len in Hl; lia|].
    rewrite Hx. ok_step. cbn [file.Contents file.buffer].
    rewrite insert_overwrite by (unfold len in Hl; lia).
    set (s' := overwrite s (Z.to_nat (valuePos_of blk))
                         [if val then Byte.x01 else Byte.x00]).
    assert (HF' : header_fields tx.SetBool t blk off s').
    { apply header_fields_overwrite; [exact HF|lia|].
      unfold len in *. cbn [length]. lia. }
    exists s'. split; [reflexivity|].
    destruct (readUpdateHeader_fields _ _ _ _ _ HF') as [Hg Hr]; auto.
    { unfold s'. rewrite len_overwrite; [lia|]. cbn [length]. unfold len in Hl. lia. }
    unfold tx.CreateLogRecord, file.NewPageFromBytes. rewrite Hg. ok_step.
    cbn [tx.code tx.FromCode]. ok_step.
    unfold tx.NewSetBoolRecord. rewrite Hr. ok_step.
    unfold file.GetBool, file.index_byte. cbn [file.buffer].
    rewrite bool_decide_eq_true_2 by lia.
    unfold s'. rewrite <- insert_overwrite by (unfold len in Hl; lia).
    rewrite list_lookup_insert_eq by (unfold len in Hl; lia). ok_step.
    destruct val; reflexivity.
  - intros val Hv.
    destruct (writeUpdateHeader_fields tx.SetLong t blk off 8)
      as (s & Hw & Hl & HF); [lia|lia|exact Hu|].
    unfold tx.SetLongBytes. rewrite Hw. ok_step.
    unfold file.SetLong. cbn [file.buffer].
    rewrite PutUint_ok by lia. ok_step. cbn [file.Contents file.buffer].
    set (s' := overwrite s (Z.to_nat (valuePos_of blk)) (be_encode 8 (val mod 2 ^ 64))).
    assert (HF' : header_fields tx.SetLong t blk off s').
    { apply header_fields_overwrite; auto; [lia|].
      unfold len. rewrite length_be_encode. unfold len in Hl. lia. }
    assert (Fv : field s' (valuePos_of blk) (be_encode 8 (val mod 2 ^ 64))).
    { apply field_overwrite_same; [lia|]. unfold len. rewrite length_be_encode.
      unfold len in Hl. lia. }
    exists s'. split; [reflexivity|].
    destruct (readUpdateHeader_fields _ _ _ _ _ HF') as [Hg Hr]; auto.
    { unfold s'. rewrite len_overwrite; [lia|]. rewrite length_be_encode.
      unfold len in Hl. lia. }
    unfold tx.CreateLogRecord, file.NewPageFromBytes. rewrite Hg. ok_step.
    cbn [tx.code tx.FromCode]. ok_step.
    unfold tx.NewSetLongRecord. rewrite Hr. ok_step.
    unfold file.GetLong. cbn [file.buffer].
    pose proof (Uint_field 8 s' _ _ Fv) as HU.
    destruct (slice_from s' (valuePos_of blk)) as [b| |]; cbn in HU |- *; try discriminate.
    rewrite HU. ok_step. change (256 ^ Z.of_nat 8) with (2 ^ 64).
    rewrite Z.mod_mod by lia. rewrite (wrap_signed_mod 64) by lia. reflexivity.
  - intros val Hv.
    destruct (writeUpdateHeader_fields tx.SetShort t blk off 2)
      as (s & Hw & Hl & HF); [lia|lia|exact Hu|].
    unfold tx.SetShortBytes. rewrite Hw. ok_step.
    unfold file.SetShort. cbn [file.buffer].
    rewrite PutUint_ok by lia. ok_step. cbn [file.Contents file.buffer].
    set (s' := overwrite s (Z.to_nat (valuePos_of blk)) (be_encode 2 (val mod 2 ^ 16))).
    assert (HF' : header_fields tx.SetShort t blk off s').
    { apply header_fields_overwrite; auto; [lia|].
      unfold len. rewrite length_be_encode. unfold len in Hl. lia. }
    assert (Fv : field s' (valuePos_of blk) (be_encode 2 (val mod 2 ^ 16))).
    { apply field_overwrite_same; [lia|]. unfold len. rewrite length_be_encode.
      unfold len in Hl. lia. }
    exists s'. split; [reflexivity|].
    destruct (readUpdateHeader_fields _ _ _ _ _ HF') as [Hg Hr]; auto.
    { unfold s'. rewrite len_overwrite; [lia|]. rewrite length_be_encode.
      unfold len in Hl. lia. }
    unfold tx.CreateLogRecord, file.NewPageFromBytes. rewrite Hg. ok_step.
    cbn [tx.code tx.FromCode]. ok_step.
    unfold tx.NewSetShortRecord. rewrite Hr. ok_step.
    unfold file.GetShort. cbn [file.buffer].
    pose proof (Uint_field 2 s' _ _ Fv) as HU.
    destruct (slice_from s' (valuePos_of blk)) as [b| |]; cbn in HU |- *; try discriminate.
    rewrite HU. ok_step. change (256 ^ Z.of_nat 2) with (2 ^ 16).
    rewrite Z.mod_mod by lia. rewrite (wrap_signed_mod 16) by lia. reflexivity.
  - intros val Hv.
    destruct (writeUpdateHeader_fields tx.SetDate t blk off 8)
      as (s & Hw & Hl & HF); [lia|lia|exact Hu|].
    unfold tx.SetDateBytes. rewrite Hw. ok_step.
    unfold file.SetDate. cbn [file.buffer].
    rewrite PutUint_ok by lia. ok_step. cbn [file.Contents file.buffer].
    set (s' := overwrite s (Z.to_nat (valuePos_of blk)) (be_encode 8 (val mod 2 ^ 64))).
    assert (HF' : header_fields tx.SetDate t blk off s').
    { apply header_fields_overwrite; auto; [lia|].
      unfold len. rewrite length_be_encode. unfold len in Hl. lia. }
    assert (Fv : field s' (valuePos_of blk) (be_encode 8 (val mod 2 ^ 64))).
    { apply field_overwrite_same; [lia|]. unfold len. rewrite length_be_encode.
      unfold len in Hl. lia. }
    exists s'. split; [reflexivity|].
    destruct (readUpdateHeader_fields _ _ _ _ _ HF') as [Hg Hr]; auto.
    { unfold s'. rewrite len_overwrite; [lia|]. rewrite length_be_encode.
      unfold len in Hl. lia. }
    unfold tx.CreateLogRecord, file.NewPageFromBytes. rewrite Hg. ok_step.
    cbn [tx.code tx.FromCode]. ok_step.
    unfold tx.NewSetDateRecord. rewrite Hr. ok_step.
    unfold file.GetDate. cbn [file.buffer].
    pose proof (Uint_field 8 s' _ _ Fv) as HU.
    destruct (slice_from s' (valuePos_of blk)) as [b| |]; cbn in HU |- *; try discriminate.
    rewrite HU. ok_step. change (256 ^ Z.of_nat 8) with (2 ^ 64).
    rewrite Z.mod_mod by lia. rewrite (wrap_signed_mod 64) by lia. reflexivity.
Qed.


Lemma bind_Ok_inv {A B} (m : outcome A) (f : A -> outcome B) r :
  m ≫= f = Ok r -> exists a, m = Ok a /\ f a = Ok r.
Proof. destruct m as [a| |]; cbn; intros Hr; try discriminate. eauto. Qed.

Lemma FromCode_code c t : tx.FromCode c = Ok t -> c = tx.code t.
Proof.
  unfold tx.FromCode. intros Hc.
  destruct c as [|p|p]; [| |discriminate].
  - injection Hc as <-. reflexivity.
  - do 4 (try (destruct p as [p|p|]; try discriminate));
      injection Hc as <-; reflexivity.
Qed.

(** What each decoder makes. *)
Lemma update_decoders_Op p r :
  (tx.NewSetIntRecord p = Ok r -> tx.Op r = tx.SetInt)
  /\ (tx.NewSetStringRecord p = Ok r -> tx.Op r = tx.SetString)
  /\ (tx.NewSetBoolRecord p = Ok r -> tx.Op r = tx.SetBool)
  /\ (tx.NewSetLongRecord p = Ok r -> tx.Op r = tx.SetLong)
  /\ (tx.NewSetShortRecord p = Ok r -> tx.Op r = tx.SetShort)
  /\ (tx.NewSetDateRecord p = Ok r -> tx.Op r = tx.SetDate).
Proof.
  split_and!; intros Hr;
    apply bind_Ok_inv in Hr as ([[[t b] o] vp] & _ & Hr);
    apply bind_Ok_inv in Hr as (v & _ & Hr);
    injection Hr as <-; reflexivity.
Qed.

(** X11.  [NewRollbackRecord] reads the transaction number at
    [operationPos * IntSize], which is the offset of the tag: every
    Rollback record decodes with transaction number 3, the code of
    Rollback, on every platform; where ints have 4 bytes this is what
    the bytes written by [WriteRollbackToLog] decode to, whatever the
    transaction. *)
Theorem RollbackRecord_decodes_with_the_tag :
  (forall bytes r, tx.CreateLogRecord bytes = Ok r -> tx.Op r = tx.Rollback ->
                   r = tx.RollbackRecord (tx.code tx.Rollback))
  /\ (is_386_or_arm = true ->
      forall t, MinInt <= t <= MaxInt ->
        exists bytes, tx.RollbackBytes t = Ok bytes
                      /\ tx.CreateLogRecord bytes = Ok (tx.RollbackRecord 3)).
Proof.
  pose proof IntSize_pos as Hsz. pose proof MinInt_neg as Hmin. pose proof MaxInt_pos as Hmax.
  split.
  - intros bytes r Hr Hop. unfold tx.CreateLogRecord in Hr.
    apply bind_Ok_inv in Hr as (c & Hc & Hr).
    apply bind_Ok_inv in Hr as (ty & Hty & Hr).
    apply FromCode_code in Hty. subst c.
    pose proof (update_decoders_Op (file.NewPageFromBytes bytes) r)
      as (H1 & H2 & H3 & H4 & H5 & H6).
    destruct ty;
      try (first [apply H1 in Hr|apply H2 in Hr|apply H3 in Hr
                 |apply H4 in Hr|apply H5 in Hr|apply H6 in Hr]; congruence).
    + injection Hr as <-. discriminate.
    + apply bind_Ok_inv in Hr as (v & _ & Hr). injection Hr as <-. discriminate.
    + apply bind_Ok_inv in Hr as (v & _ & Hr). injection Hr as <-. discriminate.
    + unfold tx.NewRollbackRecord in Hr. cbv zeta in Hr.
      rewrite int_mul_small in Hr by lia. rewrite Z.mul_0_l in Hr.
      rewrite Hc in Hr. cbn in Hr. injection Hr as <-. reflexivity.
  - intros H32 t Ht. pose proof (IntSize_32 H32) as E.
    destruct (two_ints_fields (tx.code tx.Rollback) t) as (s & Hs & Hl & F0 & F1).
    exists s. unfold tx.RollbackBytes. rewrite <- E. rewrite int_mul_2_IntSize.
    rewrite make_bytes_ok by lia. ok_step.
    split.
    + destruct (file.SetInt _ 0 _) as [p1| |]; cbn in Hs |- *; try discriminate.
      rewrite Hs. reflexivity.
    + unfold tx.CreateLogRecord, file.NewPageFromBytes.
      rewrite (GetInt_field s 0 _ F0) by (cbn; lia). ok_step. cbn [tx.code tx.FromCode].
      ok_step. unfold tx.NewRollbackRecord. cbv zeta.
      rewrite int_mul_small by lia. rewrite Z.mul_0_l.
      rewrite (GetInt_field s 0 _ F0) by (cbn; lia). reflexivity.
Qed.

(** X12.  [WriteCheckpointToLog] makes a record of 4 bytes and stores
    an int in it.  Where ints have 4 bytes the record decodes to a
    Checkpoint record; where they have 8, [SetInt] panics, and with it
    every recovery that reaches its checkpoint. *)
Theorem Checkpoint_record_needs_4_byte_ints :
  (is_386_or_arm = true ->
   exists bytes, tx.CheckpointBytes = Ok bytes /\ len bytes = 4
                 /\ tx.CreateLogRecord bytes = Ok tx.CheckpointRecord)
  /\ (is_386_or_arm = false ->
      tx.CheckpointBytes = Panic
      /\ (forall lm fm, tx.WriteCheckpointToLog lm fm = Panic)
      /\ forall t db iterator, is_Ok (tx.RecoveryManager_Recover t db iterator) = false).
Proof.
  pose proof MinInt_neg as Hmin. pose proof MaxInt_pos as Hmax.
  split.
  - intros H32. pose proof (IntSize_32 H32) as E.
    unfold tx.CheckpointBytes. rewrite make_bytes_ok by lia. ok_step.
    unfold file.NewPageFromBytes.
    rewrite SetInt_overwrite by (cbn [file.buffer]; rewrite ?E, ?len_replicate; lia).
    ok_step. cbn [file.Contents file.buffer]. eexists. split; [reflexivity|].
    assert (F : field (overwrite (replicate (Z.to_nat 4) Byte.x00) (Z.to_nat 0)
                                 (int_bytes (tx.code tx.Checkpoint)))
                      0 (int_bytes (tx.code tx.Checkpoint))).
    { apply field_overwrite_same; [lia|]. rewrite len_int_bytes, E, len_replicate. lia. }
    split.
    + rewrite len_overwrite; [rewrite len_replicate; lia|].
      rewrite length_int_bytes, E, length_replicate. lia.
    + unfold tx.CreateLogRecord, file.NewPageFromBytes.
      rewrite (GetInt_field _ 0 _ F) by (cbn; lia). reflexivity.
  - intros H64. pose proof (IntSize_64 H64) as E.
    assert (Hc : tx.CheckpointBytes = Panic).
    { unfold tx.CheckpointBytes. rewrite make_bytes_ok by lia. ok_step.
      rewrite SetInt_out_of_bounds; [reflexivity|].
      right. cbn [file.NewPageFromBytes file.buffer]. rewrite E, len_replicate. lia. }
    assert (Hw : forall lm fm, tx.WriteCheckpointToLog lm fm = Panic).
    { intros lm fm. unfold tx.WriteCheckpointToLog, tx.append_record. rewrite Hc. reflexivity. }
    split; [exact Hc|]. split; [exact Hw|].
    intros t db iterator. unfold tx.RecoveryManager_Recover.
    destruct (tx.doRecover t db iterator) as [[t' db']| |]; try reflexivity. ok_step.
    destruct (tx.Db_FlushAll db' (tx.txNum t')) as [db''| |]; try reflexivity. ok_step.
    unfold tx.writeAndFlush. rewrite Hw. reflexivity.
Qed.

End Fields.

Section RecordExamples.
#[local] Existing Instance goarch_amd64.

Lemma CommitRecord_round_trip_witness :
  exists bytes,
    tx.CommitBytes 7 = Ok bytes
    /\ len bytes = 2 * IntSize
    /\ tx.CreateLogRecord bytes = Ok (tx.CommitRecord 7).
Proof.
  apply (CommitRecord_round_trip 7). split; vm_compute; discriminate.
Defined.

Lemma SetIntRecord_round_trip_witness :
  exists bytes,
    tx.SetIntBytes 7 data1 80 (-42) = Ok bytes
    /\ len bytes = 6 * IntSize + 4 * tx.strlen (file.File data1)
    /\ tx.CreateLogRecord bytes = Ok (tx.SetIntRecord 7 80 (-42) data1).
Proof.
  apply (SetIntRecord_round_trip 7 data1 80 (-42)).
  - split; vm_compute; discriminate.
  - split; vm_compute; discriminate.
  - split; vm_compute; discriminate.
  - split; vm_compute; discriminate.
  - vm_compute. reflexivity.
  - vm_compute. discriminate.
Defined.

Lemma SetStringRecord_round_trip_witness :
  exists bytes,
    tx.SetStringBytes 7 data1 80 "hello" = Ok bytes
    /\ tx.CreateLogRecord bytes = Ok (tx.SetStringRecord 7 80 "hello" data1).
Proof.
  apply (SetStringRecord_round_trip 7 data1 80 "hello").
  - split; vm_compute; discriminate.
  - split; vm_compute; discriminate.
  - split; vm_compute; discriminate.
  - vm_compute. reflexivity.
  - vm_compute. reflexivity.
  - vm_compute. discriminate.
Defined.

Lemma fixed_width_records_round_trip_witness :
  (forall val, exists bytes,
      tx.SetBoolBytes 7 data1 80 val = Ok bytes
      /\ tx.CreateLogRecord bytes = Ok (tx.SetBoolRecord 7 80 val data1))
  /\ (forall val, - 2 ^ 63 <= val < 2 ^ 63 -> exists bytes,
      tx.SetLongBytes 7 data1 80 val = Ok bytes
      /\ tx.CreateLogRecord bytes = Ok (tx.SetLongRecord 7 80 val data1))
  /\ (forall val, - 2 ^ 15 <= val < 2 ^ 15 -> exists bytes,
      tx.SetShortBytes 7 data1 80 val = Ok bytes
      /\ tx.CreateLogRecord bytes = Ok (tx.SetShortRecord 7 80 val data1))
  /\ (forall val, - 2 ^ 63 <= val < 2 ^ 63 -> exists bytes,
      tx.SetDateBytes 7 data1 80 val = Ok bytes
      /\ tx.CreateLogRecord bytes = Ok (tx.SetDateRecord 7 80 val data1)).
Proof.
  apply (fixed_width_records_round_trip 7 data1 80).
  - split; vm_compute; discriminate.
  - split; vm_compute; discriminate.
  - split; vm_compute; discriminate.
  - vm_compute. reflexivity.
  - vm_compute. discriminate.
Defined.

End RecordExamples.

Section RecordExamples386.
#[local] Existing Instance goarch_386.

Lemma StartRecord_roundtrip_32_witness :
  exists bytes,
    tx.StartBytes 7 = Ok bytes
    /\ bytes = be_encode 4 1 ++ be_encode 4 (7 mod 2 ^ 32)
    /\ tx.CreateLogRecord bytes = Ok (tx.StartRecord 7).
Proof.
  apply (StartRecord_roundtrip_32 (H := goarch_386)).
  - vm_compute. reflexivity.
  - split; vm_compute; discriminate.
Defined.

End RecordExamples386.

(** ** The log manager: sequence numbers, flushing, reopening *)

Lemma wrap_error_Ok_inv {A} prefix (m : outcome A) r :
  wrap_error prefix m = Ok r -> m = Ok r.
Proof. destruct m; cbn; intros Hr; try discriminate; exact Hr. Qed.

Section LogSequence.
Context `{Platform}.

Lemma flush_inv m fm m' fm' :
  log.flush m fm = Ok (m', fm') ->
  m' = log.mkManager (log.logFile m) (log.logPage m) (log.currentBlock m)
                     (log.latestLSN m) (log.latestLSN m).
Proof.
  unfold log.flush. intros Hf.
  apply bind_Ok_inv in Hf as (fm1 & _ & Hf). injection Hf as <- _. reflexivity.
Qed.

Lemma Append_lsn m fm r lsn m' fm' :
  log.Append m fm r = Ok (lsn, m', fm') ->
  lsn = int_add (log.latestLSN m) 1
  /\ log.latestLSN m' = lsn
  /\ log.logFile m' = log.logFile m.
Proof.
  unfold log.Append. intros Ha.
  apply bind_Ok_inv in Ha as (b & _ & Ha).
  apply bind_Ok_inv in Ha as ([[b1 m1] fm1] & Hb & Ha).
  assert (Hm1 : log.latestLSN m1 = log.latestLSN m /\ log.logFile m1 = log.logFile m).
  { destruct (bool_decide _) in Hb.
    - apply bind_Ok_inv in Hb as ([m2 fm2] & Hfl & Hb).
      apply wrap_error_Ok_inv, flush_inv in Hfl. subst m2.
      apply bind_Ok_inv in Hb as ([[nb np] fm3] & _ & Hb).
      apply bind_Ok_inv in Hb as (b2 & _ & Hb).
      injection Hb as _ <- _. split; reflexivity.
    - injection Hb as _ <- _. split; reflexivity. }
  destruct Hm1 as [Hl Hf].
  apply bind_Ok_inv in Ha as (p1 & _ & Ha).
  apply bind_Ok_inv in Ha as (p2 & _ & Ha).
  injection Ha as <- <- _. cbn. rewrite Hl, Hf. split_and!; reflexivity.
Qed.

Lemma append_all_lsn records :
  forall m fm m' fm',
    append_all m fm records = Ok (m', fm') ->
    0 <= log.latestLSN m ->
    log.latestLSN m + Z.of_nat (length records) <= MaxInt ->
    log.latestLSN m' = log.latestLSN m + Z.of_nat (length records).
Proof.
  pose proof MinInt_neg as Hmin.
  induction records as [|r records IH]; intros m fm m' fm' Ha H0 Hmax.
  - injection Ha as <- _. cbn [length]. lia.
  - cbn [append_all] in Ha. cbn [length] in Hmax.
    apply bind_Ok_inv in Ha as ([[lsn m1] fm1] & Hap & Ha).
    apply Append_lsn in Hap as (Hlsn & Hl1 & _).
    rewrite int_add_small in Hlsn by lia.
    rewrite (IH _ _ _ _ Ha) by lia. cbn [length]. lia.
Qed.

Lemma Append_saved m fm r lsn m' fm' :
  log.Append m fm r = Ok (lsn, m', fm') ->
  log.lastSavedLSN m' = log.lastSavedLSN m \/ log.lastSavedLSN m' = log.latestLSN m.
Proof.
  unfold log.Append. intros Ha.
  apply bind_Ok_inv in Ha as (b & _ & Ha).
  apply bind_Ok_inv in Ha as ([[b1 m1] fm1] & Hb & Ha).
  assert (Hm1 : log.lastSavedLSN m1 = log.lastSavedLSN m
                \/ log.lastSavedLSN m1 = log.latestLSN m).
  { destruct (bool_decide _) in Hb.
    - apply bind_Ok_inv in Hb as ([m2 fm2] & Hfl & Hb).
      apply wrap_error_Ok_inv, flush_inv in Hfl. subst m2.
      apply bind_Ok_inv in Hb as ([[nb np] fm3] & _ & Hb).
      apply bind_Ok_inv in Hb as (b2 & _ & Hb).
      injection Hb as _ <- _. right. reflexivity.
    - injection Hb as _ <- _. left. reflexivity. }
  apply bind_Ok_inv in Ha as (p1 & _ & Ha).
  apply bind_Ok_inv in Ha as (p2 & _ & Ha).
  injection Ha as _ <- _. cbn. exact Hm1.
Qed.

Lemma append_all_saved records :
  forall m fm m' fm',
    append_all m fm records = Ok (m', fm') ->
    0 <= log.latestLSN m -> log.lastSavedLSN m <= log.latestLSN m ->
    log.latestLSN m + Z.of_nat (length records) <= MaxInt ->
    log.lastSavedLSN m' <= log.latestLSN m'.
Proof.
  pose proof MinInt_neg as Hmin.
  induction records as [|r records IH]; intros m fm m' fm' Ha H0 Hs Hmax.
  - injection Ha as <- _. exact Hs.
  - cbn [append_all] in Ha. cbn [length] in Hmax.
    apply bind_Ok_inv in Ha as ([[lsn m1] fm1] & Hap & Ha).
    pose proof (Append_saved _ _ _ _ _ _ Hap) as Hsv.
    apply Append_lsn in Hap as (Hlsn & Hl1 & _).
    rewrite int_add_small in Hlsn by lia.
    apply (IH _ _ _ _ Ha); lia.
Qed.

Lemma NewManager_lsns fm f m fm' :
  log.NewManager fm f = Ok (m, fm') -> log.latestLSN m = 0 /\ log.lastSavedLSN m = 0.
Proof.
  unfold log.NewManager. intros Hnew.
  apply bind_Ok_inv in Hnew as (p & _ & Hnew).
  apply bind_Ok_inv in Hnew as ([n fm1] & _ & Hnew).
  apply bind_Ok_inv in Hnew as ([[cb pg] fm2] & _ & Hnew).
  injection Hnew as <- _. split; reflexivity.
Qed.

(** X17.  The log sequence numbers count the appends, on every
    platform: a successful [Append] returns the manager's latest LSN
    plus one and makes it the latest, and on a new log manager the
    n-th append returns n. *)
Theorem Append_numbers_the_records :
  (forall m fm r lsn m' fm',
      log.Append m fm r = Ok (lsn, m', fm') ->
      lsn = int_add (log.latestLSN m) 1 /\ log.latestLSN m' = lsn)
  /\ (forall B records r m fm lsn m' fm',
        new_log_with B records = Ok (m, fm) ->
        log.Append m fm r = Ok (lsn, m', fm') ->
        Z.of_nat (length records) < MaxInt ->
        lsn = Z.of_nat (length records) + 1).
Proof.
  pose proof MinInt_neg as Hmin.
  split.
  - intros m fm r lsn m' fm' Ha. apply Append_lsn in Ha as (H1 & H2 & _). auto.
  - intros B records r m fm lsn m' fm' Hn Ha Hmax.
    unfold new_log_with in Hn.
    apply bind_Ok_inv in Hn as ([m0 fm0] & Hnew & Hn).
    assert (H0 : log.latestLSN m0 = 0).
    { unfold log.NewManager in Hnew.
      apply bind_Ok_inv in Hnew as (p & _ & Hnew).
      apply bind_Ok_inv in Hnew as ([n fm1] & _ & Hnew).
      apply bind_Ok_inv in Hnew as ([[cb pg] fm2] & _ & Hnew).
      injection Hnew as <- _. reflexivity. }
    apply append_all_lsn in Hn; rewrite ?H0; try lia.
    apply Append_lsn in Ha as (-> & _ & _).
    rewrite Hn, H0. rewrite int_add_small by lia. lia.
Qed.


Lemma Write_Read_back m blk page :
  0 <= file.Number blk * file.blockSize m < 2 ^ 63 ->
  exists m',
    file.Write m blk page = Ok m'
    /\ file.blockSize m' = file.blockSize m
    /\ forall q, len (file.buffer q) = len (file.buffer page) ->
                 exists m'', file.Read m' blk q = Ok (m'', page).
Proof.
  intros Ho. eexists. split; [apply Write_any; exact Ho|].
  set (c' := file.write_at (file.file_contents m (file.Filename blk))
                           (file.Number blk * file.blockSize m) (file.buffer page)).
  set (m1 := file.incr_blocksWritten
               (file.set_contents (file.getFile m (file.Filename blk))
                                  (file.Filename blk) c')).
  assert (Hc : file.file_contents m1 (file.Filename blk) = c').
  { unfold m1. apply contents_after_write. }
  assert (HB : file.blockSize m1 = file.blockSize m).
  { unfold m1. rewrite (proj2 (contents_after_write _ _ _)). apply blockSize_getFile. }
  split; [exact HB|]. intros q Hq. eexists.
  rewrite Read_full; rewrite ?HB, ?Hc.
  - f_equal. f_equal. unfold len in Hq. apply Nat2Z.inj in Hq. rewrite Hq.
    unfold c'. rewrite window_write_at_same by lia.
    destruct page; reflexivity.
  - exact Ho.
  - unfold c'. rewrite len_write_at by lia. lia.
Qed.

(** X18.  [Flush(lsn)] does nothing when [lsn] is below the last saved
    LSN; otherwise it writes the log page to the current block, from
    which it can be read back, and the last saved LSN becomes the
    latest one. *)
Theorem Flush_saves_the_log_page m fm lsn :
  0 <= file.Number (log.currentBlock m) * file.blockSize fm < 2 ^ 63 ->
  (lsn < log.lastSavedLSN m -> log.Flush m fm lsn = Ok (m, fm))
  /\ (log.lastSavedLSN m <= lsn ->
      exists fm',
        log.Flush m fm lsn
        = Ok (log.mkManager (log.logFile m) (log.logPage m) (log.currentBlock m)
                            (log.latestLSN m) (log.latestLSN m), fm')
        /\ forall q, len (file.buffer q) = len (file.buffer (log.logPage m)) ->
                     exists fm'', file.Read fm' (log.currentBlock m) q
                                  = Ok (fm'', log.logPage m)).
Proof.
  intros Ho. unfold log.Flush. split; intros Hl.
  - rewrite bool_decide_eq_false_2 by lia. reflexivity.
  - rewrite bool_decide_eq_true_2 by lia.
    destruct (Write_Read_back fm (log.currentBlock m) (log.logPage m) Ho)
      as (fm' & Hw & _ & Hr).
    exists fm'. unfold log.flush. rewrite Hw. ok_step. split; [reflexivity|exact Hr].
Qed.

End LogSequence.

Section LogReopen.
Context `{Platform} (H32 : is_386_or_arm = true).

(** A log manager opened on a log file that an earlier manager has
    flushed starts from that manager's page. *)
Lemma NewManager_reopen B m fm blocks cur :
  8 <= B <= 2147483643 -> Z.of_nat (length blocks) <= 2147483645 ->
  log_inv B m fm blocks cur ->
  exists m1 fm1 m2 fm2,
    log.flush m fm = Ok (m1, fm1)
    /\ log.NewManager fm1 (log.logFile m) = Ok (m2, fm2)
    /\ log.logFile m2 = log.logFile m
    /\ log.latestLSN m2 = 0
    /\ log_inv B m2 fm2 blocks cur.
Proof.
  intros HB HN (Hbs & Hcur & Hlen & Hdisk & Hpage).
  set (N := Z.of_nat (length blocks)) in *.
  set (f := log.logFile m) in *.
  assert (Hoff : (N + 1) * B < 2 ^ 63).
  { pose proof (offset_small (N + 1) B ltac:(lia) ltac:(lia)). lia. }
  destruct Hpage as (HlenP & bnd & Hbnd).
  destruct (flush_ok B m fm N ltac:(lia) Hbs ltac:(lia) Hoff Hcur HlenP ltac:(fold f; lia))
    as (fm1 & Hfl & Hbs1 & Hlen1 & Hblk1 & Hoth1).
  fold f in Hlen1, Hblk1, Hoth1.
  exists (log.mkManager (log.logFile m) (log.logPage m) (log.currentBlock m)
                        (log.latestLSN m) (log.latestLSN m)), fm1.
  unfold log.NewManager, file.BlockSize. rewrite Hbs1.
  unfold file.NewPage. rewrite make_bytes_ok by lia. ok_step.
  rewrite (Length_ok fm1 f (N + 1))
    by (rewrite ?Hbs1, ?Hlen1, ?(MaxInt_32 H32); lia).
  ok_step. rewrite bool_decide_eq_false_2 by lia.
  rewrite (int_sub_32 H32) by lia. replace (N + 1 - 1) with N by lia.
  rewrite Read_ok;
    [|rewrite blockSize_getFile, Hbs1; lia|lia
     |rewrite blockSize_getFile, Hbs1; nia
     |rewrite blockSize_getFile, file_contents_getFile, Hbs1, Hlen1; lia
     |cbn [file.buffer]; rewrite blockSize_getFile, Hbs1, len_replicate; lia].
  ok_step. rewrite blockSize_getFile, file_contents_getFile, Hbs1, Hblk1.
  eexists _, _. split; [exact Hfl|]. split; [reflexivity|].
  cbn [log.logFile log.latestLSN]. split; [reflexivity|]. split; [reflexivity|].
  unfold log_inv. cbn [log.logFile log.currentBlock log.logPage file.buffer].
  fold f. rewrite getFile_getFile.
  destruct (contents_after_read fm1 f) as [Hc Hb]. rewrite Hc, Hb.
  split; [exact Hbs1|]. split; [reflexivity|]. split; [rewrite Hlen1; exact Hlen|].
  split.
  - intros j rs Hj. rewrite Hoth1; [apply Hdisk; exact Hj|lia|].
    apply lookup_lt_Some in Hj. unfold N. lia.
  - split; [exact HlenP|]. exists bnd. rewrite mkPage_buffer in Hbnd |- *. exact Hbnd.
Qed.

(** X21.  Where [IntSize] is 4: records appended to a new log and
    flushed are still there for a log manager opened later on the same
    file, whose iterator delivers them newest first; the new manager
    counts its LSNs from zero again. *)
Theorem flushed_records_survive_reopening B records :
  8 <= B <= 2147483643 ->
  Forall (fun r => len r + 8 <= B) records ->
  Z.of_nat (length records) <= 2147483645 ->
  exists m fm m1 fm1 m2 fm2 it m3 fm3,
    new_log_with B records = Ok (m, fm)
    /\ log.Flush m fm (log.latestLSN m) = Ok (m1, fm1)
    /\ log.NewManager fm1 "testlog" = Ok (m2, fm2)
    /\ log.latestLSN m2 = 0
    /\ log.Iterator_ m2 fm2 = Ok (it, m3, fm3)
    /\ drain (S (length records)) it fm3 = (map Ok (rev records), true).
Proof.
  intros HB Hfit HN. unfold new_log_with.
  destruct (NewManager_fresh H32 B "testlog" HB) as (m0 & fm0 & Hnew & Hf0 & Hinv0).
  rewrite Hnew. ok_step.
  destruct (append_all_inv H32 B records HB Hfit m0 fm0 [] []
              ltac:(cbn [length]; lia) Hinv0)
    as (m & fm & blocks & cur & Happ & Hf & Hinv & Hord).
  rewrite Happ. unfold iter_order in Hord at 2. cbn [rev concat app] in Hord.
  rewrite app_nil_r in Hord.
  assert (Hcount : length (iter_order blocks cur) = length records).
  { rewrite Hord. apply length_rev. }
  assert (Hblocks : (length blocks <= length records)%nat).
  { rewrite <- Hcount. unfold iter_order. rewrite length_app.
    assert (Hle : (length (rev blocks) <= length (concat (rev blocks)))%nat).
    { destruct Hinv as (_ & _ & _ & Hdisk & _).
      assert (Hall : Forall (fun rs => rs <> []) (rev blocks)).
      { apply List.Forall_rev. apply Forall_lookup. intros j rs Hj.
        apply (Hdisk j rs Hj). }
      clear -Hall. induction Hall as [|rs l Hne _ IH]; [simpl; lia|].
      cbn [concat length]. rewrite length_app.
      destruct rs; [congruence|]. cbn [length]. lia. }
    rewrite length_rev in Hle. lia. }
  destruct (NewManager_reopen B m fm blocks cur HB ltac:(lia) Hinv)
    as (m1 & fm1 & m2 & fm2 & Hfl & Hre & Hf2 & Hl2 & Hinv2).
  destruct (Iterator_ok B m2 fm2 blocks cur HB ltac:(lia) Hinv2)
    as (it & m3 & fm3 & Hit & Hinv3).
  exists m, fm, m1, fm1, m2, fm2, it, m3, fm3.
  split; [reflexivity|].
  split.
  { unfold log.Flush. rewrite bool_decide_eq_true_2; [exact Hfl|].
    destruct (NewManager_lsns _ _ _ _ Hnew) as [Hl0 Hs0].
    pose proof MaxInt_pos.
    pose proof (append_all_saved records m0 fm0 m fm Happ ltac:(lia) ltac:(lia)
                  ltac:(rewrite (MaxInt_32 H32); lia)).
    lia. }
  rewrite Hf, Hf0 in Hre. split; [exact Hre|]. split; [exact Hl2|].
  split; [exact Hit|].
  rewrite <- Hord.
  apply (drain_spec H32 B (log.logFile m2) blocks HB ltac:(lia) cur it fm3 _ Hinv3).
  rewrite Hcount. lia.
Qed.


(** X20.  Where [IntSize] is 4, on a log that received [records]: the
    next record goes right below the boundary, length first, and the
    boundary moves to its start; if it does not fit above the boundary
    field, the page is first written to its block and the record goes
    to the top of a new one.  In the first case nothing is written to
    the file and the records already in the page stay where they are. *)
Theorem Append_places_the_record_32 B records r :
  8 <= B <= 2147483643 ->
  Forall (fun r => len r + 8 <= B) records -> len r + 8 <= B ->
  Z.of_nat (length records) <= 2147483644 ->
  exists m fm b lsn m' fm',
    new_log_with B records = Ok (m, fm)
    /\ file.GetInt (log.logPage m) 0 = Ok b
    /\ log.Append m fm r = Ok (lsn, m', fm')
    /\ let pos := (if bool_decide (b - (len r + 4) < 4) then B else b) - (len r + 4) in
       file.GetInt (log.logPage m') 0 = Ok pos
       /\ window (file.buffer (log.logPage m')) (Z.to_nat pos) 4 = be_encode 4 (len r)
       /\ window (file.buffer (log.logPage m')) (Z.to_nat (pos + 4)) (length r) = r
       /\ file.GetBytes (log.logPage m') pos = Ok r
       /\ (4 <= b - (len r + 4) ->
           fm' = fm /\ log.currentBlock m' = log.currentBlock m
           /\ drop (Z.to_nat b) (file.buffer (log.logPage m'))
              = drop (Z.to_nat b) (file.buffer (log.logPage m)))
       /\ (b - (len r + 4) < 4 ->
           file.BlockNumber (log.currentBlock m')
           = file.BlockNumber (log.currentBlock m) + 1
           /\ block_at (file.file_contents fm' (log.logFile m)) B
                       (file.BlockNumber (log.currentBlock m))
              = file.buffer (log.logPage m)).
Proof.
  intros HB Hfit Hr HN. unfold new_log_with.
  destruct (NewManager_fresh H32 B "testlog" HB) as (m0 & fm0 & Hnew & Hf0 & Hinv0).
  rewrite Hnew. ok_step.
  destruct (append_all_inv H32 B records HB Hfit m0 fm0 [] []
              ltac:(cbn [length]; lia) Hinv0)
    as (m & fm & blocks & cur & Happ & Hf & Hinv & Hord).
  rewrite Happ. unfold iter_order in Hord at 2. cbn [rev concat app] in Hord.
  rewrite app_nil_r in Hord.
  assert (Hcount : length (iter_order blocks cur) = length records).
  { rewrite Hord. apply length_rev. }
  assert (Hblocks : (length blocks <= length records)%nat).
  { rewrite <- Hcount. unfold iter_order. rewrite length_app.
    assert (Hle : (length (rev blocks) <= length (concat (rev blocks)))%nat).
    { destruct Hinv as (_ & _ & _ & Hdisk & _).
      assert (Hall : Forall (fun rs => rs <> []) (rev blocks)).
      { apply List.Forall_rev. apply Forall_lookup. intros j rs Hj.
        apply (Hdisk j rs Hj). }
      clear -Hall. induction Hall as [|rs l Hne _ IH]; [simpl; lia|].
      cbn [concat length]. rewrite length_app.
      destruct rs; [congruence|]. cbn [length]. lia. }
    rewrite length_rev in Hle. lia. }
  destruct (Append_layout_32 H32 B m fm blocks cur r HB Hr ltac:(lia) Hinv)
    as (b & lsn & m' & fm' & Hb & Ha & _ & _ & Hf' & Hlay).
  cbv zeta in Hlay. destruct Hlay as (Hg & Hgb & Hstay & Hspill).
  exists m, fm, b, lsn, m', fm'.
  split; [reflexivity|]. split; [exact Hb|]. split; [exact Ha|]. cbv zeta.
  set (pos := (if bool_decide (b - (len r + 4) < 4) then B else b) - (len r + 4)) in *.
  assert (Hholds : exists blocks' rest,
             log_inv B m' fm' blocks' (r :: rest)).
  { destruct (decide (b - (len r + 4) < 4)) as [Hlt|Hge].
    - destruct (Hspill Hlt) as (_ & _ & _ & Hi). eauto.
    - destruct (Hstay ltac:(lia)) as (_ & _ & _ & Hi). eauto. }
  destruct Hholds as (blocks' & rest & (_ & _ & _ & _ & (_ & b' & Hb' & _ & Hh))).
  rewrite mkPage_buffer in Hb'. rewrite Hg in Hb'. injection Hb' as <-.
  destruct Hh as (_ & _ & Hw1 & Hw2 & _).
  split; [exact Hg|]. split; [exact Hw1|]. split; [exact Hw2|]. split; [exact Hgb|].
  split.
  - intros Hge. destruct (Hstay Hge) as (H1 & H2 & H3 & _). auto.
  - intros Hlt. destruct (Hspill Hlt) as (H1 & H2 & _ & _).
    destruct Hinv as (_ & Hcur & _). rewrite H1, Hcur. cbn [file.BlockNumber].
    split; [reflexivity|exact H2].
Qed.

End LogReopen.

Section LogExamples386.
#[local] Existing Instance goarch_386.

Lemma Iterator_reverses_appends_32_witness :
  exists m fm it m' fm',
    new_log_with 400 [log_record_1; hello] = Ok (m, fm)
    /\ log.Iterator_ m fm = Ok (it, m', fm')
    /\ drain (S (length [log_record_1; hello])) it fm'
       = (map Ok (rev [log_record_1; hello]), true).
Proof.
  apply (Iterator_reverses_appends_32 (H := goarch_386)).
  - vm_compute. reflexivity.
  - lia.
  - repeat constructor; vm_compute; discriminate.
  - vm_compute. discriminate.
Defined.

Lemma flushed_records_survive_reopening_witness :
  exists m fm m1 fm1 m2 fm2 it m3 fm3,
    new_log_with 400 [log_record_1; hello] = Ok (m, fm)
    /\ log.Flush m fm (log.latestLSN m) = Ok (m1, fm1)
    /\ log.NewManager fm1 "testlog" = Ok (m2, fm2)
    /\ log.latestLSN m2 = 0
    /\ log.Iterator_ m2 fm2 = Ok (it, m3, fm3)
    /\ drain (S (length [log_record_1; hello])) it fm3
       = (map Ok (rev [log_record_1; hello]), true).
Proof.
  apply (flushed_records_survive_reopening (H := goarch_386)).
  - vm_compute. reflexivity.
  - lia.
  - repeat constructor; vm_compute; discriminate.
  - vm_compute. discriminate.
Defined.

Lemma Append_places_the_record_32_witness :
  exists m fm b lsn m' fm',
    new_log_with 400 [log_record_1] = Ok (m, fm)
    /\ file.GetInt (log.logPage m) 0 = Ok b
    /\ log.Append m fm hello = Ok (lsn, m', fm')
    /\ let pos := (if bool_decide (b - (len hello + 4) < 4) then 400 else b)
                  - (len hello + 4) in
       file.GetInt (log.logPage m') 0 = Ok pos
       /\ window (file.buffer (log.logPage m')) (Z.to_nat pos) 4 = be_encode 4 (len hello)
       /\ window (file.buffer (log.logPage m')) (Z.to_nat (pos + 4)) (length hello) = hello
       /\ file.GetBytes (log.logPage m') pos = Ok hello
       /\ (4 <= b - (len hello + 4) ->
           fm' = fm /\ log.currentBlock m' = log.currentBlock m
           /\ drop (Z.to_nat b) (file.buffer (log.logPage m'))
              = drop (Z.to_nat b) (file.buffer (log.logPage m)))
       /\ (b - (len hello + 4) < 4 ->
           file.BlockNumber (log.currentBlock m')
           = file.BlockNumber (log.currentBlock m) + 1
           /\ block_at (file.file_contents fm' (log.logFile m)) 400
                       (file.BlockNumber (log.currentBlock m))
              = file.buffer (log.logPage m)).
Proof.
  apply (Append_places_the_record_32 (H := goarch_386)).
  - vm_compute. reflexivity.
  - lia.
  - repeat constructor; vm_compute; discriminate.
  - vm_compute. discriminate.
  - vm_compute. discriminate.
Defined.

End LogExamples386.

Section LogExamplesAmd64.
#[local] Existing Instance goarch_amd64.

Lemma Flush_saves_the_log_page_witness :
  let m := log.mkManager "testlog" page_of_ones (file.mkBlockId "testlog" 0) 3 1 in
  (2 < log.lastSavedLSN m -> log.Flush m (fresh_fileManager 400) 2 = Ok (m, fresh_fileManager 400))
  /\ (log.lastSavedLSN m <= 2 ->
      exists fm',
        log.Flush m (fresh_fileManager 400) 2
        = Ok (log.mkManager (log.logFile m) (log.logPage m) (log.currentBlock m)
                            (log.latestLSN m) (log.latestLSN m), fm')
        /\ forall q, len (file.buffer q) = len (file.buffer (log.logPage m)) ->
                     exists fm'', file.Read fm' (log.currentBlock m) q
                                  = Ok (fm'', log.logPage m)).
Proof.
  apply (Flush_saves_the_log_page
           (log.mkManager "testlog" page_of_ones (file.mkBlockId "testlog" 0) 3 1)
           (fresh_fileManager 400) 2).
  split; vm_compute; [discriminate|reflexivity].
Defined.

End LogExamplesAmd64.

(** ** The buffer manager: pinning, the count of available buffers, flushing *)

Lemma find_index_Some {A} (P : A -> bool) l i :
  buffer.find_index P l = Some i -> exists x, l !! i = Some x /\ P x = true.
Proof.
  revert i. induction l as [|a l IH]; intros i Hf; [discriminate|].
  cbn [buffer.find_index] in Hf. destruct (P a) eqn:Ha.
  - injection Hf as <-. exists a. split; [reflexivity|exact Ha].
  - destruct (buffer.find_index P l) as [j|]; [|discriminate].
    injection Hf as <-. destruct (IH j eq_refl) as (x & Hx & HP). exists x. auto.
Qed.

Lemma find_index_None {A} (P : A -> bool) l :
  buffer.find_index P l = None <-> Forall (fun x => P x = false) l.
Proof.
  induction l as [|a l IH]; cbn [buffer.find_index].
  - split; [constructor|reflexivity].
  - destruct (P a) eqn:Ha.
    + split; [discriminate|]. intros Hall. inversion Hall; congruence.
    + destruct (buffer.find_index P l) as [j|].
      * split; [discriminate|]. intros Hall. inversion Hall as [|? ? _ Hl]; subst.
        apply IH in Hl. discriminate.
      * split; [|reflexivity]. intros _. constructor; [exact Ha|]. apply IH. reflexivity.
Qed.

Lemma unpinned_count_insert pool i b b' :
  pool !! i = Some b ->
  unpinned_count (<[i := b']> pool)
  = unpinned_count pool - ind (negb (buffer.isPinned b)) + ind (negb (buffer.isPinned b')).
Proof.
  unfold unpinned_count. revert i. induction pool as [|a pool IH]; intros i Hi; [discriminate|].
  destruct i as [|i].
  - injection Hi as ->. change (<[0%nat := b']> (b :: pool)) with (b' :: pool).
    cbn [List.filter].
    destruct (negb (buffer.isPinned b)), (negb (buffer.isPinned b')); cbn [length ind]; lia.
  - change ((a :: pool) !! S i) with (pool !! i) in Hi. specialize (IH i Hi).
    change (<[S i := b']> (a :: pool)) with (a :: <[i := b']> pool).
    cbn [List.filter].
    destruct (negb (buffer.isPinned a)); cbn [length]; lia.
Qed.

Lemma unpinned_count_range pool : 0 <= unpinned_count pool <= len pool.
Proof.
  unfold unpinned_count, len. pose proof (List.filter_length_le (fun b => negb (buffer.isPinned b)) pool).
  lia.
Qed.

Lemma Equals_eq b blk : file.Equals b blk = true -> b = blk.
Proof.
  unfold file.Equals. intros He. apply andb_true_iff in He as [H1 H2].
  apply bool_decide_eq_true in H1, H2. destruct b, blk; cbn in *; congruence.
Qed.

Section BufferPool.
Context `{Platform}.

Lemma assignToBlock_inv b blk lm fm b' lm' fm' :
  buffer.assignToBlock b blk lm fm = Ok (b', lm', fm') ->
  buffer.block b' = Some blk /\ buffer.pins b' = 0.
Proof.
  unfold buffer.assignToBlock. intros Ha.
  apply bind_Ok_inv in Ha as ([[b1 lm1] fm1] & _ & Ha).
  apply bind_Ok_inv in Ha as ([fm2 pg] & _ & Ha).
  injection Ha as <- _ _. split; reflexivity.
Qed.

(** What a successful [tryToPin] does to the pool. *)
Lemma tryToPin_inv m blk lm fm i m' lm' fm' :
  buffer.tryToPin m blk lm fm = Ok (Some i, m', lm', fm') ->
  exists pool1 b1,
    pool1 !! i = Some b1
    /\ buffer.block b1 = Some blk
    /\ buffer.bufferPool m' = <[i := buffer.pin b1]> pool1
    /\ buffer.numAvailable m'
       = (if negb (buffer.isPinned b1) then int_sub (buffer.numAvailable m) 1
          else buffer.numAvailable m)
    /\ ((buffer.findExistingBuffer m blk = Some i /\ pool1 = buffer.bufferPool m
         /\ lm' = lm /\ fm' = fm)
        \/ (buffer.findExistingBuffer m blk = None
            /\ exists b0, buffer.bufferPool m !! i = Some b0
                          /\ buffer.isPinned b0 = false
                          /\ buffer.pins b1 = 0
                          /\ pool1 = <[i := b1]> (buffer.bufferPool m))).
Proof.
  unfold buffer.tryToPin. intros Ht.
  apply bind_Ok_inv in Ht as (chosen & Hc & Ht).
  destruct chosen as [[[[j m1] lm1] fm1]|]; [|discriminate].
  destruct (buffer.bufferPool m1 !! j) as [b1|] eqn:Hj; [|discriminate].
  injection Ht as <- <- <- <-. cbn [buffer.bufferPool buffer.numAvailable].
  destruct (buffer.findExistingBuffer m blk) as [k|] eqn:Hfind.
  - injection Hc as <- <- <- <-.
    exists (buffer.bufferPool m), b1. split; [exact Hj|].
    unfold buffer.findExistingBuffer in Hfind.
    apply find_index_Some in Hfind as (x & Hx & HP). rewrite Hj in Hx. injection Hx as <-.
    unfold buffer.Block in HP. destruct (buffer.block b1) as [bb|] eqn:Hb; [|discriminate].
    apply Equals_eq in HP. subst bb.
    split; [reflexivity|]. split; [reflexivity|]. split; [reflexivity|].
    left. unfold buffer.findExistingBuffer. auto.
  - destruct (buffer.chooseUnpinnedBuffer m) as [k|] eqn:Hch; [|discriminate].
    destruct (buffer.bufferPool m !! k) as [b0|] eqn:Hk; [|discriminate].
    apply bind_Ok_inv in Hc as ([[b2 lm2] fm2] & Has & Hc).
    injection Hc as <- <- <- <-. cbn [buffer.bufferPool buffer.numAvailable] in *.
    apply assignToBlock_inv in Has as [Hblk Hpins].
    rewrite list_lookup_insert_eq in Hj by (apply lookup_lt_Some in Hk; exact Hk).
    injection Hj as <-.
    exists (<[k := b2]> (buffer.bufferPool m)), b2.
    split; [apply list_lookup_insert_eq; apply lookup_lt_Some in Hk; exact Hk|].
    split; [exact Hblk|]. split; [reflexivity|]. split; [reflexivity|].
    right. split; [reflexivity|]. exists b0. split; [exact Hk|].
    unfold buffer.chooseUnpinnedBuffer in Hch.
    apply find_index_Some in Hch as (x & Hx & HP). rewrite Hk in Hx. injection Hx as <-.
    split; [apply negb_true_iff in HP; exact HP|]. split; [exact Hpins|reflexivity].
Qed.

Lemma Pin_inv m blk lm fm i m' lm' fm' :
  buffer.Pin m blk lm fm = Ok (i, m', lm', fm') ->
  buffer.tryToPin m blk lm fm = Ok (Some i, m', lm', fm').
Proof.
  unfold buffer.Pin. intros Hp.
  apply bind_Ok_inv in Hp as ([[[o m1] lm1] fm1] & Ht & Hp).
  destruct o as [j|]; [|discriminate]. injection Hp as <- <- <- <-. exact Ht.
Qed.

Lemma isPinned_pin b : 0 <= buffer.pins b < MaxInt -> buffer.isPinned (buffer.pin b) = true.
Proof.
  intros Hb. pose proof MinInt_neg. unfold buffer.isPinned, buffer.pin. cbn [buffer.pins].
  rewrite int_add_small by lia. apply bool_decide_eq_true_2. lia.
Qed.

(** X22.  [Available()] is the number of unpinned buffers: that, and
    pin counts that are never negative, hold after every successful
    [Pin] and after every [Unpin] of a pinned buffer, if they held
    before.  After [Pin] the buffer returned is pinned and holds the
    block asked for. *)
Theorem Available_counts_unpinned_buffers n m :
  pool_within n m -> n < MaxInt -> len (buffer.bufferPool m) <= MaxInt ->
  (forall blk lm fm i m' lm' fm',
      buffer.Pin m blk lm fm = Ok (i, m', lm', fm') ->
      pool_within (n + 1) m'
      /\ length (buffer.bufferPool m') = length (buffer.bufferPool m)
      /\ exists b, buffer.bufferPool m' !! i = Some b
                   /\ buffer.Block b = Some blk /\ buffer.isPinned b = true)
  /\ (forall i b, buffer.bufferPool m !! i = Some b -> buffer.isPinned b = true ->
                  pool_within n (buffer.Unpin m i)).
Proof.
  intros [Hav Hpins] Hn Hlen. pose proof MinInt_neg as Hmin.
  pose proof (unpinned_count_range (buffer.bufferPool m)) as Hrange.
  split.
  - intros blk lm fm i m' lm' fm' Hp. apply Pin_inv, tryToPin_inv in Hp.
    destruct Hp as (pool1 & b1 & Hi & Hblk & Hpool & Havail & Hcase).
    assert (Hpool1 : unpinned_count pool1 = unpinned_count (buffer.bufferPool m)
                     /\ Forall (fun b => 0 <= buffer.pins b <= n) pool1
                     /\ length pool1 = length (buffer.bufferPool m)).
    { destruct Hcase as [(_ & -> & _)|(_ & b0 & Hb0 & Hun & Hp1 & ->)]; [auto|].
      split; [|split].
      - rewrite (unpinned_count_insert _ _ b0) by exact Hb0.
        assert (Hu1 : buffer.isPinned b1 = false)
          by (unfold buffer.isPinned; rewrite Hp1; apply bool_decide_eq_false_2; lia).
        rewrite Hun, Hu1. cbn. lia.
      - apply Forall_insert; [exact Hpins|]. rewrite Hp1.
        rewrite Forall_lookup in Hpins. pose proof (Hpins i b0 Hb0). lia.
      - apply length_insert. }
    destruct Hpool1 as (Hc1 & Hp1 & Hl1).
    assert (Hb1 : 0 <= buffer.pins b1 <= n).
    { rewrite Forall_lookup in Hp1. apply (Hp1 i b1 Hi). }
    assert (Hpinned : buffer.isPinned (buffer.pin b1) = true) by (apply isPinned_pin; lia).
    split; [split|split].
    + rewrite Havail, Hpool, (unpinned_count_insert _ _ b1) by exact Hi.
      rewrite Hpinned. cbn [negb ind]. rewrite Hc1.
      destruct (negb (buffer.isPinned b1)) eqn:Hu; cbn [ind].
      * rewrite int_sub_small by lia. lia.
      * lia.
    + rewrite Hpool. apply Forall_insert.
      * eapply Forall_impl; [exact Hp1|]. cbn. intros; lia.
      * unfold buffer.pin. cbn [buffer.pins]. rewrite int_add_small by lia. lia.
    + rewrite Hpool, length_insert. exact Hl1.
    + exists (buffer.pin b1). rewrite Hpool.
      split; [apply list_lookup_insert_eq; apply lookup_lt_Some in Hi; exact Hi|].
      split; [exact Hblk|exact Hpinned].
  - intros i b Hi Hp. unfold buffer.Unpin. rewrite Hi.
    assert (Hb : 0 <= buffer.pins b <= n).
    { rewrite Forall_lookup in Hpins. apply (Hpins i b Hi). }
    unfold buffer.isPinned in Hp. apply bool_decide_eq_true in Hp.
    assert (Hu : buffer.pins (buffer.unpin b) = buffer.pins b - 1).
    { unfold buffer.unpin. cbn [buffer.pins]. apply int_sub_small. lia. }
    assert (Hcount : unpinned_count (<[i := buffer.unpin b]> (buffer.bufferPool m))
                     = unpinned_count (buffer.bufferPool m)
                       + ind (negb (buffer.isPinned (buffer.unpin b)))).
    { rewrite (unpinned_count_insert _ _ b) by exact Hi.
      unfold buffer.isPinned at 1. rewrite bool_decide_eq_true_2 by lia. cbn. lia. }
    pose proof (unpinned_count_range (<[i := buffer.unpin b]> (buffer.bufferPool m))) as Hr'.
    unfold len in Hr'. rewrite length_insert in Hr'. fold (len (buffer.bufferPool m)) in Hr'.
    destruct (negb (buffer.isPinned (buffer.unpin b))) eqn:Hnp;
      (split; cbn [buffer.numAvailable buffer.bufferPool];
       [|apply Forall_insert; [exact Hpins|rewrite Hu; lia]]).
    + rewrite Hcount. cbn [ind] in *. rewrite int_add_small by lia. lia.
    + rewrite Hcount. cbn [ind]. lia.
Qed.


(** X23.  A block that a buffer of the pool already holds is pinned
    without touching the log or the files; a block that no buffer holds
    cannot be pinned while every buffer is pinned: the caller, alone,
    waits until the deadline and gets the buffer abort error. *)
Theorem Pin_hit_and_Pin_when_full m blk lm fm :
  (forall i, buffer.findExistingBuffer m blk = Some i ->
             exists m', buffer.Pin m blk lm fm = Ok (i, m', lm, fm))
  /\ (Forall (fun b => buffer.isPinned b = true /\ buffer.Block b <> Some blk)
             (buffer.bufferPool m) ->
      buffer.Pin m blk lm fm = Error "buffer abort exception: could not pin block").
Proof.
  split.
  - intros i Hf. unfold buffer.Pin, buffer.tryToPin. rewrite Hf. ok_step.
    unfold buffer.findExistingBuffer in Hf.
    apply find_index_Some in Hf as (b & Hb & _). rewrite Hb. ok_step. eauto.
  - intros Hall. unfold buffer.Pin, buffer.tryToPin.
    assert (Hf : buffer.findExistingBuffer m blk = None).
    { unfold buffer.findExistingBuffer. apply find_index_None.
      eapply Forall_impl; [exact Hall|]. cbn. intros b [_ Hb].
      destruct (buffer.Block b) as [bb|] eqn:Hbb; [|reflexivity].
      destruct (file.Equals bb blk) eqn:He; [|reflexivity].
      apply Equals_eq in He. congruence. }
    assert (Hc : buffer.chooseUnpinnedBuffer m = None).
    { unfold buffer.chooseUnpinnedBuffer. apply find_index_None.
      eapply Forall_impl; [exact Hall|]. cbn. intros b [Hp _]. rewrite Hp. reflexivity. }
    rewrite Hf, Hc. reflexivity.
Qed.

Lemma flush_inv_buffer b lm fm b' lm' fm' :
  buffer.flush b lm fm = Ok (b', lm', fm') ->
  b' = if bool_decide (buffer.txnNum b >= 0)
       then buffer.mkBuffer (buffer.contents b) (buffer.block b) (buffer.pins b) (-1)
                            (buffer.lsn b)
       else b.
Proof.
  unfold buffer.flush. case_bool_decide as Hd; intros Hf.
  - apply bind_Ok_inv in Hf as ([lm1 fm1] & _ & Hf).
    apply bind_Ok_inv in Hf as (blk & _ & Hf).
    apply bind_Ok_inv in Hf as (fm2 & _ & Hf).
    injection Hf as <- _ _. reflexivity.
  - injection Hf as <- _ _. reflexivity.
Qed.

Lemma FlushAll_from_inv pool txn :
  forall lm fm pool' lm' fm',
    buffer.FlushAll_from pool txn lm fm = Ok (pool', lm', fm') ->
    pool' = map (flushed_for txn) pool.
Proof.
  induction pool as [|b pool IH]; intros lm fm pool' lm' fm' Hf.
  - injection Hf as <- _ _. reflexivity.
  - cbn [buffer.FlushAll_from] in Hf.
    apply bind_Ok_inv in Hf as ([[b1 lm1] fm1] & Hb & Hf).
    apply bind_Ok_inv in Hf as ([[rest lm2] fm2] & Hr & Hf).
    injection Hf as <- _ _. cbn [map]. rewrite (IH _ _ _ _ _ Hr). f_equal.
    unfold flushed_for, buffer.modifyingTxn in *.
    destruct (decide (buffer.txnNum b = txn)) as [He|Hne].
    + rewrite bool_decide_eq_true_2 in Hb by exact He.
      apply wrap_error_Ok_inv, flush_inv_buffer in Hb. rewrite Hb.
      rewrite He. destruct (decide (txn >= 0)).
      * rewrite !bool_decide_eq_true_2 by auto. reflexivity.
      * rewrite !bool_decide_eq_false_2 by tauto. reflexivity.
    + rewrite bool_decide_eq_false_2 in Hb by exact Hne. injection Hb as <- _ _.
      rewrite bool_decide_eq_false_2 by tauto. reflexivity.
Qed.

(** X24.  After a successful [FlushAll(txn)] no buffer is marked as
    modified by [txn] any more; the buffers keep their pages, blocks,
    pin counts and LSNs, the buffers of other transactions their mark,
    and the count of available buffers is as before. *)
Theorem FlushAll_cleans_the_buffers_of_the_transaction m txn lm fm m' lm' fm' :
  buffer.FlushAll m txn lm fm = Ok (m', lm', fm') ->
  buffer.numAvailable m' = buffer.numAvailable m
  /\ length (buffer.bufferPool m') = length (buffer.bufferPool m)
  /\ (0 <= txn -> Forall (fun b => buffer.modifyingTxn b <> txn) (buffer.bufferPool m'))
  /\ forall i b, buffer.bufferPool m !! i = Some b ->
        exists b', buffer.bufferPool m' !! i = Some b'
                   /\ buffer.contents b' = buffer.contents b
                   /\ buffer.block b' = buffer.block b
                   /\ buffer.pins b' = buffer.pins b
                   /\ buffer.lsn b' = buffer.lsn b
                   /\ (buffer.txnNum b <> txn -> buffer.txnNum b' = buffer.txnNum b).
Proof.
  unfold buffer.FlushAll. intros Hf.
  apply bind_Ok_inv in Hf as ([[pool' lm1] fm1] & Hp & Hf).
  injection Hf as <- _ _. cbn [buffer.numAvailable buffer.bufferPool].
  apply FlushAll_from_inv in Hp. subst pool'.
  split; [reflexivity|]. split; [apply length_map|]. split.
  - intros H0. apply Forall_map. apply Forall_forall. intros b _. cbn.
    unfold flushed_for, buffer.modifyingTxn. case_bool_decide as Hd; cbn [buffer.txnNum].
    + lia.
    + intros He. apply Hd. split; [exact He|lia].
  - intros i b Hi. exists (flushed_for txn b). change (map (flushed_for txn) (buffer.bufferPool m)) with (flushed_for txn <$> buffer.bufferPool m).
    split; [rewrite list_lookup_fmap, Hi; reflexivity|].
    unfold flushed_for. case_bool_decide as Hd; cbn; split_and!; try reflexivity.
    intros Hne. destruct Hd as [He _]. contradiction.
Qed.

End BufferPool.

Section BufferExamples.
#[local] Existing Instance goarch_386.

Lemma Available_counts_unpinned_buffers_witness :
  (forall blk lm fm i m' lm' fm',
      buffer.Pin (tx.bufferManager wrote.2) blk lm fm = Ok (i, m', lm', fm') ->
      pool_within (1 + 1) m'
      /\ length (buffer.bufferPool m') = length (buffer.bufferPool (tx.bufferManager wrote.2))
      /\ exists b, buffer.bufferPool m' !! i = Some b
                   /\ buffer.Block b = Some blk /\ buffer.isPinned b = true)
  /\ (forall i b, buffer.bufferPool (tx.bufferManager wrote.2) !! i = Some b ->
                  buffer.isPinned b = true ->
                  pool_within 1 (buffer.Unpin (tx.bufferManager wrote.2) i)).
Proof.
  apply (Available_counts_unpinned_buffers 1 (tx.bufferManager wrote.2)).
  - split; [vm_compute; reflexivity|].
    vm_compute. repeat constructor; discriminate.
  - vm_compute. reflexivity.
  - vm_compute. discriminate.
Defined.

Lemma FlushAll_cleans_the_buffers_of_the_transaction_witness :
  let m := tx.bufferManager wrote.2 in
  let m' := wrote_flushed.1.1 in
  buffer.numAvailable m' = buffer.numAvailable m
  /\ length (buffer.bufferPool m') = length (buffer.bufferPool m)
  /\ (0 <= tx.txNum wrote.1 ->
      Forall (fun b => buffer.modifyingTxn b <> tx.txNum wrote.1) (buffer.bufferPool m'))
  /\ forall i b, buffer.bufferPool m !! i = Some b ->
        exists b', buffer.bufferPool m' !! i = Some b'
                   /\ buffer.contents b' = buffer.contents b
                   /\ buffer.block b' = buffer.block b
                   /\ buffer.pins b' = buffer.pins b
                   /\ buffer.lsn b' = buffer.lsn b
                   /\ (buffer.txnNum b <> tx.txNum wrote.1 ->
                       buffer.txnNum b' = buffer.txnNum b).
Proof.
  apply (FlushAll_cleans_the_buffers_of_the_transaction
           (tx.bufferManager wrote.2) (tx.txNum wrote.1)
           (tx.logManager wrote.2) (tx.fileManager wrote.2)
           wrote_flushed.1.1 wrote_flushed.1.2 wrote_flushed.2).
  vm_compute. reflexivity.
Defined.

(** In that example the buffer was modified by the transaction, and is
    clean after the flush. *)
Example wrote_then_flushed :
  buffer.modifyingTxn <$> buffer.bufferPool (tx.bufferManager wrote.2) = [1; -1; -1]
  /\ buffer.modifyingTxn <$> buffer.bufferPool wrote_flushed.1.1 = [-1; -1; -1].
Proof. split; vm_compute; reflexivity. Qed.

End BufferExamples.

(** ** Locks: counting, upgrading, releasing *)

Section Locks.
Context `{Platform}.

Lemma LockTable_eq lt lt' : concurrency.locks lt = concurrency.locks lt' -> lt = lt'.
Proof. destruct lt, lt'; cbn; congruence. Qed.

(** X25.  Shared locks are counted.  On a block that is not locked
    exclusively [SLock] is granted at once, whatever happens later, and
    adds one to the counter; [Unlock] then gives back the table as it
    was.  On a block locked exclusively, and with no release before the
    deadline, [SLock] fails. *)
Theorem SLock_then_Unlock lt blk :
  concurrency.locks lt !! blk <> Some 0 ->
  concurrency.getLockVal lt blk < MaxInt ->
  (0 <= concurrency.getLockVal lt blk ->
   forall wakeups, exists lt',
     concurrency.SLock lt blk wakeups = Ok lt'
     /\ concurrency.getLockVal lt' blk = concurrency.getLockVal lt blk + 1
     /\ concurrency.Unlock lt' blk = lt)
  /\ (concurrency.getLockVal lt blk < 0 ->
      concurrency.SLock lt blk []
      = Error "lock abort execption: could not acquire shared lock").
Proof.
  intros Hnz Hmax. pose proof MinInt_neg as Hmin. split.
  - intros H0 wakeups.
    assert (Hs : concurrency.SLock lt blk wakeups
                 = Ok (concurrency.mkLockTable
                         (<[blk := int_add (concurrency.getLockVal lt blk) 1]>
                            (concurrency.locks lt)))).
    { destruct wakeups; cbn [concurrency.SLock]; unfold concurrency.hasXLock;
        rewrite bool_decide_eq_false_2 by lia; reflexivity. }
    eexists. split; [exact Hs|]. rewrite int_add_small by lia.
    assert (Hv : concurrency.getLockVal
                   (concurrency.mkLockTable
                      (<[blk := concurrency.getLockVal lt blk + 1]> (concurrency.locks lt)))
                   blk = concurrency.getLockVal lt blk + 1).
    { unfold concurrency.getLockVal at 1. cbn [concurrency.locks].
      rewrite lookup_insert_eq. reflexivity. }
    split; [exact Hv|].
    unfold concurrency.Unlock. rewrite Hv. apply LockTable_eq.
    unfold concurrency.getLockVal in *.
    destruct (concurrency.locks lt !! blk) as [v|] eqn:Hl; cbn [default from_option id] in *.
    + assert (0 < v) by (destruct (decide (v = 0)); [congruence|lia]).
      rewrite bool_decide_eq_true_2 by lia. cbn [concurrency.locks].
      rewrite int_sub_small by lia. replace (v + 1 - 1) with v by lia.
      rewrite insert_insert_eq. apply insert_id. exact Hl.
    + rewrite bool_decide_eq_false_2 by lia. cbn [concurrency.locks].
      rewrite delete_insert_eq. apply delete_id. exact Hl.
  - intros Hx. cbn [concurrency.SLock]. unfold concurrency.hasXLock.
    rewrite bool_decide_eq_true_2 by lia. reflexivity.
Qed.



Lemma Unlock_lookup_ne lt b blk :
  blk <> b -> concurrency.locks (concurrency.Unlock lt b) !! blk = concurrency.locks lt !! blk.
Proof.
  intros Hne. unfold concurrency.Unlock. case_bool_decide; cbn [concurrency.locks].
  - apply lookup_insert_ne. congruence.
  - apply lookup_delete_ne. congruence.
Qed.

Lemma Unlock_lookup_eq lt b :
  concurrency.locks (concurrency.Unlock lt b) !! b
  = unlocked_entry (concurrency.locks lt !! b).
Proof.
  unfold concurrency.Unlock, unlocked_entry, concurrency.getLockVal.
  case_bool_decide; cbn [concurrency.locks].
  - apply lookup_insert_eq.
  - apply lookup_delete_eq.
Qed.

Lemma foldr_Unlock l lt blk :
  NoDup l ->
  concurrency.locks (foldr (fun b lt => concurrency.Unlock lt b) lt l) !! blk
  = if bool_decide (blk ∈ l) then unlocked_entry (concurrency.locks lt !! blk)
    else concurrency.locks lt !! blk.
Proof.
  induction 1 as [|b l Hnotin Hnd IH]; cbn [foldr].
  - rewrite bool_decide_eq_false_2 by (apply not_elem_of_nil). reflexivity.
  - destruct (decide (blk = b)) as [->|Hne].
    + rewrite Unlock_lookup_eq. rewrite IH.
      rewrite (bool_decide_eq_false_2 (b ∈ l)) by exact Hnotin.
      rewrite bool_decide_eq_true_2 by (apply elem_of_cons; auto). reflexivity.
    + rewrite Unlock_lookup_ne by exact Hne. rewrite IH.
      destruct (decide (blk ∈ l)) as [Hin|Hout].
      * rewrite !bool_decide_eq_true_2; [reflexivity| |exact Hin].
        apply elem_of_cons. auto.
      * rewrite !bool_decide_eq_false_2; [reflexivity| |exact Hout].
        rewrite elem_of_cons. tauto.
Qed.

(** X27.  [Release] unlocks each block the transaction holds a lock
    on, once, and no other block; afterwards the transaction holds no
    lock. *)
Theorem Release_unlocks_what_is_held m lt :
  concurrency.held (concurrency.Manager_Release m lt).1 = ∅
  /\ forall blk,
      concurrency.locks (concurrency.Manager_Release m lt).2 !! blk
      = match concurrency.held m !! blk with
        | Some _ => concurrency.locks (concurrency.Unlock lt blk) !! blk
        | None => concurrency.locks lt !! blk
        end.
Proof.
  unfold concurrency.Manager_Release. cbn [fst snd concurrency.held].
  split; [reflexivity|]. intros blk.
  rewrite foldr_Unlock by apply NoDup_fst_map_to_list.
  rewrite Unlock_lookup_eq.
  destruct (concurrency.held m !! blk) as [s|] eqn:Hh.
  - rewrite bool_decide_eq_true_2; [reflexivity|].
    apply list_elem_of_fmap. exists (blk, s). split; [reflexivity|].
    apply elem_of_map_to_list. exact Hh.
  - rewrite bool_decide_eq_false_2; [reflexivity|].
    intros Hin. apply list_elem_of_fmap in Hin as ([b s] & -> & Hin).
    apply elem_of_map_to_list in Hin. cbn in Hh. congruence.
Qed.

End Locks.

Section LockExamples.
#[local] Existing Instance goarch_amd64.

Lemma SLock_then_Unlock_witness :
  let lt := concurrency.mkLockTable {[data0 := 2]} in
  (0 <= concurrency.getLockVal lt data0 ->
   forall wakeups, exists lt',
     concurrency.SLock lt data0 wakeups = Ok lt'
     /\ concurrency.getLockVal lt' data0 = concurrency.getLockVal lt data0 + 1
     /\ concurrency.Unlock lt' data0 = lt)
  /\ (concurrency.getLockVal lt data0 < 0 ->
      concurrency.SLock lt data0 []
      = Error "lock abort execption: could not acquire shared lock").
Proof.
  apply (SLock_then_Unlock (concurrency.mkLockTable {[data0 := 2]}) data0).
  - vm_compute. discriminate.
  - vm_compute. reflexivity.
Defined.

End LockExamples.

(** ** Transactions: pins, reads after writes, rollback *)

Section TransactionProperties.
Context `{Platform}.

Lemma Unpin_times_spec i n :
  forall bm b,
    buffer.bufferPool bm !! i = Some b ->
    0 < buffer.pins b <= MaxInt -> MinInt <= buffer.pins b - Z.of_nat n ->
    0 <= buffer.numAvailable bm -> buffer.numAvailable bm + Z.of_nat n <= MaxInt ->
    exists b',
      buffer.bufferPool (tx.Unpin_times n bm i) !! i = Some b'
      /\ buffer.pins b' = buffer.pins b - Z.of_nat n
      /\ buffer.contents b' = buffer.contents b
      /\ buffer.numAvailable (tx.Unpin_times n bm i)
         = buffer.numAvailable bm + Z.max 0 (Z.of_nat n - buffer.pins b + 1)
      /\ length (buffer.bufferPool (tx.Unpin_times n bm i)) = length (buffer.bufferPool bm).
Proof.
  pose proof MinInt_neg as Hmin. pose proof MaxInt_pos as Hmax.
  induction n as [|n IH]; intros bm b Hi Hp Hlow Hav Hhigh.
  - exists b. cbn [tx.Unpin_times]. split_and!; [exact Hi|lia|reflexivity| |reflexivity].
    change (Z.of_nat 0) with 0. lia.
  - cbn [tx.Unpin_times].
    set (bm1 := buffer.Unpin bm i).
    assert (Hlt : (i < length (buffer.bufferPool bm))%nat) by (eapply lookup_lt_Some; eauto).
    assert (Hu : buffer.pins (buffer.unpin b) = buffer.pins b - 1).
    { unfold buffer.unpin. cbn [buffer.pins]. apply int_sub_small. lia. }
    assert (H1 : buffer.bufferPool bm1 !! i = Some (buffer.unpin b)
                 /\ buffer.numAvailable bm1
                    = buffer.numAvailable bm + (if bool_decide (buffer.pins b <= 1) then 1 else 0)
                 /\ length (buffer.bufferPool bm1) = length (buffer.bufferPool bm)).
    { unfold bm1, buffer.Unpin. rewrite Hi. unfold buffer.isPinned. rewrite Hu.
      case_bool_decide as Hd.
      - rewrite bool_decide_eq_false_2 by lia. cbn [negb buffer.bufferPool buffer.numAvailable].
        split_and!; [apply list_lookup_insert_eq; exact Hlt|lia|apply length_insert].
      - rewrite bool_decide_eq_true_2 by lia. cbn [negb buffer.bufferPool buffer.numAvailable].
        rewrite int_add_small by lia.
        split_and!; [apply list_lookup_insert_eq; exact Hlt|lia|apply length_insert]. }
    destruct H1 as (Hi1 & Hav1 & Hl1).
    destruct (decide (buffer.pins b = 1)) as [Hone|Hmore].
    + (* the pool's pin is released now: the rest goes below zero *)
      clear IH. rewrite bool_decide_eq_true_2 in Hav1 by lia.
      assert (Hrest : forall k bm2 b2,
                 buffer.bufferPool bm2 !! i = Some b2 -> buffer.pins b2 <= 0 ->
                 MinInt <= buffer.pins b2 - Z.of_nat k ->
                 0 <= buffer.numAvailable bm2 ->
                 buffer.numAvailable bm2 + Z.of_nat k <= MaxInt ->
                 exists b',
                   buffer.bufferPool (tx.Unpin_times k bm2 i) !! i = Some b'
                   /\ buffer.pins b' = buffer.pins b2 - Z.of_nat k
                   /\ buffer.contents b' = buffer.contents b2
                   /\ buffer.numAvailable (tx.Unpin_times k bm2 i)
                      = buffer.numAvailable bm2 + Z.of_nat k
                   /\ length (buffer.bufferPool (tx.Unpin_times k bm2 i))
                      = length (buffer.bufferPool bm2)).
      { induction k as [|k IHk]; intros bm2 b2 Hi2 Hp2 Hlow2 Hav2 Hhigh2.
        - exists b2. cbn [tx.Unpin_times]. change (Z.of_nat 0) with 0.
          split_and!; [exact Hi2|lia|reflexivity|lia|reflexivity].
        - cbn [tx.Unpin_times].
          assert (Hlt2 : (i < length (buffer.bufferPool bm2))%nat)
            by (eapply lookup_lt_Some; eauto).
          assert (Hu2 : buffer.pins (buffer.unpin b2) = buffer.pins b2 - 1).
          { unfold buffer.unpin. cbn [buffer.pins]. apply int_sub_small. lia. }
          destruct (IHk (buffer.Unpin bm2 i) (buffer.unpin b2)) as (b' & A & B & C & D & E).
          + unfold buffer.Unpin. rewrite Hi2. unfold buffer.isPinned. rewrite Hu2.
            rewrite bool_decide_eq_false_2 by lia. cbn [negb buffer.bufferPool].
            apply list_lookup_insert_eq. exact Hlt2.
          + lia.
          + lia.
          + unfold buffer.Unpin. rewrite Hi2. unfold buffer.isPinned. rewrite Hu2.
            rewrite bool_decide_eq_false_2 by lia. cbn [negb buffer.numAvailable].
            rewrite int_add_small by lia. lia.
          + unfold buffer.Unpin. rewrite Hi2. unfold buffer.isPinned. rewrite Hu2.
            rewrite bool_decide_eq_false_2 by lia. cbn [negb buffer.numAvailable].
            rewrite int_add_small by lia. lia.
          + assert (Hn2 : buffer.numAvailable (buffer.Unpin bm2 i)
                          = buffer.numAvailable bm2 + 1
                          /\ length (buffer.bufferPool (buffer.Unpin bm2 i))
                             = length (buffer.bufferPool bm2)).
            { unfold buffer.Unpin. rewrite Hi2. unfold buffer.isPinned. rewrite Hu2.
              rewrite bool_decide_eq_false_2 by lia.
              cbn [negb buffer.numAvailable buffer.bufferPool].
              rewrite int_add_small by lia. split; [reflexivity|apply length_insert]. }
            destruct Hn2 as [Hn2 Hl2].
            exists b'. split_and!;
              [exact A|rewrite B, Hu2; lia|rewrite C; reflexivity|lia|lia]. }
      destruct (Hrest n bm1 (buffer.unpin b) Hi1) as (b' & A & B & C & D & E); try lia.
      exists b'. split_and!;
        [exact A|rewrite B, Hu; lia|rewrite C; reflexivity|lia|lia].
    + rewrite bool_decide_eq_false_2 in Hav1 by lia.
      destruct (IH bm1 (buffer.unpin b) Hi1) as (b' & A & B & C & D & E); try lia.
      exists b'. split_and!;
        [exact A|rewrite B, Hu; lia|rewrite C; reflexivity|lia|lia].
Qed.

(** X28.  [UnpinAll] gives a buffer back once for each reference the
    transaction counted, although [BufferList.Pin] pins the buffer in
    the pool only for the first: when the transaction holds a block [n]
    times, the pin count of the buffer ends at [1 - n] and the count of
    available buffers grows by [n]. *)
Theorem UnpinAll_unpins_once_per_reference blk i n bm b :
  buffer.bufferPool bm !! i = Some b -> buffer.pins b = 1 ->
  1 <= n -> MinInt <= 1 - n ->
  0 <= buffer.numAvailable bm -> buffer.numAvailable bm + n <= MaxInt ->
  exists bm' b',
    tx.BufferList_UnpinAll (tx.mkBufferList {[blk := tx.mkPinned i n]}) bm
    = (tx.NewBufferList, bm')
    /\ buffer.bufferPool bm' !! i = Some b'
    /\ buffer.pins b' = 1 - n
    /\ buffer.numAvailable bm' = buffer.numAvailable bm + n.
Proof.
  intros Hi Hp Hn Hlow Hav Hhigh.
  unfold tx.BufferList_UnpinAll. cbn [tx.buffers].
  rewrite map_to_list_singleton. cbn [map snd foldr tx.refCount tx.buffer].
  destruct (Unpin_times_spec i (Z.to_nat n) bm b Hi) as (b' & A & B & _ & D & _);
    rewrite ?Z2Nat.id by lia; try lia.
  eexists _, b'. split; [reflexivity|]. split; [exact A|].
  split; [rewrite B, Hp; lia|]. rewrite D, Hp. lia.
Qed.


Lemma Manager_XLock_held m lt blk m' lt' :
  concurrency.Manager_XLock m lt blk = Ok (m', lt') ->
  concurrency.held m' !! blk = Some "x".
Proof.
  unfold concurrency.Manager_XLock, concurrency.Manager_hasXLock.
  destruct (concurrency.held m !! blk) as [s|] eqn:Hh.
  - case_bool_decide as Hs; cbn [negb]; intros Hx.
    + injection Hx as <- _. rewrite Hh, Hs. reflexivity.
    + apply bind_Ok_inv in Hx as ([m1 lt1] & _ & Hx).
      apply bind_Ok_inv in Hx as (lt2 & _ & Hx).
      injection Hx as <- _. cbn [concurrency.held]. apply lookup_insert_eq.
  - cbn [negb]. intros Hx.
    apply bind_Ok_inv in Hx as ([m1 lt1] & _ & Hx).
    apply bind_Ok_inv in Hx as (lt2 & _ & Hx).
    injection Hx as <- _. cbn [concurrency.held]. apply lookup_insert_eq.
Qed.

Lemma SetInt_Ok_GetInt p off v p' :
  file.SetInt p off v = Ok p' -> MinInt <= v <= MaxInt -> file.GetInt p' off = Ok v.
Proof.
  intros Hs Hv.
  destruct (decide (0 <= off /\ off + IntSize <= len (file.buffer p))) as [[H0 Hl]|Hout].
  - rewrite SetInt_overwrite in Hs by assumption. injection Hs as <-.
    apply GetInt_field; [|exact Hv].
    apply field_overwrite_same; rewrite ?len_int_bytes; lia.
  - rewrite SetInt_out_of_bounds in Hs by lia. discriminate.
Qed.

Lemma contents_SetModified b t l :
  buffer.contents (buffer.SetModified b t l) = buffer.contents b.
Proof. unfold buffer.SetModified. case_bool_decide; reflexivity. Qed.

(** X29.  A transaction reads what it wrote: after a successful
    [SetInt], logged or not, [GetInt] on the same block and offset
    returns the value, and asks the lock table for nothing, the
    transaction holding the exclusive lock. *)
Theorem Transaction_reads_its_own_write t db blk off v logIt t' db' :
  tx.Transaction_SetInt t db blk off v logIt = Ok (t', db') ->
  MinInt <= v <= MaxInt ->
  tx.Transaction_GetInt t' db' blk off = Ok (v, t', db')
  /\ concurrency.held (tx.concurrencyManager t') !! blk = Some "x".
Proof.
  unfold tx.Transaction_SetInt. intros Hs Hv.
  apply bind_Ok_inv in Hs as ([[[t1 db1] i] buff] & Hlf & Hs).
  apply bind_Ok_inv in Hs as ([lsn db2] & Hlog & Hs).
  apply bind_Ok_inv in Hs as (page & Hset & Hs).
  injection Hs as <- <-.
  unfold tx.lockAndFind in Hlf.
  apply bind_Ok_inv in Hlf as ([cm lt] & Hx & Hlf).
  destruct (tx.GetBuffer (tx.myBuffers (tx.with_concurrency t cm)) blk) as [j|] eqn:Hgb;
    [|discriminate].
  destruct (buffer.bufferPool (tx.bufferManager (tx.with_locks db lt)) !! j) as [bf|] eqn:Hj;
    [|discriminate].
  injection Hlf as <- <- <- <-.
  apply Manager_XLock_held in Hx.
  assert (Hbm : tx.bufferManager db2 = tx.bufferManager db
                /\ tx.lockTable db2 = lt).
  { destruct logIt.
    - unfold tx.RecoveryManager_SetInt in Hlog.
      apply bind_Ok_inv in Hlog as (old & _ & Hlog).
      apply bind_Ok_inv in Hlog as (b0 & _ & Hlog).
      apply bind_Ok_inv in Hlog as ([[l lm] fm] & _ & Hlog).
      injection Hlog as _ <-. split; reflexivity.
    - injection Hlog as _ <-. split; reflexivity. }
  destruct Hbm as [Hbm Hlt].
  split; [|exact Hx].
  unfold tx.Transaction_GetInt, tx.lockSharedAndFind, concurrency.Manager_SLock.
  cbn [tx.concurrencyManager tx.with_concurrency] in *.
  rewrite Hx. ok_step.
  assert (Ht : tx.with_concurrency (tx.with_concurrency t cm) cm = tx.with_concurrency t cm)
    by reflexivity.
  rewrite Ht. rewrite Hgb.
  set (db' := tx.storeModified (tx.with_concurrency t cm) db2 j bf page lsn).
  assert (Hdb : tx.with_locks db' (tx.lockTable db') = db') by (destruct db'; reflexivity).
  rewrite Hdb.
  assert (Hpool : buffer.bufferPool (tx.bufferManager db') !! j
                  = Some (buffer.SetModified
                            (buffer.mkBuffer page (buffer.block bf) (buffer.pins bf)
                                             (buffer.txnNum bf) (buffer.lsn bf))
                            (tx.txNum (tx.with_concurrency t cm)) lsn)).
  { unfold db', tx.storeModified. cbn [tx.bufferManager tx.with_buffers buffer.bufferPool].
    apply list_lookup_insert_eq. rewrite Hbm.
    cbn [tx.bufferManager tx.with_locks] in Hj. eapply lookup_lt_Some. exact Hj. }
  rewrite Hpool. ok_step. unfold buffer.Contents. rewrite contents_SetModified.
  cbn [buffer.contents].
  rewrite (SetInt_Ok_GetInt _ _ _ _ Hset Hv). reflexivity.
Qed.

Lemma doRollback_loop_skips t db skipped rest :
  Forall (fun next => exists bytes r, next = Ok bytes /\ tx.CreateLogRecord bytes = Ok r
                                        /\ tx.TxNumber r <> tx.txNum t) skipped ->
  tx.doRollback_loop (skipped ++ rest) t db = tx.doRollback_loop rest t db.
Proof.
  induction 1 as [|next skipped (bytes & r & -> & Hr & Hne) _ IH]; [reflexivity|].
  cbn [app tx.doRollback_loop]. ok_step. rewrite Hr. ok_step.
  rewrite bool_decide_eq_false_2 by exact Hne. exact IH.
Qed.

(** X30.  An error of the log iterator during a rollback reaches the
    caller: if [Next] fails after records of other transactions only,
    or the iterator cannot be created, [Rollback] returns that error
    (where [doRecover] returns nil). *)
Theorem Rollback_returns_the_iterator_error t db skipped e rest :
  Forall (fun next => exists bytes r, next = Ok bytes /\ tx.CreateLogRecord bytes = Ok r
                                        /\ tx.TxNumber r <> tx.txNum t) skipped ->
  tx.RecoveryManager_Rollback t db (Ok (skipped ++ Error e :: rest)) = Error e
  /\ tx.Transaction_Rollback t db (Ok (skipped ++ Error e :: rest)) = Error e
  /\ tx.Transaction_Rollback t db (Error e) = Error e.
Proof.
  intros Hsk.
  assert (Hd : tx.doRollback t db (Ok (skipped ++ Error e :: rest)) = Error e).
  { unfold tx.doRollback. ok_step. rewrite (doRollback_loop_skips _ _ _ _ Hsk). reflexivity. }
  unfold tx.Transaction_Rollback, tx.RecoveryManager_Rollback. rewrite Hd.
  split_and!; reflexivity.
Qed.

End TransactionProperties.

Section TransactionExamples.
#[local] Existing Instance goarch_386.

Lemma UnpinAll_unpins_once_per_reference_witness :
  exists bm' b',
    tx.BufferList_UnpinAll (tx.mkBufferList {[data0 := tx.mkPinned 0 2]})
                           (tx.bufferManager pinned_twice.2)
    = (tx.NewBufferList, bm')
    /\ buffer.bufferPool bm' !! 0%nat = Some b'
    /\ buffer.pins b' = 1 - 2
    /\ buffer.numAvailable bm' = buffer.numAvailable (tx.bufferManager pinned_twice.2) + 2.
Proof.
  refine (UnpinAll_unpins_once_per_reference data0 0 2 (tx.bufferManager pinned_twice.2)
            (buffer.mkBuffer (file.mkPage (replicate 400 Byte.x00)) (Some data0) 1 (-1) (-1))
            _ _ _ _ _ _).
  - vm_compute. reflexivity.
  - reflexivity.
  - lia.
  - vm_compute. discriminate.
  - vm_compute. discriminate.
  - vm_compute. discriminate.
Defined.

(** The transaction of that example pinned the block twice, and the
    pool once; when it commits, four of the three buffers are
    available. *)
Example Commit_after_pinning_twice :
  tx.myBuffers pinned_twice.1 = tx.mkBufferList {[data0 := tx.mkPinned 0 2]}
  /\ tx.Transaction_AvailableBuffers booted.2 = 3
  /\ tx.Transaction_AvailableBuffers pinned_twice.2 = 2
  /\ exists t db, tx.Transaction_Commit pinned_twice.1 pinned_twice.2 = Ok (t, db)
                  /\ tx.Transaction_AvailableBuffers db = 4.
Proof.
  split; [vm_compute; reflexivity|].
  split; [vm_compute; reflexivity|].
  split; [vm_compute; reflexivity|].
  eexists _, _. split; [vm_compute; reflexivity|vm_compute; reflexivity].
Qed.

Lemma Transaction_reads_its_own_write_witness :
  tx.Transaction_GetInt wrote.1 wrote.2 data0 8 = Ok (7, wrote.1, wrote.2)
  /\ concurrency.held (tx.concurrencyManager wrote.1) !! data0 = Some "x".
Proof.
  refine (Transaction_reads_its_own_write
            (match tx.Pin booted.1 booted.2 data0 with Ok r => r.1 | _ => booted.1 end)
            (match tx.Pin booted.1 booted.2 data0 with Ok r => r.2 | _ => booted.2 end)
            data0 8 7 true wrote.1 wrote.2 _ _).
  - vm_compute. reflexivity.
  - split; vm_compute; discriminate.
Defined.

Lemma Rollback_returns_the_iterator_error_witness :
  tx.RecoveryManager_Rollback wrote.1 wrote.2
    (Ok ([tx.CommitBytes 2] ++ Error "failed to move to block" :: [])) = Error "failed to move to block"
  /\ tx.Transaction_Rollback wrote.1 wrote.2
       (Ok ([tx.CommitBytes 2] ++ Error "failed to move to block" :: [])) = Error "failed to move to block"
  /\ tx.Transaction_Rollback wrote.1 wrote.2 (Error "failed to move to block")
     = Error "failed to move to block".
Proof.
  apply (Rollback_returns_the_iterator_error wrote.1 wrote.2 [tx.CommitBytes 2]).
  constructor; [|constructor].
  eexists _, _. split; [vm_compute; reflexivity|].
  split; [vm_compute; reflexivity|]. vm_compute. discriminate.
Defined.

End TransactionExamples.
